(** * DialIndicator: a shallow embedding of [display_curses.py]

    The development follows the layout of the Python module:
    - [Py]        the fragment of Python values, exceptions and builtins the
                  module relies on ([float], [abs], [format], [str.endswith],
                  [bytes.decode]);
    - [Re]        a backtracking matcher for the regular expressions the module
                  compiles, and [INDICATOR_RE] itself;
    - [Glyphs]    [BASE_CHARACTERS], [CHAR_SET1] .. [CHAR_SET4], [CHAR_SETS];
    - [Curses]    the window operations of the terminal backend;
    - [Display]   class [IndicatorDisplay];
    - [Reader]    [IndicatorReader.select_loop], [GetPort] and [main].

    Text.  A Python [str] is represented by the [string] of its UTF-8
    bytes, so that the literals of the module read as they do in the source.
    The character classes of the matcher are the ASCII ones: a line that holds
    a non-ASCII Unicode digit or white-space character is outside the model,
    and the statements that quantify over lines say so with [is_ascii].

    Numbers.  A Python [float] is a binary64 value, represented by
    [spec_float] at precision 53 and maximal exponent 1024. *)

From Stdlib Require Import ZArith List String Ascii Bool Lia.
From Stdlib Require Import Floats.SpecFloat.
From Stdlib Require Import DecimalString DecimalN.
From Stdlib Require DecimalFacts.
Import ListNotations.

Local Open Scope string_scope.
Local Open Scope Z_scope.

(* ================================================================== *)
(** * Python values, exceptions and builtins *)
(* ================================================================== *)

Module Py.

(** The exception classes that the module can meet. *)
Inductive exn : Type :=
| TypeError
| ValueError
| KeyError
| OverflowError
| UnicodeDecodeError
| curses_error
| IOError (msg : string)
| SystemExit (code : Z).

(** The result of running a statement: it returns, or an exception leaves it. *)
Inductive outcome (A : Type) : Type :=
| Ok (a : A)
| Raise (e : exn).
Arguments Ok {A} a.
Arguments Raise {A} e.

Definition obind {A B} (o : outcome A) (k : A -> outcome B) : outcome B :=
  match o with
  | Ok a => k a
  | Raise e => Raise e
  end.

(** ** Strings *)

Definition ch (s : string) : ascii :=
  match s with
  | String c _ => c
  | EmptyString => Ascii.zero
  end.

Definition code (c : ascii) : Z := Z.of_N (N_of_ascii c).

Definition is_ascii_char (c : ascii) : bool := code c <? 128.

Fixpoint is_ascii (s : string) : bool :=
  match s with
  | EmptyString => true
  | String c s' => is_ascii_char c && is_ascii s'
  end.

(** [s.endswith(suffix)] *)
Definition endswith (s suffix : string) : bool :=
  let n := String.length s in
  let k := String.length suffix in
  (k <=? n)%nat && String.eqb (substring (n - k) k s) suffix.

(** ** [bytes.decode('utf8')]

    The bytes are kept as they are when they form valid UTF-8 (shortest
    form, no surrogate, at most U+10FFFF); otherwise [UnicodeDecodeError]. *)

Definition in_range (lo hi : Z) (c : ascii) : bool :=
  (lo <=? code c) && (code c <=? hi).

Definition cont (c : ascii) : bool := in_range 128 191 c.

Fixpoint utf8_valid (fuel : nat) (b : list ascii) : bool :=
  match fuel with
  | O => match b with [] => true | _ => false end
  | S fuel' =>
    match b with
    | [] => true
    | c0 :: r0 =>
      if in_range 0 127 c0 then utf8_valid fuel' r0
      else if in_range 194 223 c0 then
        match r0 with
        | c1 :: r1 => cont c1 && utf8_valid fuel' r1
        | _ => false
        end
      else if in_range 224 239 c0 then
        match r0 with
        | c1 :: c2 :: r2 =>
          (if code c0 =? 224 then in_range 160 191 c1
           else if code c0 =? 237 then in_range 128 159 c1
           else cont c1)
          && cont c2 && utf8_valid fuel' r2
        | _ => false
        end
      else if in_range 240 244 c0 then
        match r0 with
        | c1 :: c2 :: c3 :: r3 =>
          (if code c0 =? 240 then in_range 144 191 c1
           else if code c0 =? 244 then in_range 128 143 c1
           else cont c1)
          && cont c2 && cont c3 && utf8_valid fuel' r3
        | _ => false
        end
      else false
    end
  end.

Definition decode_utf8 (b : list ascii) : outcome string :=
  if utf8_valid (List.length b) b
  then Ok (string_of_list_ascii b)
  else Raise UnicodeDecodeError.

(** ** Floats: binary64 *)

Definition prec : Z := 53.
Definition emax : Z := 1024.

Definition float := spec_float.

Definition fzero : float := S754_zero false.

(** The binary64 value nearest to [n / d] (ties to even), with the sign
    [neg]: the conversion that [float(str)] and [float(int)] perform. *)
Definition round_ratio (neg : bool) (n d : Z) : float :=
  if n <=? 0 then S754_zero neg
  else
    let '(mz, ez, lz) := SFdiv_core_binary prec emax n 0 d 0 in
    binary_round_aux prec emax neg mz ez lz.

Definition is_digit (c : ascii) : bool := in_range 48 57 c.

Fixpoint all_chars (p : ascii -> bool) (s : string) : bool :=
  match s with
  | EmptyString => true
  | String c s' => p c && all_chars p s'
  end.

(** The number that a run of decimal digits denotes, most significant first. *)
Fixpoint digits_value (acc : Z) (s : string) : Z :=
  match s with
  | EmptyString => acc
  | String c s' => digits_value (10 * acc + (code c - 48)) s'
  end.

(** Splits at the first occurrence of [c]. *)
Fixpoint split_at (c : ascii) (s : string) : option (string * string) :=
  match s with
  | EmptyString => None
  | String a s' =>
    if Ascii.eqb a c then Some (EmptyString, s')
    else match split_at c s' with
         | Some (l, r) => Some (String a l, r)
         | None => None
         end
  end.

(** [float(s)] for the literals [-?digits.digits]: the only strings the
    module converts.  Exponents, [inf], [nan], underscores and surrounding
    blanks, which Python's [float] also reads, are not modelled and are
    answered with [ValueError]. *)
Definition float_of_str (s : string) : outcome float :=
  let '(neg, body) :=
    match s with
    | String c r => if Ascii.eqb c "-" then (true, r) else (false, s)
    | EmptyString => (false, s)
    end in
  match split_at "." body with
  | Some (ip, fp) =>
    if negb (String.length ip =? 0)%nat && negb (String.length fp =? 0)%nat
       && all_chars is_digit ip && all_chars is_digit fp
    then Ok (round_ratio neg (digits_value 0 (ip ++ fp))
                         (10 ^ Z.of_nat (String.length fp)))
    else Raise ValueError
  | None => Raise ValueError
  end.

(** [float(z)] for an [int]. *)
Definition float_of_int (z : Z) : outcome float :=
  match binary_normalize prec emax z 0 false with
  | S754_infinity _ => Raise OverflowError
  | f => Ok f
  end.

(** ** The values that [IndicatorDisplay.number] holds *)

Inductive value : Type :=
| PyInt (z : Z)
| PyFloat (f : float)
| PyStr (s : string).

(** [v < 0] *)
Definition lt_zero (v : value) : outcome bool :=
  match v with
  | PyInt z => Ok (z <? 0)
  | PyFloat f => Ok (SFltb f fzero)
  | PyStr _ => Raise TypeError
  end.

(** [abs(v)] *)
Definition abs (v : value) : outcome value :=
  match v with
  | PyInt z => Ok (PyInt (Z.abs z))
  | PyFloat f => Ok (PyFloat (SFabs f))
  | PyStr _ => Raise TypeError
  end.

(** ** [format(x, '0.<d>f')] *)

Definition string_of_nonneg (z : Z) : string :=
  NilZero.string_of_uint (N.to_uint (Z.to_N z)).

Fixpoint zeros (n : nat) : string :=
  match n with
  | O => EmptyString
  | S n' => String "0" (zeros n')
  end.

(** [q] taken as a count of units of [10^-d], written with [d] decimals. *)
Definition fixed_of_scaled (d : nat) (q : Z) : string :=
  let s := string_of_nonneg q in
  let s := zeros (S d - String.length s) ++ s in
  let k := (String.length s - d)%nat in
  match d with
  | O => s
  | _ => substring 0 k s ++ "." ++ substring k d s
  end.

(** [n / den] rounded to the nearest integer, ties to even. *)
Definition round_half_even (n den : Z) : Z :=
  let q := n / den in
  let r := n mod den in
  match 2 * r ?= den with
  | Lt => q
  | Gt => q + 1
  | Eq => if Z.even q then q else q + 1
  end.

(** The magnitude [m * 2^e] in units of [10^-d]. *)
Definition scaled (d : nat) (m : positive) (e : Z) : Z :=
  let n := Zpos m * 10 ^ Z.of_nat d in
  if 0 <=? e then n * 2 ^ e else round_half_even n (2 ^ (- e)).

Definition sign_str (neg : bool) : string := if neg then "-" else "".

Definition format_float (d : nat) (f : float) : string :=
  match f with
  | S754_zero s => sign_str s ++ fixed_of_scaled d 0
  | S754_infinity s => sign_str s ++ "inf"
  | S754_nan => "nan"
  | S754_finite s m e => sign_str s ++ fixed_of_scaled d (scaled d m e)
  end.

(** The format specification [0.<d>f]: zero flag, no width, precision [d]. *)
Definition format_f (d : nat) (v : value) : outcome string :=
  match v with
  | PyInt z => obind (float_of_int z) (fun f => Ok (format_float d f))
  | PyFloat f => Ok (format_float d f)
  | PyStr _ => Raise ValueError
  end.

End Py.

(* ================================================================== *)
(** * Regular expressions: [re.compile] and [Pattern.match] *)
(* ================================================================== *)

Module Re.
Import Py.

(** The patterns of the module are sequences of single-character classes,
    each taken once, optionally ([?]) or repeatedly ([+]), inside or outside
    a named group. *)
Inductive quant : Type := One | Opt | Plus.

Record item : Type := Item {
  cls : ascii -> bool;
  rep : quant;
  grp : option string
}.

Definition regex : Type := list item.

(** [\s] on ASCII: tab, line feed, vertical tab, form feed, carriage return,
    the four separators FS GS RS US, and the blank. *)
Definition is_space (c : ascii) : bool :=
  in_range 9 13 c || in_range 28 32 c.

Definition class_d : ascii -> bool := is_digit.
Definition class_s : ascii -> bool := is_space.
Definition class_S : ascii -> bool := fun c => negb (is_space c).
Definition lit (c : ascii) : ascii -> bool := Ascii.eqb c.

Definition push (w : string) (o : option (list string)) : option (list string) :=
  option_map (cons w) o.

(** What one item followed by the rest of the pattern consumes when the
    item takes exactly the first character of [s]. *)
Definition take_one (p : ascii -> bool) (k : string -> option (list string))
    (s : string) : option (list string) :=
  match s with
  | String c s' => if p c then push (String c "") (k s') else None
  | EmptyString => None
  end.

(** A greedy [+]: the class [p] as many times as it goes, then the rest of
    the pattern [k]; when the rest fails, one repetition is given back. *)
Fixpoint plus (p : ascii -> bool) (k : string -> option (list string))
    (s : string) : option (list string) :=
  match s with
  | String c s' =>
    if p c then
      match plus p k s' with
      | Some (w :: ws) => Some (String c w :: ws)
      | _ => push (String c "") (k s')
      end
    else None
  | EmptyString => None
  end.

(** Greedy matching with backtracking, anchored at the start of [s] as
    [Pattern.match] is: the answer lists what each item consumed, for the
    first way of matching that the backtracking search meets. *)
Fixpoint match_items (r : regex) (s : string) : option (list string) :=
  match r with
  | [] => Some []
  | it :: r' =>
    match rep it with
    | One => take_one (cls it) (match_items r') s
    | Opt =>
      match take_one (cls it) (match_items r') s with
      | Some m => Some m
      | None => push "" (match_items r' s)
      end
    | Plus => plus (cls it) (match_items r') s
    end
  end.

(** A match object: the pattern and what each of its items consumed. *)
Record match_object : Type := Match {
  pattern : regex;
  spans : list string
}.

Definition re_match (r : regex) (s : string) : option match_object :=
  option_map (Match r) (match_items r s).

Definition same_group (g : string) (it : item) : bool :=
  match grp it with
  | Some g' => String.eqb g g'
  | None => false
  end.

Fixpoint group_text (g : string) (r : regex) (ws : list string) : string :=
  match r, ws with
  | it :: r', w :: ws' =>
    (if same_group g it then w else "") ++ group_text g r' ws'
  | _, _ => ""
  end.

(** [m.group(name)] *)
Definition group (m : match_object) (g : string) : string :=
  group_text g (pattern m) (spans m).

(** [(?P<number>-?\d+\.\d+)\s+(?P<unit>\S+)] *)
Definition INDICATOR_RE : regex :=
  [ Item (lit "-") Opt  (Some "number");
    Item class_d   Plus (Some "number");
    Item (lit ".") One  (Some "number");
    Item class_d   Plus (Some "number");
    Item class_s   Plus None;
    Item class_S   Plus (Some "unit") ].

End Re.

(* ================================================================== *)
(** * The glyph catalog *)
(* ================================================================== *)

Module Glyphs.
Import Py.

(** A glyph is the list of its rows; a font maps characters to glyphs.  The
    fonts are dict literals: the order of the entries is the source's. *)
Definition glyph : Type := list string.
Definition dict : Type := list (ascii * glyph).

Fixpoint lookup (d : dict) (k : ascii) : option glyph :=
  match d with
  | [] => None
  | (k', g) :: d' => if Ascii.eqb k k' then Some g else lookup d' k
  end.

(** [d[k]] *)
Definition getitem (d : dict) (k : ascii) : outcome glyph :=
  match lookup d k with
  | Some g => Ok g
  | None => Raise KeyError
  end.

Definition glyph_eqb (a b : glyph) : bool :=
  if list_eq_dec string_dec a b then true else false.

(** [d1 == d2] for dicts without repeated keys. *)
Definition dict_eqb (a b : dict) : bool :=
  (List.length a =? List.length b)%nat
  && forallb (fun kv => match lookup b (fst kv) with
                        | Some g => glyph_eqb (snd kv) g
                        | None => false
                        end) a.

Definition BASE_CHARACTERS : list string :=
  [" "; "#"; "•"; "⬤"; "⏺"; "●"; "⬩"; "♦"].

Definition CHAR_SET1 : dict :=
  [
  ("0"%char,
         [" ###  ";
          "#   # ";
          "#   # ";
          "#   # ";
          "#   # ";
          "#   # ";
          " ###  ";
          "      "]);
  ("1"%char,
         [" ##   ";
          "# #   ";
          "  #   ";
          "  #   ";
          "  #   ";
          "  #   ";
          "##### ";
          "      "]);
  ("2"%char,
         [" ###  ";
          "#   # ";
          "    # ";
          " ###  ";
          "#     ";
          "#     ";
          "##### ";
          "      "]);
  ("3"%char,
         [" ###  ";
          "#   # ";
          "    # ";
          " ###  ";
          "    # ";
          "#   # ";
          " ###  ";
          "      "]);
  ("4"%char,
         ["#   # ";
          "#   # ";
          "#   # ";
          "##### ";
          "    # ";
          "    # ";
          "    # ";
          "      "]);
  ("5"%char,
         ["####  ";
          "#     ";
          "#     ";
          " ###  ";
          "    # ";
          "    # ";
          "####  ";
          "      "]);
  ("6"%char,
         [" ###  ";
          "#     ";
          "#     ";
          "####  ";
          "#   # ";
          "#   # ";
          " ###  ";
          "      "]);
  ("7"%char,
         ["##### ";
          "#   # ";
          "    # ";
          "   #  ";
          "  #   ";
          " #    ";
          " #    ";
          "      "]);
  ("8"%char,
         [" ###  ";
          "#   # ";
          "#   # ";
          " ###  ";
          "#   # ";
          "#   # ";
          " ###  ";
          "      "]);
  ("9"%char,
         [" ###  ";
          "#   # ";
          "#   # ";
          " #### ";
          "    # ";
          "    # ";
          " ###  ";
          "      "]);
  ("i"%char,
         ["  ";
          "# ";
          "  ";
          "# ";
          "# ";
          "# ";
          "# ";
          "  "]);
  ("n"%char,
         ["      ";
          "      ";
          "      ";
          " ###  ";
          "#   # ";
          "#   # ";
          "#   # ";
          "      "]);
  ("m"%char,
         ["        ";
          "        ";
          "        ";
          " ## ##  ";
          "#  #  # ";
          "#  #  # ";
          "#  #  # ";
          "        "]);
  ("-"%char,
         ["    ";
          "    ";
          "    ";
          "### ";
          "    ";
          "    ";
          "    ";
          "    "]);
  (" "%char,
         ["    ";
          "    ";
          "    ";
          "    ";
          "    ";
          "    ";
          "    ";
          "    "]);
  ("."%char,
         ["  ";
          "  ";
          "  ";
          "  ";
          "  ";
          "  ";
          "# ";
          "  "]);
  ("?"%char,
         [" ###  ";
          "#   # ";
          "    # ";
          "   #  ";
          "  #   ";
          "      ";
          "  #   ";
          "      "])
  ].

Definition CHAR_SET2 : dict :=
  [
  ("0"%char,
         [" #####  ";
          "##   ## ";
          "##   ## ";
          "##   ## ";
          "##   ## ";
          "##   ## ";
          " #####  ";
          "        "]);
  ("1"%char,
         [" ####   ";
          "#  ##   ";
          "   ##   ";
          "   ##   ";
          "   ##   ";
          "   ##   ";
          "####### ";
          "        "]);
  ("2"%char,
         [" #####  ";
          "##   ## ";
          "     ## ";
          " #####  ";
          "##      ";
          "##      ";
          "####### ";
          "        "]);
  ("3"%char,
         [" #####  ";
          "##   ## ";
          "     ## ";
          " #####  ";
          "     ## ";
          "##   ## ";
          " #####  ";
          "        "]);
  ("4"%char,
         ["##   ## ";
          "##   ## ";
          "##   ## ";
          "####### ";
          "     ## ";
          "     ## ";
          "     ## ";
          "        "]);
  ("5"%char,
         ["######  ";
          "##      ";
          "##      ";
          " #####  ";
          "     ## ";
          "     ## ";
          "######  ";
          "        "]);
  ("6"%char,
         [" #####  ";
          "##      ";
          "##      ";
          "######  ";
          "##   ## ";
          "##   ## ";
          " #####  ";
          "        "]);
  ("7"%char,
         ["####### ";
          "##   ## ";
          "     ## ";
          "    ##  ";
          "   ##   ";
          "  ##    ";
          "  ##    ";
          "        "]);
  ("8"%char,
         [" #####  ";
          "##   ## ";
          "##   ## ";
          " #####  ";
          "##   ## ";
          "##   ## ";
          " #####  ";
          "        "]);
  ("9"%char,
         [" #####  ";
          "##   ## ";
          "##   ## ";
          " ###### ";
          "     ## ";
          "     ## ";
          " #####  ";
          "        "]);
  ("i"%char,
         ["  ";
          "# ";
          "  ";
          "# ";
          "# ";
          "# ";
          "# ";
          "  "]);
  ("n"%char,
         ["      ";
          "      ";
          "      ";
          " ###  ";
          "#   # ";
          "#   # ";
          "#   # ";
          "      "]);
  ("m"%char,
         ["        ";
          "        ";
          "        ";
          " ## ##  ";
          "#  #  # ";
          "#  #  # ";
          "#  #  # ";
          "        "]);
  ("-"%char,
         ["     ";
          "     ";
          "     ";
          "#### ";
          "     ";
          "     ";
          "     ";
          "     "]);
  (" "%char,
         ["     ";
          "     ";
          "     ";
          "     ";
          "     ";
          "     ";
          "     ";
          "     "]);
  ("."%char,
         ["  ";
          "  ";
          "  ";
          "  ";
          "  ";
          "  ";
          "# ";
          "  "]);
  ("?"%char,
         [" #####  ";
          "##   ## ";
          "     ## ";
          "    ##  ";
          "   ##   ";
          "        ";
          "   ##   ";
          "        "])
  ].

Definition CHAR_SET3 : dict :=
  [
  ("0"%char,
         [" #####  ";
          "####### ";
          "##   ## ";
          "##   ## ";
          "##   ## ";
          "##   ## ";
          "##   ## ";
          "####### ";
          " #####  ";
          "        "]);
  ("1"%char,
         [" ####   ";
          "#####   ";
          "## ##   ";
          "   ##   ";
          "   ##   ";
          "   ##   ";
          "   ##   ";
          "####### ";
          "####### ";
          "        "]);
  ("2"%char,
         [" #####  ";
          "####### ";
          "##   ## ";
          "     ## ";
          " #####  ";
          "##      ";
          "##      ";
          "####### ";
          "####### ";
          "        "]);
  ("3"%char,
         [" #####  ";
          "####### ";
          "##   ## ";
          "     ## ";
          " #####  ";
          "     ## ";
          "##   ## ";
          "####### ";
          " #####  ";
          "        "]);
  ("4"%char,
         ["##   ## ";
          "##   ## ";
          "##   ## ";
          "##   ## ";
          "####### ";
          "####### ";
          "     ## ";
          "     ## ";
          "     ## ";
          "        "]);
  ("5"%char,
         ["######  ";
          "######  ";
          "##      ";
          "##      ";
          " #####  ";
          "     ## ";
          "     ## ";
          "######  ";
          "#####   ";
          "        "]);
  ("6"%char,
         [" #####  ";
          "######  ";
          "##      ";
          "##      ";
          "######  ";
          "##   ## ";
          "##   ## ";
          " #####  ";
          "  ###   ";
          "        "]);
  ("7"%char,
         ["####### ";
          "####### ";
          "##   ## ";
          "     ## ";
          "    ##  ";
          "   ##   ";
          "  ##    ";
          "  ##    ";
          "  ##    ";
          "        "]);
  ("8"%char,
         [" #####  ";
          "####### ";
          "##   ## ";
          "##   ## ";
          " #####  ";
          "##   ## ";
          "##   ## ";
          "####### ";
          " #####  ";
          "        "]);
  ("9"%char,
         [" #####  ";
          "####### ";
          "##   ## ";
          "##   ## ";
          " ###### ";
          "     ## ";
          "     ## ";
          " #####  ";
          " ####   ";
          "        "]);
  ("i"%char,
         ["  ";
          "## ";
          "## ";
          "   ";
          "## ";
          "## ";
          "## ";
          "## ";
          "## ";
          "   "]);
  ("n"%char,
         ["        ";
          "        ";
          "        ";
          "        ";
          " #####  ";
          "##   ## ";
          "##   ## ";
          "##   ## ";
          "##   ## ";
          "        "]);
  ("m"%char,
         ["          ";
          "          ";
          "          ";
          "          ";
          " ### ###  ";
          "##  #  ## ";
          "##  #  ## ";
          "##  #  ## ";
          "##  #  ## ";
          "          "]);
  ("-"%char,
         ["     ";
          "     ";
          "     ";
          "     ";
          "#### ";
          "     ";
          "     ";
          "     ";
          "     ";
          "     "]);
  (" "%char,
         ["     ";
          "     ";
          "     ";
          "     ";
          "     ";
          "     ";
          "     ";
          "     ";
          "     ";
          "     "]);
  ("."%char,
         ["   ";
          "   ";
          "   ";
          "   ";
          "   ";
          "   ";
          "   ";
          "## ";
          "## ";
          "   "]);
  ("?"%char,
         [" #####  ";
          "####### ";
          "##   ## ";
          "     ## ";
          "    ##  ";
          "   ##   ";
          "   ##   ";
          "        ";
          "   ##   ";
          "        "])
  ].

Definition CHAR_SET4 : dict :=
  [
  ("0"%char,
         [" #######  ";
          "######### ";
          "##     ## ";
          "##     ## ";
          "##     ## ";
          "##     ## ";
          "##     ## ";
          "##     ## ";
          "######### ";
          " #######  ";
          "          "]);
  ("1"%char,
         [" #####    ";
          "######    ";
          "## ###    ";
          "   ###    ";
          "   ###    ";
          "   ###    ";
          "   ###    ";
          "   ###    ";
          "######### ";
          "######### ";
          "          "]);
  ("2"%char,
         [" #######  ";
          "######### ";
          "##     ## ";
          "       ## ";
          "  ######  ";
          " ######   ";
          "##        ";
          "##        ";
          "######### ";
          "######### ";
          "          "]);
  ("3"%char,
         [" #######  ";
          "######### ";
          "##     ## ";
          "       ## ";
          " #######  ";
          " #######  ";
          "       ## ";
          "##     ## ";
          "######### ";
          " #######  ";
          "          "]);
  ("4"%char,
         ["##     ## ";
          "##     ## ";
          "##     ## ";
          "##     ## ";
          "######### ";
          "######### ";
          "       ## ";
          "       ## ";
          "       ## ";
          "       ## ";
          "          "]);
  ("5"%char,
         ["########  ";
          "########  ";
          "##        ";
          "##        ";
          " ######   ";
          "  ######  ";
          "       ## ";
          "       ## ";
          "########  ";
          "#######   ";
          "          "]);
  ("6"%char,
         [" #######  ";
          "########  ";
          "##        ";
          "##        ";
          "#######   ";
          "########  ";
          "##     ## ";
          "##     ## ";
          " #######  ";
          "  #####   ";
          "          "]);
  ("7"%char,
         ["######### ";
          "######### ";
          "##     ## ";
          "       ## ";
          "      ##  ";
          "     ##   ";
          "    ##    ";
          "    ##    ";
          "    ##    ";
          "    ##    ";
          "          "]);
  ("8"%char,
         [" #######  ";
          "######### ";
          "##     ## ";
          "##     ## ";
          " #######  ";
          " #######  ";
          "##     ## ";
          "##     ## ";
          "######### ";
          " #######  ";
          "          "]);
  ("9"%char,
         [" #######  ";
          "######### ";
          "##     ## ";
          "##     ## ";
          " ######## ";
          "  ####### ";
          "       ## ";
          "       ## ";
          " #######  ";
          " ####     ";
          "          "]);
  ("i"%char,
         ["  ";
          "## ";
          "## ";
          "   ";
          "## ";
          "## ";
          "## ";
          "## ";
          "## ";
          "## ";
          "   "]);
  ("n"%char,
         ["        ";
          "        ";
          "        ";
          "        ";
          "        ";
          " #####  ";
          "##   ## ";
          "##   ## ";
          "##   ## ";
          "##   ## ";
          "        "]);
  ("m"%char,
         ["          ";
          "          ";
          "          ";
          "          ";
          "          ";
          " ### ###  ";
          "##  #  ## ";
          "##  #  ## ";
          "##  #  ## ";
          "##  #  ## ";
          "          "]);
  ("-"%char,
         ["     ";
          "     ";
          "     ";
          "     ";
          "     ";
          "#### ";
          "     ";
          "     ";
          "     ";
          "     ";
          "     "]);
  (" "%char,
         ["     ";
          "     ";
          "     ";
          "     ";
          "     ";
          "     ";
          "     ";
          "     ";
          "     ";
          "     ";
          "     "]);
  ("."%char,
         ["   ";
          "   ";
          "   ";
          "   ";
          "   ";
          "   ";
          "   ";
          "   ";
          "## ";
          "## ";
          "   "]);
  ("?"%char,
         [" #####  ";
          "####### ";
          "##   ## ";
          "     ## ";
          "    ##  ";
          "   ##   ";
          "   ##   ";
          "   ##   ";
          "        ";
          "   ##   ";
          "        "])
  ].

(** List of fonts *)
Definition CHAR_SETS : list dict := [CHAR_SET1; CHAR_SET2; CHAR_SET3; CHAR_SET4].

(** [seq.index(x)]: the first position holding a value equal to [x]. *)
Fixpoint index {A} (eqb : A -> A -> bool) (l : list A) (x : A) : outcome Z :=
  match l with
  | [] => Raise ValueError
  | y :: l' =>
    if eqb y x then Ok 0
    else obind (index eqb l' x) (fun i => Ok (i + 1))
  end.

(** [seq[i]] for [0 <= i]. *)
Definition item_at {A} (l : list A) (i : Z) : option A :=
  if i <? 0 then None else nth_error l (Z.to_nat i).

End Glyphs.

(* ================================================================== *)
(** * Statements: state and exceptions *)
(* ================================================================== *)

Module Stmt.
Import Py.

(** A statement run on an object of type [S] returns or raises, and in both
    cases leaves the object as its assignments made it: what was done before
    an exception is not undone. *)
Definition M (S A : Type) : Type := S -> outcome A * S.

Definition ret {S A} (a : A) : M S A := fun s => (Ok a, s).

Definition raise {S A} (e : exn) : M S A := fun s => (Raise e, s).

Definition bind {S A B} (m : M S A) (k : A -> M S B) : M S B :=
  fun s =>
    match m s with
    | (Ok a, s') => k a s'
    | (Raise e, s') => (Raise e, s')
    end.

Definition get {S} : M S S := fun s => (Ok s, s).

Definition modify {S} (f : S -> S) : M S unit := fun s => (Ok tt, f s).

(** Lifts a pure computation that may raise. *)
Definition lift {S A} (o : outcome A) : M S A := fun s => (o, s).

(** Runs a statement of a component [T] of [S]. *)
Definition zoom {S T A} (proj : S -> T) (upd : T -> S -> S) (m : M T A) : M S A :=
  fun s => let '(o, t) := m (proj s) in (o, upd t s).

(** [try: m  except curses.error: pass] *)
Definition try_curses {S} (m : M S unit) : M S unit :=
  fun s =>
    match m s with
    | (Raise curses_error, s') => (Ok tt, s')
    | r => r
    end.

(** [for x in l: body(x)] *)
Fixpoint for_each {S A} (l : list A) (body : A -> M S unit) : M S unit :=
  match l with
  | [] => ret tt
  | x :: l' => bind (body x) (fun _ => for_each l' body)
  end.

(** The statement [m], [n] times in a row. *)
Fixpoint times {S} (n : nat) (m : M S unit) : M S unit :=
  match n with
  | O => ret tt
  | Datatypes.S n' => bind m (fun _ => times n' m)
  end.

(** Partial correctness with exceptions: from a state in [P], [m] returns
    [a] in a state of [Q a], or raises [e] in a state of [E e]. *)
Definition triple {S A} (P : S -> Prop) (m : M S A)
    (Q : A -> S -> Prop) (E : exn -> S -> Prop) : Prop :=
  forall s, P s ->
    match m s with
    | (Ok a, s') => Q a s'
    | (Raise e, s') => E e s'
    end.

End Stmt.

Declare Scope stmt_scope.
Delimit Scope stmt_scope with stmt.
Notation "x <- m ;; k" := (Stmt.bind m (fun x => k))
  (at level 61, m at next level, right associativity) : stmt_scope.
Notation "m ;; k" := (Stmt.bind m (fun _ => k))
  (at level 61, right associativity) : stmt_scope.

(* ================================================================== *)
(** * The terminal backend *)
(* ================================================================== *)

Module Curses.
Import Py Stmt.
Local Open Scope stmt_scope.

(** What reaches the screen: the calls that wrote or cleared cells. *)
Inductive op : Type :=
| Addch (y x : Z) (c : string) (attr : Z)
| Clrtoeol (y x : Z)
| Clrtobot (y x : Z)
| Refresh.

(** A window: its size, its cursor, and what was drawn, latest first.  A
    character takes one cell. *)
Record window : Type := Window {
  rows : Z;
  cols : Z;
  cury : Z;
  curx : Z;
  drawn : list op
}.

Definition wf (w : window) : Prop :=
  0 <= cury w < rows w /\ 0 <= curx w < cols w.

Definition set_cursor (y x : Z) (w : window) : window :=
  Window (rows w) (cols w) y x (drawn w).

Definition log (o : op) (w : window) : window :=
  Window (rows w) (cols w) (cury w) (curx w) (o :: drawn w).

Definition A_NORMAL : Z := 0.

(** [curses.color_pair(n)] *)
Definition color_pair (n : Z) : Z := Z.shiftl n 8.

Definition getyx : M window (Z * Z) := fun w => (Ok (cury w, curx w), w).

Definition getmaxyx : M window (Z * Z) := fun w => (Ok (rows w, cols w), w).

(** [move(y, x)] fails outside the window. *)
Definition move (y x : Z) : M window unit :=
  fun w =>
    if (0 <=? y) && (y <? rows w) && (0 <=? x) && (x <? cols w)
    then (Ok tt, set_cursor y x w)
    else (Raise curses_error, w).

(** [addch(c, attr)] writes at the cursor and advances it, wrapping to the
    next row at the right margin; in the last cell of the window the
    character is written, the cursor stays, and the call fails (the window
    does not scroll). *)
Definition addch (c : string) (attr : Z) : M window unit :=
  fun w =>
    let w' := log (Addch (cury w) (curx w) c attr) w in
    if curx w + 1 <? cols w then (Ok tt, set_cursor (cury w) (curx w + 1) w')
    else if cury w + 1 <? rows w then (Ok tt, set_cursor (cury w + 1) 0 w')
    else (Raise curses_error, w').

Definition clrtoeol : M window unit :=
  fun w => (Ok tt, log (Clrtoeol (cury w) (curx w)) w).

Definition clrtobot : M window unit :=
  fun w => (Ok tt, log (Clrtobot (cury w) (curx w)) w).

Definition refresh : M window unit :=
  fun w => (Ok tt, log Refresh w).

Definition chars (s : string) : list string :=
  map (fun c => String c "") (list_ascii_of_string s).

(** [addstr(y, x, s)]: moves, then writes up to the first failing cell. *)
Definition addstr (y x : Z) (s : string) : M window unit :=
  move y x ;; for_each (chars s) (fun c => addch c A_NORMAL).

(** Key codes of [get_wch]. *)
Definition KEY_F0 : Z := 264.
Definition KEY_F1 : Z := KEY_F0 + 1.
Definition KEY_F2 : Z := KEY_F0 + 2.
Definition KEY_RESIZE : Z := 410.
Definition ESC : Z := 27.
Definition EOT : Z := 4.

End Curses.

(* ================================================================== *)
(** * class IndicatorDisplay *)
(* ================================================================== *)

Module Display.
Import Py Stmt Re Glyphs.
Local Open Scope stmt_scope.

Definition COLOR_PAIR_GRN_ON_GRN : Z := 1.
Definition COLOR_PAIR_RED_ON_RED : Z := 2.
Definition COLOR_PAIR_GRN_ON_BLK : Z := 3.
Definition COLOR_PAIR_RED_ON_BLK : Z := 4.

Record IndicatorDisplay : Type := Self {
  stdscr : Curses.window;
  pair_positive : Z;
  pair_negative : Z;
  color_pair : Z;
  char_set : dict;
  base_char : string;
  number : value;
  unit : string
}.

Definition set_stdscr (w : Curses.window) (s : IndicatorDisplay) :=
  Self w (pair_positive s) (pair_negative s) (color_pair s) (char_set s)
       (base_char s) (number s) (unit s).
Definition set_pairs (p n : Z) (s : IndicatorDisplay) :=
  Self (stdscr s) p n (color_pair s) (char_set s) (base_char s) (number s)
       (unit s).
Definition set_color_pair (c : Z) (s : IndicatorDisplay) :=
  Self (stdscr s) (pair_positive s) (pair_negative s) c (char_set s)
       (base_char s) (number s) (unit s).
Definition set_char_set (d : dict) (s : IndicatorDisplay) :=
  Self (stdscr s) (pair_positive s) (pair_negative s) (color_pair s) d
       (base_char s) (number s) (unit s).
Definition set_base_char (b : string) (s : IndicatorDisplay) :=
  Self (stdscr s) (pair_positive s) (pair_negative s) (color_pair s)
       (char_set s) b (number s) (unit s).
Definition set_reading (v : value) (u : string) (s : IndicatorDisplay) :=
  Self (stdscr s) (pair_positive s) (pair_negative s) (color_pair s)
       (char_set s) (base_char s) v u.

(** A call on [self.stdscr]. *)
Definition scr {A} (m : M Curses.window A) : M IndicatorDisplay A :=
  zoom stdscr set_stdscr m.

(** The object that [__init__] leaves, on the screen that
    [curses.initscr()] returns, when its calls succeed; that they can raise
    is modelled where the object is built, in [Reader.select_loop]. *)
Definition init (w : Curses.window) : IndicatorDisplay :=
  {| stdscr := w;
     pair_positive := COLOR_PAIR_GRN_ON_BLK;
     pair_negative := COLOR_PAIR_RED_ON_BLK;
     color_pair := COLOR_PAIR_GRN_ON_BLK;
     char_set := nth 0 CHAR_SETS [];
     base_char := nth 4 BASE_CHARACTERS "";
     number := PyInt 0;
     unit := "mm" |}.

Definition _foot_note : M IndicatorDisplay Datatypes.unit :=
  rc <- scr Curses.getmaxyx ;;
  let rows := fst rc in
  try_curses (
    scr (Curses.addstr (rows - 2) 0 "<ESC> or <EOT> to exit") ;;
    scr (Curses.addstr (rows - 1) 0 "F1 - Change font, F2 - Change style") ;;
    scr Curses.clrtobot).

(** The body of [for d in line] in [_display_char]. *)
Definition draw_cell (d : ascii) : M IndicatorDisplay Datatypes.unit :=
  self <- get ;;
  (if negb (Ascii.eqb d " ")
   then scr (Curses.addch (base_char self) (Curses.color_pair (color_pair self)))
   else scr (Curses.addch (String d "") Curses.A_NORMAL)) ;;
  scr Curses.clrtoeol.

(** The loop [for line in display] of [_display_char], from row [row]. *)
Fixpoint draw_rows (display : glyph) (row start_col : Z) : M IndicatorDisplay Datatypes.unit :=
  match display with
  | [] => ret tt
  | line :: display' =>
    try_curses (
      scr (Curses.move row start_col) ;;
      for_each (list_ascii_of_string line) draw_cell) ;;
    draw_rows display' (row + 1) start_col
  end.

Definition _display_char (c : ascii) : M IndicatorDisplay Datatypes.unit :=
  yx <- scr Curses.getyx ;;
  let row := fst yx in
  let start_col := snd yx in
  let start_row := row in
  self <- get ;;
  fallback <- lift (getitem (char_set self) "?") ;;
  let display :=
    match lookup (char_set self) c with
    | Some g => g
    | None => fallback
    end in
  draw_rows display row start_col ;;
  (* Move cursor to starting row and new column *)
  yx' <- scr Curses.getyx ;;
  let end_col := snd yx' in
  scr (Curses.move start_row end_col).

(** [f'{sign}{abs(n):0.{d}f} {self.unit}'] with [d] and [sign] as
    [update_page] computes them. *)
Definition decimals (u : string) : nat := if String.eqb u "mm" then 2%nat else 4%nat.

Definition sign_of (neg : bool) : string := if neg then "-" else " ".

Definition num_str (n : value) (u : string) : outcome string :=
  obind (lt_zero n) (fun neg =>
  obind (abs n) (fun a =>
  obind (format_f (decimals u) a) (fun digits =>
  Ok (sign_of neg ++ digits ++ " " ++ u)))).

Definition update_page : M IndicatorDisplay Datatypes.unit :=
  self <- get ;;
  (* Convert number to string *)
  let d := decimals (unit self) in
  let n := number self in
  neg <- lift (lt_zero n) ;;
  let sign := sign_of neg in
  modify (set_color_pair
            (if String.eqb sign "-" then pair_negative self
             else pair_positive self)) ;;
  a <- lift (abs n) ;;
  digits <- lift (format_f d a) ;;
  let num_str := sign ++ digits ++ " " ++ unit self in
  (* Display the string character by character *)
  scr (Curses.move 0 0) ;;
  for_each (list_ascii_of_string num_str) _display_char ;;
  (* Clear the space under the number displayed (in case resized) *)
  try_curses (
    self <- get ;;
    zero <- lift (getitem (char_set self) "0") ;;
    scr (Curses.move (Z.of_nat (List.length zero)) 0) ;;
    scr Curses.clrtobot) ;;
  _foot_note ;;
  scr Curses.refresh.

(** Parse number, store in object and refresh the page *)
Definition display_number (line : string) : M IndicatorDisplay Datatypes.unit :=
  match re_match INDICATOR_RE line with
  | None =>
    modify (set_reading (PyStr "9.999") "xx")
  | Some m =>
    f <- lift (float_of_str (group m "number")) ;;
    modify (set_reading (PyFloat f)
              (if String.eqb (group m "unit") "mm" then "mm" else "in"))
  end ;;
  update_page.

(** Change font *)
Definition handle_f1 : M IndicatorDisplay Datatypes.unit :=
  self <- get ;;
  i <- lift (index dict_eqb CHAR_SETS (char_set self)) ;;
  let i := (i + 1) mod Z.of_nat (List.length CHAR_SETS) in
  modify (set_char_set (nth (Z.to_nat i) CHAR_SETS [])) ;;
  update_page.

(** Change font style *)
Definition handle_f2 : M IndicatorDisplay Datatypes.unit :=
  self <- get ;;
  i <- lift (index String.eqb BASE_CHARACTERS (base_char self)) ;;
  let i := (i + 1) mod Z.of_nat (List.length BASE_CHARACTERS) in
  modify (set_base_char (nth (Z.to_nat i) BASE_CHARACTERS "")) ;;
  self <- get ;;
  (if String.eqb (base_char self) " "
   then modify (set_pairs COLOR_PAIR_GRN_ON_GRN COLOR_PAIR_RED_ON_RED)
   else modify (set_pairs COLOR_PAIR_GRN_ON_BLK COLOR_PAIR_RED_ON_BLK)) ;;
  update_page.

(** What [stdscr.get_wch()] answers: a character, a key code, or
    [curses.error] when nothing is pending. *)
Inductive wch : Type :=
| NoInput
| WChar (c : ascii)
| WKey (k : Z).

(** Called when the select loop determines there is something to read;
    answers [True] when the loop should end. *)
Definition get_input (w : wch) : M IndicatorDisplay bool :=
  match w with
  | NoInput => ret false
  | WKey 0 => ret false
  | WChar c =>
    if (code c <? 32) && ((code c =? Curses.ESC) || (code c =? Curses.EOT))
    then ret true
    else ret false
  | WKey k =>
    (if k =? Curses.KEY_RESIZE then update_page
     else if k =? Curses.KEY_F1 then handle_f1
     else if k =? Curses.KEY_F2 then handle_f2
     else ret tt) ;;
    ret false
  end.

End Display.

(* ================================================================== *)
(** * class IndicatorReader, GetPort and main *)
(* ================================================================== *)

Module Reader.
Import Py Stmt Display.
Local Open Scope stmt_scope.

(** ** The loop of [select_loop] *)

(** What one return of [select.select] brings: the serial descriptor is
    readable and [monitor.read_until()] gives [chars] or fails, or it is not
    and the display polls [get_wch]. *)
Inductive event : Type :=
| SerialReady (chars : list ascii)
| SerialFails (msg : string)
| InputReady (w : wch).

(** The variables of the loop; [calls] records the arguments of the calls of
    [id.display_number], latest last. *)
Record loop : Type := Loop {
  line : string;
  id : IndicatorDisplay;
  calls : list string
}.

Definition set_line (l : string) (s : loop) := Loop l (id s) (calls s).
Definition set_id (d : IndicatorDisplay) (s : loop) := Loop (line s) d (calls s).
Definition called (l : string) (s : loop) := Loop (line s) (id s) (calls s ++ [l])%list.

Definition on_id {A} (m : M IndicatorDisplay A) : M loop A := zoom id set_id m.

(** One turn of [while True]; answers [true] on [break]. *)
Definition turn (e : event) : M loop bool :=
  match e with
  | SerialReady chars =>
    match chars with
    | [] => ret tt
    | _ =>
      text <- lift (decode_utf8 chars) ;;
      modify (fun s => set_line (line s ++ text) s)
    end ;;
    s <- get ;;
    if endswith (line s) (String (ascii_of_nat 10) "")
    then
      modify (called (line s)) ;;
      on_id (display_number (line s)) ;;
      modify (set_line "") ;;
      ret false
    else ret false
  | SerialFails msg => raise (IOError msg)
  | InputReady w => on_id (get_input w)
  end.

(** The loop over the events that arrive; answers [true] when it was left by
    [break], [false] when it waits in [select] after the last of them. *)
Fixpoint turns (es : list event) : M loop bool :=
  match es with
  | [] => ret false
  | e :: es' =>
    stop <- turn e ;;
    if stop then ret true else turns es'
  end.

(** ** The process *)

Inductive effect : Type :=
| Print (s : string)
| OpenSerial (port : string) (baudrate : Z)
| CloseSerial
| InitScr
| EndWin.

(** The process records its effects, latest last. *)
Definition process : Type := list effect.

(** What became of a call when the events of the environment are used up:
    it returned, or it waits in [select.select] for an event to come. *)
Inductive ending : Type :=
| Returns
| Waits.

Definition emit (e : effect) : M process Datatypes.unit :=
  modify (fun p => p ++ [e])%list.

Definition newline : string := String (ascii_of_nat 10) "".

(** [print(a)] *)
Definition print (s : string) : M process Datatypes.unit :=
  emit (Print (s ++ newline)).

Definition port_info : Type := (string * string * string)%type.

(** What the process finds around it. *)
Record env : Type := Env {
  comports : list port_info;              (* list_ports.comports() *)
  serial_Serial : string -> Z -> outcome string;
                                          (* serial.Serial(port, baudrate):
                                             the repr of the open port *)
  initscr : Curses.window;                (* curses.initscr() *)
  setup : outcome Datatypes.unit;         (* the calls of __init__ that follow
                                             initscr(): keypad, timeout,
                                             noecho, start_color, curs_set,
                                             init_color, init_pair; they
                                             raise curses.error on a terminal
                                             that cannot do what they ask *)
  arrivals : list event
}.

(** Find available serial ports *)
Definition GetPort (E : env) (list_only : bool) : M process string :=
  let port_list := comports E in
  match port_list with
  | [] => print "No ports found" ;; raise (SystemExit 0)
  | first :: _ =>
    (* If list_only or more than one port available, print and exit. *)
    if list_only || (1 <? List.length port_list)%nat
    then
      for_each port_list (fun p =>
        let '(port, desc, hwid) := p in
        print ("port=" ++ port ++ ", desc=" ++ desc ++ ", hwid=" ++ hwid)) ;;
      raise (SystemExit 0)
    else
      (* Only one port available *)
      ret (fst (fst first))
  end.

(** [except IOError as error] of [select_loop]. *)
Definition on_IOError {A} (m : M process A) : M process A :=
  fun p =>
    match m p with
    | (Raise (IOError msg), p') =>
      (print ("Problem opening monitor:  " ++ msg) ;;
       raise (SystemExit (-1))) p'
    | r => r
    end.

(** The [with] statement builds the port, then the display.  When
    [__init__] raises, the display was not entered: the port is closed, the
    screen is left as [initscr()] set it, and the exception goes on.  Inside the
    block, leaving it by [break] or by an exception runs [__exit__], which
    calls [curses.endwin()], and then closes the port; while the loop waits
    for an event none of this has happened. *)
Definition select_loop (E : env) (port : string) (baudrate : Z)
  : M process ending :=
  on_IOError (
    (* Open serial port in non-blocking mode *)
    emit (OpenSerial port baudrate) ;;
    monitor <- lift (serial_Serial E port baudrate) ;;
    emit InitScr ;;
    match setup E with
    | Raise e => emit CloseSerial ;; raise e
    | Ok _ =>
      let display := init (initscr E) in
      emit (Print "Connected to: ") ;;
      print monitor ;;
      let '(o, _) := turns (arrivals E) (Loop "" display []) in
      match o with
      | Ok false => ret Waits
      | Ok true =>
        (* leaving the [with] block *)
        emit EndWin ;; emit CloseSerial ;; ret Returns
      | Raise e =>
        emit EndWin ;; emit CloseSerial ;; raise e
      end
    end).

Record arguments : Type := Args {
  list_ports : bool;
  port : option string;
  baudrate : Z
}.

Definition main (E : env) (args : arguments) : M process ending :=
  p <- match port args with
       | Some p =>
         if list_ports args || String.eqb p ""
         then GetPort E (list_ports args)
         else ret p
       | None => GetPort E (list_ports args)
       end ;;
  select_loop E p (baudrate args).

(** The exit status of the interpreter; a process that waits has none. *)
Definition exit_status (o : outcome ending) : option Z :=
  match o with
  | Ok Returns => Some 0
  | Ok Waits => None
  | Raise (SystemExit c) => Some (c mod 256)
  | Raise _ => Some 1
  end.

End Reader.

(* ================================================================== *)
(** * Properties *)
(* ================================================================== *)

Import Py Stmt Re Glyphs Display.
Local Open Scope stmt_scope.

(** ** The vocabulary of the statements *)

Definition LF : string := String (ascii_of_nat 10) "".

(** All rows of the glyph [g] are [w] columns wide. *)
Definition width_is (w : nat) (g : glyph) : Prop :=
  Forall (fun row => String.length row = w) g.

Definition rectangular (g : glyph) : Prop := exists w, width_is w g.

(** The characters that a reading is written with. *)
Definition required : list ascii :=
  list_ascii_of_string "0123456789-.?".

(** The glyphs that [_display_char] and [update_page] index without a
    default. *)
Definition has_glyphs (cs : dict) : Prop :=
  lookup cs "?" <> None /\ lookup cs "0" <> None.

(** The readings that the object stores without the parser failing: the
    initial [0] and the floats. *)
Definition is_reading (v : value) : Prop :=
  match v with
  | PyInt z => z = 0
  | PyFloat _ => True
  | PyStr _ => False
  end.

Definition is_finite (f : float) : Prop :=
  match f with
  | S754_zero _ | S754_finite _ _ _ => True
  | _ => False
  end.

(** The fields of the display other than the screen. *)
Definition fields (s : IndicatorDisplay) :=
  (pair_positive s, pair_negative s, color_pair s, char_set s, base_char s,
   number s, unit s).

(** The colour mode goes with the fill symbol: same-on-same exactly for the
    blank. *)
Definition color_mode_ok (s : IndicatorDisplay) : Prop :=
  if String.eqb (base_char s) " "
  then pair_positive s = COLOR_PAIR_GRN_ON_GRN
       /\ pair_negative s = COLOR_PAIR_RED_ON_RED
  else pair_positive s = COLOR_PAIR_GRN_ON_BLK
       /\ pair_negative s = COLOR_PAIR_RED_ON_BLK.

(** A window of [r] rows and [c] columns with its cursor inside. *)
Definition sized (r c : Z) (w : Curses.window) : Prop :=
  Curses.wf w /\ Curses.rows w = r /\ Curses.cols w = c.

(** A text of the form [digits.digits] with [d] decimals. *)
Definition fixed_point (d : nat) (s : string) : Prop :=
  exists ip fp,
    s = ip ++ "." ++ fp
    /\ ip <> "" /\ all_chars is_digit ip = true
    /\ String.length fp = d /\ all_chars is_digit fp = true.

(** ** Rules for statements *)

Section Triples.
Context {S : Type}.
Implicit Types (P : S -> Prop) (E : exn -> S -> Prop).

Lemma triple_ret {A} P (Q : A -> S -> Prop) E a :
  (forall s, P s -> Q a s) -> triple P (ret a) Q E.
Proof. intros H s Hs. simpl. auto. Qed.

Lemma triple_raise {A} P (Q : A -> S -> Prop) E e :
  (forall s, P s -> E e s) -> triple P (raise e) Q E.
Proof. intros H s Hs. simpl. auto. Qed.

Lemma triple_bind {A B} P (Q' : A -> S -> Prop) (Q : B -> S -> Prop) E
    (m : M S A) (k : A -> M S B) :
  triple P m Q' E -> (forall a, triple (Q' a) (k a) Q E) ->
  triple P (bind m k) Q E.
Proof.
  intros Hm Hk s Hs. unfold bind. specialize (Hm s Hs).
  destruct (m s) as [[a|e] s']; auto. apply Hk; auto.
Qed.

Lemma triple_get P E : triple P get (fun a s => P s /\ a = s) E.
Proof. intros s Hs. simpl. auto. Qed.

Lemma triple_modify P (Q : Datatypes.unit -> S -> Prop) E f :
  (forall s, P s -> Q tt (f s)) -> triple P (modify f) Q E.
Proof. intros H s Hs. simpl. auto. Qed.

Lemma triple_lift {A} P (Q : A -> S -> Prop) E (o : outcome A) :
  (forall s, P s -> match o with Ok a => Q a s | Raise e => E e s end) ->
  triple P (lift o) Q E.
Proof. intros H s Hs. unfold lift. specialize (H s Hs). destruct o; auto. Qed.

Lemma triple_conseq {A} P P' (Q Q' : A -> S -> Prop) E E' m :
  triple P' m Q' E' ->
  (forall s, P s -> P' s) ->
  (forall a s, Q' a s -> Q a s) ->
  (forall e s, E' e s -> E e s) ->
  triple P m Q E.
Proof.
  intros Hm HP HQ HE s Hs. specialize (Hm s (HP s Hs)).
  destruct (m s) as [[a|e] s']; auto.
Qed.

Lemma triple_pure {A} P (phi : Prop) (Q : A -> S -> Prop) E m :
  (phi -> triple P m Q E) -> triple (fun s => P s /\ phi) m Q E.
Proof. intros H s [Hs Hphi]. apply H; auto. Qed.

Lemma triple_try P (Q : Datatypes.unit -> S -> Prop) E m :
  triple P m Q
    (fun e s => match e with curses_error => Q tt s | _ => E e s end) ->
  triple P (try_curses m) Q E.
Proof.
  intros Hm s Hs. unfold try_curses. specialize (Hm s Hs).
  destruct (m s) as [[[]|e] s']; auto. destruct e; auto.
Qed.

Lemma triple_for_each {A} (I : S -> Prop) E (l : list A) body :
  (forall x, In x l -> triple I (body x) (fun _ => I) E) ->
  triple I (for_each l body) (fun _ => I) E.
Proof.
  induction l as [|x l IH]; intros H.
  - apply triple_ret; auto.
  - simpl. eapply triple_bind.
    + apply H. left; reflexivity.
    + intros ?. apply IH. intros y Hy. apply H. right; exact Hy.
Qed.

Lemma triple_times (I : S -> Prop) E n m :
  triple I m (fun _ => I) E -> triple I (times n m) (fun _ => I) E.
Proof.
  intros H. induction n as [|n IH]; simpl.
  - apply triple_ret; auto.
  - eapply triple_bind; [exact H | intros ?; exact IH].
Qed.

End Triples.

(** ** The terminal backend keeps the cursor inside the window *)

(** Inside a [try], [curses.error] is absorbed: it only has to leave the
    invariant standing. *)
Definition guarded {S} (I : S -> Prop) (E : exn -> S -> Prop)
  : exn -> S -> Prop :=
  fun e s => match e with curses_error => I s | _ => E e s end.

Section Backend.
Variables r c : Z.
Implicit Types (w : Curses.window) (E : exn -> Curses.window -> Prop).

Lemma move_spec y x E :
  triple (sized r c) (Curses.move y x) (fun _ => sized r c)
         (guarded (sized r c) E).
Proof.
  intros w (Hwf & Hr & Hc). unfold Curses.move.
  destruct ((0 <=? y) && (y <? Curses.rows w) && (0 <=? x)
            && (x <? Curses.cols w)) eqn:Hin; simpl.
  - repeat rewrite andb_true_iff in Hin.
    destruct Hin as [[[H1 H2] H3] H4].
    unfold sized, Curses.wf; simpl. lia.
  - unfold sized; auto.
Qed.

Lemma move_inside y x w :
  sized r c w -> 0 <= y < r -> 0 <= x < c ->
  Curses.move y x w = (Ok tt, Curses.set_cursor y x w).
Proof.
  intros (Hwf & Hr & Hc) Hy Hx. unfold Curses.move.
  replace ((0 <=? y) && (y <? Curses.rows w) && (0 <=? x)
           && (x <? Curses.cols w)) with true; [reflexivity|].
  symmetry. repeat rewrite andb_true_iff. lia.
Qed.

Lemma addch_spec ch attr E :
  triple (sized r c) (Curses.addch ch attr) (fun _ => sized r c)
         (guarded (sized r c) E).
Proof.
  intros w (Hwf & Hr & Hc). unfold Curses.addch.
  destruct Hwf as [Hy Hx].
  destruct (Curses.curx w + 1 <? Curses.cols w) eqn:H1;
    [|destruct (Curses.cury w + 1 <? Curses.rows w) eqn:H2];
    unfold sized, Curses.wf; simpl; lia.
Qed.

Lemma clrtoeol_spec E :
  triple (sized r c) Curses.clrtoeol (fun _ => sized r c) E.
Proof. intros w H. exact H. Qed.

Lemma clrtobot_spec E :
  triple (sized r c) Curses.clrtobot (fun _ => sized r c) E.
Proof. intros w H. exact H. Qed.

Lemma refresh_spec E :
  triple (sized r c) Curses.refresh (fun _ => sized r c) E.
Proof. intros w H. exact H. Qed.

Lemma addstr_spec y x s E :
  triple (sized r c) (Curses.addstr y x s) (fun _ => sized r c)
         (guarded (sized r c) E).
Proof.
  unfold Curses.addstr. eapply triple_bind.
  - apply move_spec.
  - intros ?. apply triple_for_each. intros ch _. apply addch_spec.
Qed.

Lemma getyx_spec E :
  triple (sized r c) Curses.getyx
         (fun yx w => sized r c w /\ yx = (Curses.cury w, Curses.curx w)) E.
Proof. intros w H. simpl. auto. Qed.

End Backend.

(** ** The display keeps its fields while it draws *)

Lemma fields_set_stdscr w s : fields (set_stdscr w s) = fields s.
Proof. reflexivity. Qed.

Section Drawing.
Variables (r c : Z) (s0 : IndicatorDisplay).

(** The screen has its size and the other fields are those of [s0]. *)
Definition inv (s : IndicatorDisplay) : Prop :=
  sized r c (stdscr s) /\ fields s = fields s0.

Implicit Types (E : exn -> IndicatorDisplay -> Prop).

Lemma scr_spec {A} (m : M Curses.window A) (Q : A -> Curses.window -> Prop)
    (Ew : exn -> Curses.window -> Prop) :
  triple (sized r c) m Q Ew ->
  triple inv (scr m)
         (fun a s => Q a (stdscr s) /\ fields s = fields s0)
         (fun e s => Ew e (stdscr s) /\ fields s = fields s0).
Proof.
  intros Hm s [Hs Hf]. unfold scr, zoom. specialize (Hm _ Hs).
  destruct (m (stdscr s)) as [[a|e] w]; simpl; auto.
Qed.

(** A screen call that can only fail with [curses.error]. *)
Lemma scr_guarded (m : M Curses.window Datatypes.unit) E :
  (forall Ew, triple (sized r c) m (fun _ => sized r c)
                     (guarded (sized r c) Ew)) ->
  triple inv (scr m) (fun _ => inv) (guarded inv E).
Proof.
  intros Hm. eapply triple_conseq.
  - apply scr_spec. apply (Hm (fun _ _ => False)).
  - auto.
  - intros a s H. exact H.
  - intros e s [H Hf]. destruct e; simpl in *; try contradiction.
    split; assumption.
Qed.

(** A screen call that cannot fail. *)
Lemma scr_total (m : M Curses.window Datatypes.unit) E :
  (forall Ew, triple (sized r c) m (fun _ => sized r c) Ew) ->
  triple inv (scr m) (fun _ => inv) E.
Proof.
  intros Hm. eapply triple_conseq.
  - apply scr_spec. apply (Hm (fun _ _ => False)).
  - auto.
  - intros a s H. exact H.
  - intros e s [H _]. contradiction.
Qed.

Lemma draw_cell_spec d E :
  triple inv (draw_cell d) (fun _ => inv) (guarded inv E).
Proof.
  unfold draw_cell. eapply triple_bind; [apply triple_get|].
  intros self. simpl.
  eapply triple_bind with (Q' := fun _ => inv).
  - eapply triple_conseq with (P' := inv) (Q' := fun _ => inv)
                              (E' := guarded inv E);
      [ | intros s [H _]; exact H | intros a s H; exact H
        | intros e s H; exact H ].
    destruct (negb (Ascii.eqb d " "));
      apply scr_guarded; intros Ew; apply addch_spec.
  - intros ?. apply scr_total. intros Ew. apply clrtoeol_spec.
Qed.

Lemma draw_rows_spec g E : forall row col,
  triple inv (draw_rows g row col) (fun _ => inv) E.
Proof.
  induction g as [|line g IH]; intros row col; simpl.
  - apply triple_ret; auto.
  - eapply triple_bind; [|intros ?; apply IH].
    apply triple_try. eapply triple_bind.
    + apply (scr_guarded (Curses.move row col) E).
      intros Ew. apply move_spec.
    + intros ?. apply triple_for_each. intros d _.
      apply draw_cell_spec.
Qed.

(** [_display_char] fails only for want of the fallback glyph. *)
Definition no_fallback : exn -> IndicatorDisplay -> Prop :=
  fun e s => e = KeyError /\ lookup (char_set s0) "?" = None /\ inv s.

Lemma scr_getyx_spec E :
  triple inv (scr Curses.getyx)
         (fun yx s => inv s /\ 0 <= fst yx < r /\ 0 <= snd yx < c) E.
Proof.
  eapply triple_conseq.
  - apply scr_spec. apply (getyx_spec r c (fun _ _ => False)).
  - auto.
  - intros yx s [[Hs Hyx] Hf]. subst yx. simpl.
    destruct Hs as ([Hy Hx] & Hr & Hc).
    repeat split; auto; try lia; unfold sized, Curses.wf; lia.
  - intros e s [H _]. contradiction.
Qed.

Lemma scr_move_inside y x E :
  0 <= y < r -> 0 <= x < c ->
  triple inv (scr (Curses.move y x)) (fun _ => inv) E.
Proof.
  intros Hy Hx s [Hs Hf]. unfold scr, zoom.
  rewrite (move_inside r c y x _ Hs Hy Hx). split; simpl; auto.
  destruct Hs as (Hwf & Hr & Hc).
  unfold sized, Curses.wf; simpl. lia.
Qed.

Lemma _display_char_spec ch :
  triple inv (_display_char ch) (fun _ => inv) no_fallback.
Proof.
  unfold _display_char.
  eapply triple_bind; [apply scr_getyx_spec|].
  intros yx. simpl. apply triple_pure. intros [Hrow Hcol].
  eapply triple_bind; [apply triple_get|].
  intros self. simpl.
  eapply triple_bind with
    (Q' := fun _ s => inv s /\ char_set self = char_set s0).
  - intros s [Hs Hself]. subst self. unfold lift, getitem.
    assert (Hcs : char_set s = char_set s0).
    { destruct Hs as [_ Hf]. unfold fields in Hf. congruence. }
    rewrite Hcs.
    destruct (lookup (char_set s0) "?") eqn:Hq; simpl.
    + auto.
    + unfold no_fallback. auto.
  - intros fallback. apply triple_pure. intros Hcs.
    eapply triple_bind; [apply draw_rows_spec|].
    intros ?. eapply triple_bind; [apply scr_getyx_spec|].
    intros yx'. simpl. apply triple_pure. intros [_ Hend].
    apply scr_move_inside; assumption.
Qed.

Lemma _foot_note_spec E : triple inv _foot_note (fun _ => inv) E.
Proof.
  unfold _foot_note. eapply triple_bind with (Q' := fun _ => inv).
  - intros s [Hs Hf]. unfold scr, zoom. simpl. split; auto.
  - intros rc. simpl. apply triple_try.
    eapply triple_bind;
      [apply (scr_guarded (Curses.addstr _ _ _) E); intros Ew;
       apply addstr_spec|].
    intros ?. eapply triple_bind;
      [apply (scr_guarded (Curses.addstr _ _ _) E); intros Ew;
       apply addstr_spec|].
    intros ?. apply scr_total. intros Ew. apply clrtobot_spec.
Qed.

End Drawing.

(** ** [update_page] *)

Lemma triple_run {S A} (P : S -> Prop) (m : M S A) Q E s :
  triple P m Q E -> P s ->
  match m s with
  | (Ok a, s') => Q a s'
  | (Raise e, s') => E e s'
  end.
Proof. intros H Hs. apply H. exact Hs. Qed.

(** What [update_page] does once the text is formatted. *)
Definition paint (num_str : string) : M IndicatorDisplay Datatypes.unit :=
  scr (Curses.move 0 0) ;;
  for_each (list_ascii_of_string num_str) _display_char ;;
  try_curses (
    self <- get ;;
    zero <- lift (getitem (char_set self) "0") ;;
    scr (Curses.move (Z.of_nat (List.length zero)) 0) ;;
    scr Curses.clrtobot) ;;
  _foot_note ;;
  scr Curses.refresh.

(** The colour pair that the sign selects. *)
Definition pair_for (neg : bool) (s : IndicatorDisplay) : Z :=
  if neg then pair_negative s else pair_positive s.

Lemma update_page_eq s0 :
  update_page s0 =
  match lt_zero (number s0) with
  | Raise e => (Raise e, s0)
  | Ok neg =>
    let s1 := set_color_pair (pair_for neg s0) s0 in
    match abs (number s0) with
    | Raise e => (Raise e, s1)
    | Ok a =>
      match format_f (decimals (unit s0)) a with
      | Raise e => (Raise e, s1)
      | Ok digits => paint (sign_of neg ++ digits ++ " " ++ unit s0) s1
      end
    end
  end.
Proof.
  unfold update_page. unfold bind at 1. unfold get at 1.
  unfold bind at 1. unfold lift at 1.
  destruct (lt_zero (number s0)) as [neg|e]; [|reflexivity].
  unfold bind at 1. unfold modify at 1.
  replace (if String.eqb (sign_of neg) "-" then pair_negative s0
           else pair_positive s0) with (pair_for neg s0)
    by (destruct neg; reflexivity).
  unfold bind at 1. unfold lift at 1.
  destruct (abs (number s0)) as [a|e]; [|reflexivity].
  unfold bind at 1. unfold lift at 1. simpl unit. simpl.
  destruct (format_f (decimals (unit s0)) a) as [digits|e]; reflexivity.
Qed.

Section Painting.
Variables (r c : Z) (s1 : IndicatorDisplay).
Hypotheses (Hr : 0 < r) (Hc : 0 < c).

(** [paint] fails only for want of a glyph that it indexes. *)
Definition no_glyph : exn -> IndicatorDisplay -> Prop :=
  fun e s => e = KeyError /\ ~ has_glyphs (char_set s1) /\ inv r c s1 s.

Lemma paint_spec str :
  triple (inv r c s1) (paint str) (fun _ => inv r c s1) no_glyph.
Proof.
  unfold paint.
  eapply triple_bind; [apply scr_move_inside; lia|]. intros ?; cbv beta.
  eapply triple_bind with (Q' := fun _ => inv r c s1).
  { apply triple_for_each. intros ch _.
    eapply triple_conseq;
      [ apply _display_char_spec | intros ? H; exact H
      | intros ? ? H; exact H | ].
    intros e s (He & Hq & Hs). unfold no_glyph, has_glyphs.
    split; [exact He | split; [|exact Hs]].
    intros [H _]. apply H. exact Hq. }
  intros ?; cbv beta.
  eapply triple_bind with (Q' := fun _ => inv r c s1).
  { apply triple_try.
    eapply triple_bind; [apply triple_get|]. intros self. simpl.
    eapply triple_bind with
      (Q' := fun _ => inv r c s1).
    - intros s [Hs Hself]. subst self. unfold lift, getitem.
      assert (Hcs : char_set s = char_set s1).
      { destruct Hs as [_ Hf]. unfold fields in Hf. congruence. }
      rewrite Hcs.
      destruct (lookup (char_set s1) "0") eqn:Hz; simpl; auto.
      unfold no_glyph, has_glyphs.
      split; [reflexivity | split; [|exact Hs]].
      intros [_ H]. apply H. exact Hz.
    - intros zero; cbv beta. eapply triple_bind.
      + apply (scr_guarded r c s1 (Curses.move _ _) no_glyph).
        intros Ew. apply move_spec.
      + intros ?; cbv beta. eapply triple_conseq;
          [ apply (scr_total r c s1 Curses.clrtobot
                     (guarded (inv r c s1) no_glyph));
            intros Ew; apply clrtobot_spec
          | intros ? H; exact H | intros ? ? H; exact H
          | intros ? ? H; exact H ]. }
  intros ?; cbv beta.
  eapply triple_bind; [apply _foot_note_spec|]. intros ?; cbv beta.
  apply scr_total. intros Ew. apply refresh_spec.
Qed.

End Painting.

(** The fields that no method but the parser and the cyclers assigns. *)
Definition frame (s0 s : IndicatorDisplay) : Prop :=
  pair_positive s = pair_positive s0 /\ pair_negative s = pair_negative s0
  /\ char_set s = char_set s0 /\ base_char s = base_char s0
  /\ number s = number s0 /\ unit s = unit s0.

Lemma inv_frame r c neg s0 s :
  inv r c (set_color_pair (pair_for neg s0) s0) s ->
  frame s0 s /\ color_pair s = pair_for neg s0 /\ sized r c (stdscr s).
Proof.
  intros [Hs Hf]. unfold fields in Hf. simpl in Hf.
  inversion Hf. unfold frame. auto 10.
Qed.

Lemma sized_pos r c w : sized r c w -> 0 < r /\ 0 < c.
Proof. intros ([Hy Hx] & Hr & Hc). lia. Qed.

(** [update_page] on a screen of any size: when it returns, the colour pair
    is the one the sign selects and nothing else changed but the screen;
    when it raises, the exception is not [curses.error], and the reading
    could not be formatted or a glyph is missing. *)
Ltac run_paint r c Hr Hc Hs :=
  match goal with
  | |- context [paint ?str ?s1] =>
    let Hp := fresh "Hp" in
    assert (Hp := triple_run (inv r c s1) _ _ _ s1
                    (paint_spec r c s1 Hr Hc str)
                    (conj (Hs : sized r c (stdscr s1)) eq_refl));
    destruct (paint str s1) as [[[]|?e] ?s]
  end.

Lemma update_page_spec r c s0 :
  sized r c (stdscr s0) ->
  match update_page s0 with
  | (Ok _, s) =>
    exists neg, lt_zero (number s0) = Ok neg
      /\ frame s0 s /\ color_pair s = pair_for neg s0
      /\ sized r c (stdscr s)
  | (Raise e, s) =>
    e <> curses_error /\ frame s0 s /\ sized r c (stdscr s)
    /\ ~ (is_reading (number s0) /\ has_glyphs (char_set s0))
  end.
Proof.
  intros Hs. rewrite update_page_eq.
  destruct (sized_pos _ _ _ Hs) as [Hr Hc].
  assert (Hframe0 : frame s0 s0) by (unfold frame; auto 10).
  destruct (number s0) as [z|f|x] eqn:Hn; simpl lt_zero; simpl abs; cbv zeta.
  - (* int *)
    unfold format_f. destruct (float_of_int (Z.abs z)) as [f|e] eqn:Hf;
      simpl obind.
    + cbv beta iota. run_paint r c Hr Hc Hs.
      * exists (z <? 0). split; [reflexivity|]. apply inv_frame. exact Hp.
      * destruct Hp as (He & Hg & Hi). apply inv_frame in Hi.
        destruct Hi as (Hfr & _ & Hsz).
        split; [subst; discriminate|]. split; [exact Hfr|].
        split; [exact Hsz|]. intros [_ Hg']. apply Hg. exact Hg'.
    + split; [|split; [exact Hframe0|split; [exact Hs|]]].
      * unfold float_of_int in Hf.
        destruct (binary_normalize prec emax (Z.abs z) 0 false);
          inversion Hf; discriminate.
      * intros [Hz _]. simpl in Hz. subst z. vm_compute in Hf. discriminate.
  - (* float *)
    unfold format_f.
    cbv beta iota. run_paint r c Hr Hc Hs.
    + exists (SFltb f fzero). split; [reflexivity|]. apply inv_frame.
      exact Hp.
    + destruct Hp as (He & Hg & Hi). apply inv_frame in Hi.
      destruct Hi as (Hfr & _ & Hsz).
      split; [subst; discriminate|]. split; [exact Hfr|].
      split; [exact Hsz|]. intros [_ Hg']. apply Hg. exact Hg'.
  - (* str *)
    split; [discriminate|]. split; [exact Hframe0|]. split; [exact Hs|].
    intros [H _]. exact H.
Qed.

(** With a reading and the glyphs at hand [update_page] returns. *)
Lemma update_page_returns r c s0 :
  sized r c (stdscr s0) -> is_reading (number s0) ->
  has_glyphs (char_set s0) ->
  exists neg s,
    update_page s0 = (Ok tt, s) /\ lt_zero (number s0) = Ok neg
    /\ frame s0 s /\ color_pair s = pair_for neg s0 /\ sized r c (stdscr s).
Proof.
  intros Hs Hn Hg. pose proof (update_page_spec r c s0 Hs) as H.
  destruct (update_page s0) as [[[]|e] s].
  - destruct H as (neg & H). exists neg, s. split; [reflexivity|exact H].
  - exfalso. apply H. split; assumption.
Qed.

(** The failure sentinel cannot be painted: [n < 0] raises. *)
Lemma update_page_str s0 x :
  number s0 = PyStr x -> update_page s0 = (Raise TypeError, s0).
Proof. intros H. rewrite update_page_eq, H. reflexivity. Qed.

(** ** The fonts at hand *)

Lemma char_sets_have_glyphs cs : In cs CHAR_SETS -> has_glyphs cs.
Proof.
  unfold CHAR_SETS. simpl.
  intros [<-|[<-|[<-|[<-|[]]]]]; split; vm_compute; discriminate.
Qed.

Lemma index_CHAR_SETS i cs :
  nth_error CHAR_SETS i = Some cs ->
  index dict_eqb CHAR_SETS cs = Ok (Z.of_nat i).
Proof.
  destruct i as [|[|[|[|i]]]]; simpl; intros H; inversion H; subst;
    try (vm_compute; reflexivity).
  destruct i; discriminate.
Qed.

Lemma index_BASE_CHARACTERS i b :
  nth_error BASE_CHARACTERS i = Some b ->
  index String.eqb BASE_CHARACTERS b = Ok (Z.of_nat i).
Proof.
  destruct i as [|[|[|[|[|[|[|[|i]]]]]]]]; simpl; intros H; inversion H;
    subst; try (vm_compute; reflexivity).
  destruct i; discriminate.
Qed.

Lemma In_nth_error_lt {A} (l : list A) x :
  In x l -> exists i, (i < List.length l)%nat /\ nth_error l i = Some x.
Proof.
  intros H. destruct (In_nth_error l x H) as [i Hi]. exists i. split; auto.
  apply nth_error_Some. congruence.
Qed.

(** ** The cyclers *)

Section Cycling.
Variables r c : Z.

Lemma handle_f1_step self i :
  sized r c (stdscr self) -> is_reading (number self) ->
  (i < 4)%nat -> nth_error CHAR_SETS i = Some (char_set self) ->
  exists s',
    handle_f1 self = (Ok tt, s')
    /\ nth_error CHAR_SETS ((i + 1) mod 4) = Some (char_set s')
    /\ sized r c (stdscr s') /\ number s' = number self
    /\ unit s' = unit self /\ base_char s' = base_char self
    /\ pair_positive s' = pair_positive self
    /\ pair_negative s' = pair_negative self.
Proof.
  intros Hs Hn Hi Hcs. unfold handle_f1.
  unfold bind at 1. unfold get at 1. unfold bind at 1. unfold lift at 1.
  rewrite (index_CHAR_SETS i _ Hcs). cbv beta zeta.
  unfold bind at 1. unfold modify at 1.
  set (cs' := nth (Z.to_nat ((Z.of_nat i + 1)
                    mod Z.of_nat (List.length CHAR_SETS))) CHAR_SETS []).
  assert (Hcs' : nth_error CHAR_SETS ((i + 1) mod 4) = Some cs').
  { subst cs'. destruct i as [|[|[|[|i]]]]; try reflexivity. lia. }
  assert (Hg : has_glyphs cs').
  { apply char_sets_have_glyphs. eapply nth_error_In. exact Hcs'. }
  destruct (update_page_returns r c (set_char_set cs' self) Hs Hn Hg)
    as (neg & s' & Hup & _ & Hfr & _ & Hs').
  rewrite Hup. exists s'. destruct Hfr as (H1 & H2 & H3 & H4 & H5 & H6).
  simpl in *. rewrite H3. auto 10.
Qed.

Lemma handle_f2_step self i :
  sized r c (stdscr self) -> is_reading (number self) ->
  has_glyphs (char_set self) ->
  (i < 8)%nat -> nth_error BASE_CHARACTERS i = Some (base_char self) ->
  exists s',
    handle_f2 self = (Ok tt, s')
    /\ nth_error BASE_CHARACTERS ((i + 1) mod 8) = Some (base_char s')
    /\ color_mode_ok s'
    /\ sized r c (stdscr s') /\ number s' = number self
    /\ unit s' = unit self /\ char_set s' = char_set self.
Proof.
  intros Hs Hn Hg Hi Hb. unfold handle_f2.
  unfold bind at 1. unfold get at 1. unfold bind at 1. unfold lift at 1.
  rewrite (index_BASE_CHARACTERS i _ Hb). cbv beta zeta.
  unfold bind at 1. unfold modify at 1.
  set (b' := nth (Z.to_nat ((Z.of_nat i + 1)
                   mod Z.of_nat (List.length BASE_CHARACTERS)))
                 BASE_CHARACTERS "").
  assert (Hb' : nth_error BASE_CHARACTERS ((i + 1) mod 8) = Some b').
  { subst b'. destruct i as [|[|[|[|[|[|[|[|i]]]]]]]]; try reflexivity. lia. }
  unfold bind at 1. unfold get at 1. cbv beta.
  unfold bind at 1.
  change (base_char (set_base_char b' self)) with b'.
  destruct (String.eqb b' " ") eqn:Hblank; unfold modify at 1.
  - destruct (update_page_returns r c
                (set_pairs COLOR_PAIR_GRN_ON_GRN COLOR_PAIR_RED_ON_RED
                   (set_base_char b' self)) Hs Hn Hg)
      as (neg & s' & Hup & _ & Hfr & _ & Hs').
    rewrite Hup. exists s'. destruct Hfr as (H1 & H2 & H3 & H4 & H5 & H6).
    simpl in *. unfold color_mode_ok. rewrite H4, Hblank. auto 10.
  - destruct (update_page_returns r c
                (set_pairs COLOR_PAIR_GRN_ON_BLK COLOR_PAIR_RED_ON_BLK
                   (set_base_char b' self)) Hs Hn Hg)
      as (neg & s' & Hup & _ & Hfr & _ & Hs').
    rewrite Hup. exists s'. destruct Hfr as (H1 & H2 & H3 & H4 & H5 & H6).
    simpl in *. unfold color_mode_ok. rewrite H4, Hblank. auto 10.
Qed.

Lemma handle_f1_times n : forall self i,
  sized r c (stdscr self) -> is_reading (number self) ->
  (i < 4)%nat -> nth_error CHAR_SETS i = Some (char_set self) ->
  exists s',
    times n handle_f1 self = (Ok tt, s')
    /\ nth_error CHAR_SETS ((i + n) mod 4) = Some (char_set s')
    /\ sized r c (stdscr s') /\ number s' = number self
    /\ unit s' = unit self /\ base_char s' = base_char self
    /\ pair_positive s' = pair_positive self
    /\ pair_negative s' = pair_negative self.
Proof.
  induction n as [|n IH]; intros self i Hs Hn Hi Hcs.
  - exists self. rewrite Nat.add_0_r. rewrite Nat.mod_small by exact Hi.
    split; [reflexivity|]. auto 10.
  - destruct (handle_f1_step self i Hs Hn Hi Hcs)
      as (s1 & H1 & Hcs1 & Hs1 & Hn1 & Hu1 & Hb1 & Hp1 & Hq1).
    assert (Hn1' : is_reading (number s1)) by (rewrite Hn1; exact Hn).
    assert (Hi1 : ((i + 1) mod 4 < 4)%nat) by (apply Nat.mod_upper_bound; lia).
    destruct (IH s1 _ Hs1 Hn1' Hi1 Hcs1)
      as (s' & H' & Hcs' & Hs' & Hn' & Hu' & Hb' & Hp' & Hq').
    exists s'. change (times (S n) handle_f1 self)
      with (bind handle_f1 (fun _ => times n handle_f1) self).
    unfold bind at 1. rewrite H1, H'.
    replace ((i + S n) mod 4)%nat with (((i + 1) mod 4 + n) mod 4)%nat.
    + split; [reflexivity|]. split; [exact Hcs'|]. split; [exact Hs'|].
      repeat split; congruence.
    + rewrite Nat.Div0.add_mod_idemp_l. f_equal. lia.
Qed.

Lemma handle_f2_times n : forall self i,
  sized r c (stdscr self) -> is_reading (number self) ->
  has_glyphs (char_set self) ->
  (i < 8)%nat -> nth_error BASE_CHARACTERS i = Some (base_char self) ->
  exists s',
    times (S n) handle_f2 self = (Ok tt, s')
    /\ nth_error BASE_CHARACTERS ((i + S n) mod 8) = Some (base_char s')
    /\ color_mode_ok s'
    /\ sized r c (stdscr s') /\ number s' = number self
    /\ unit s' = unit self /\ char_set s' = char_set self.
Proof.
  induction n as [|n IH]; intros self i Hs Hn Hg Hi Hb.
  - destruct (handle_f2_step self i Hs Hn Hg Hi Hb)
      as (s1 & H1 & Hb1 & Hm1 & Hs1 & Hn1 & Hu1 & Hc1).
    exists s1. change (times 1 handle_f2 self)
      with (bind handle_f2 (fun _ => ret tt) self).
    unfold bind at 1. rewrite H1. split; [reflexivity|]. auto 10.
  - destruct (handle_f2_step self i Hs Hn Hg Hi Hb)
      as (s1 & H1 & Hb1 & Hm1 & Hs1 & Hn1 & Hu1 & Hc1).
    assert (Hn1' : is_reading (number s1)) by (rewrite Hn1; exact Hn).
    assert (Hg1 : has_glyphs (char_set s1)) by (rewrite Hc1; exact Hg).
    assert (Hi1 : ((i + 1) mod 8 < 8)%nat) by (apply Nat.mod_upper_bound; lia).
    destruct (IH s1 _ Hs1 Hn1' Hg1 Hi1 Hb1)
      as (s' & H' & Hb' & Hm' & Hs' & Hn' & Hu' & Hc').
    exists s'. change (times (S (S n)) handle_f2 self)
      with (bind handle_f2 (fun _ => times (S n) handle_f2) self).
    unfold bind at 1. rewrite H1, H'.
    replace ((i + S (S n)) mod 8)%nat with (((i + 1) mod 8 + S n) mod 8)%nat.
    + split; [reflexivity|]. split; [exact Hb'|]. split; [exact Hm'|].
      split; [exact Hs'|]. repeat split; congruence.
    + rewrite Nat.Div0.add_mod_idemp_l. f_equal. lia.
Qed.

End Cycling.

(** ** Screens used as examples *)

Definition small_screen : Curses.window := Curses.Window 3 5 0 0 [].
Definition terminal : Curses.window := Curses.Window 24 80 0 0 [].

Lemma small_screen_sized : sized 3 5 small_screen.
Proof. unfold sized, Curses.wf; simpl; lia. Qed.

Lemma terminal_sized : sized 24 80 terminal.
Proof. unfold sized, Curses.wf; simpl; lia. Qed.

(** ** Claims on the renderer *)

(** C4: on a screen of any size, a terminal smaller than the glyph block
    included, [update_page] never lets a [curses.error] out and leaves the
    cursor inside the window; with a reading stored and the glyphs of the
    font at hand it returns without raising anything. *)
Theorem C4_update_page_survives_any_geometry r c self :
  sized r c (stdscr self) ->
  fst (update_page self) <> Raise curses_error
  /\ sized r c (stdscr (snd (update_page self)))
  /\ (is_reading (number self) -> has_glyphs (char_set self) ->
      fst (update_page self) = Ok tt).
Proof.
  intros Hs. pose proof (update_page_spec r c self Hs) as H.
  destruct (update_page self) as [[[]|e] s]; simpl.
  - destruct H as (neg & _ & _ & _ & Hs'). split; [discriminate|].
    split; [exact Hs'|]. reflexivity.
  - destruct H as (He & _ & Hs' & Hno). split; [congruence|].
    split; [exact Hs'|]. intros Hn Hg. exfalso. apply Hno. split; assumption.
Qed.

Lemma C4_witness :
  sized 3 5 (stdscr (init small_screen))
  /\ fst (update_page (init small_screen)) <> Raise curses_error
  /\ sized 3 5 (stdscr (snd (update_page (init small_screen))))
  /\ (is_reading (number (init small_screen)) ->
      has_glyphs (char_set (init small_screen)) ->
      fst (update_page (init small_screen)) = Ok tt).
Proof.
  assert (H : sized 3 5 (stdscr (init small_screen))).
  { unfold sized, Curses.wf; simpl; lia. }
  split; [exact H|].
  exact (C4_update_page_survives_any_geometry 3 5 (init small_screen) H).
Defined.

(** The order [n < 0] of Python on the stored values. *)
Definition is_negative (v : value) : Prop :=
  match v with
  | PyInt z => z < 0
  | PyFloat f => SFltb f fzero = true
  | PyStr _ => False
  end.

Lemma lt_zero_negative v neg :
  lt_zero v = Ok neg -> (neg = true <-> is_negative v).
Proof.
  destruct v as [z|f|x]; simpl; intros H; inversion H; subst.
  - rewrite Z.ltb_lt. reflexivity.
  - reflexivity.
Qed.

(** C7: whatever the font and the fill symbol, a repaint of a reading below
    zero leaves the negative pair selected and a repaint of any other
    reading the positive pair, and changes neither font nor fill symbol. *)
Theorem C7_sign_selects_color_pair r c self :
  sized r c (stdscr self) -> is_reading (number self) ->
  has_glyphs (char_set self) ->
  exists s',
    update_page self = (Ok tt, s')
    /\ (is_negative (number self) -> color_pair s' = pair_negative self)
    /\ (~ is_negative (number self) -> color_pair s' = pair_positive self)
    /\ char_set s' = char_set self /\ base_char s' = base_char self.
Proof.
  intros Hs Hn Hg.
  destruct (update_page_returns r c self Hs Hn Hg)
    as (neg & s' & Hup & Hlt & Hfr & Hcp & _).
  exists s'. split; [exact Hup|].
  destruct Hfr as (_ & _ & Hcs & Hb & _).
  pose proof (lt_zero_negative _ _ Hlt) as Hneg.
  split; [|split; [|split; [exact Hcs|exact Hb]]].
  - intros H. apply Hneg in H. subst neg. exact Hcp.
  - intros H. destruct neg; [exfalso; apply H, Hneg; reflexivity|exact Hcp].
Qed.

Definition minus_half : float := S754_finite true 4503599627370496 (-53).

Lemma C7_witness :
  let self := set_reading (PyFloat minus_half) "in" (init terminal) in
  sized 24 80 (stdscr self) /\ is_reading (number self)
  /\ has_glyphs (char_set self)
  /\ exists s',
    update_page self = (Ok tt, s')
    /\ (is_negative (number self) -> color_pair s' = pair_negative self)
    /\ (~ is_negative (number self) -> color_pair s' = pair_positive self)
    /\ char_set s' = char_set self /\ base_char s' = base_char self.
Proof.
  intros self.
  assert (Hs : sized 24 80 (stdscr self)).
  { unfold sized, Curses.wf; simpl; lia. }
  assert (Hn : is_reading (number self)) by exact I.
  assert (Hg : has_glyphs (char_set self)).
  { split; vm_compute; discriminate. }
  split; [exact Hs|]. split; [exact Hn|]. split; [exact Hg|].
  exact (C7_sign_selects_color_pair 24 80 self Hs Hn Hg).
Defined.

(** C8: pressing F1 as many times as there are fonts brings the font back,
    and pressing F2 as many times as there are fill symbols brings the fill
    symbol back, with the colour mode that goes with it: same-on-same
    exactly for the blank, on-black otherwise. *)
Theorem C8_cycling_round_trip r c self :
  sized r c (stdscr self) -> is_reading (number self) ->
  In (char_set self) CHAR_SETS -> In (base_char self) BASE_CHARACTERS ->
  (exists s',
     times (List.length CHAR_SETS) handle_f1 self = (Ok tt, s')
     /\ char_set s' = char_set self)
  /\ (exists s',
     times (List.length BASE_CHARACTERS) handle_f2 self = (Ok tt, s')
     /\ base_char s' = base_char self
     /\ color_mode_ok s'
     /\ (color_mode_ok self ->
         pair_positive s' = pair_positive self
         /\ pair_negative s' = pair_negative self)).
Proof.
  intros Hs Hn Hcs Hb. split.
  - destruct (In_nth_error_lt _ _ Hcs) as (i & Hi & Hnth).
    change (List.length CHAR_SETS) with 4%nat in *.
    destruct (handle_f1_times r c 4 self i Hs Hn Hi Hnth)
      as (s' & Hrun & Hnth' & _).
    exists s'. split; [exact Hrun|].
    replace ((i + 4) mod 4)%nat with i in Hnth'.
    + congruence.
    + rewrite <- Nat.Div0.add_mod_idemp_r.
      change (4 mod 4)%nat with 0%nat.
      rewrite Nat.add_0_r. symmetry. apply Nat.mod_small. exact Hi.
  - destruct (In_nth_error_lt _ _ Hb) as (i & Hi & Hnth).
    change (List.length BASE_CHARACTERS) with 8%nat in *.
    assert (Hg : has_glyphs (char_set self))
      by (apply char_sets_have_glyphs; exact Hcs).
    destruct (handle_f2_times r c 7 self i Hs Hn Hg Hi Hnth)
      as (s' & Hrun & Hnth' & Hmode & _).
    exists s'. split; [exact Hrun|].
    replace ((i + 8) mod 8)%nat with i in Hnth'.
    + assert (Hsame : base_char s' = base_char self) by congruence.
      split; [exact Hsame|]. split; [exact Hmode|].
      unfold color_mode_ok in *. rewrite Hsame in Hmode.
      destruct (String.eqb (base_char self) " "); intros [H1 H2];
        destruct Hmode; split; congruence.
    + rewrite <- Nat.Div0.add_mod_idemp_r.
      change (8 mod 8)%nat with 0%nat.
      rewrite Nat.add_0_r. symmetry. apply Nat.mod_small. exact Hi.
Qed.

Lemma C8_witness :
  let self := init terminal in
  sized 24 80 (stdscr self) /\ is_reading (number self)
  /\ In (char_set self) CHAR_SETS /\ In (base_char self) BASE_CHARACTERS
  /\ (exists s',
        times (List.length CHAR_SETS) handle_f1 self = (Ok tt, s')
        /\ char_set s' = char_set self)
  /\ (exists s',
        times (List.length BASE_CHARACTERS) handle_f2 self = (Ok tt, s')
        /\ base_char s' = base_char self
        /\ color_mode_ok s'
        /\ (color_mode_ok self ->
            pair_positive s' = pair_positive self
            /\ pair_negative s' = pair_negative self)).
Proof.
  intros self.
  assert (Hs : sized 24 80 (stdscr self)).
  { unfold sized, Curses.wf; simpl; lia. }
  assert (Hn : is_reading (number self)) by reflexivity.
  assert (Hcs : In (char_set self) CHAR_SETS) by (left; reflexivity).
  assert (Hb : In (base_char self) BASE_CHARACTERS).
  { do 4 right. left. reflexivity. }
  split; [exact Hs|]. split; [exact Hn|]. split; [exact Hcs|].
  split; [exact Hb|].
  exact (C8_cycling_round_trip 24 80 self Hs Hn Hcs Hb).
Defined.

(** ** Strings *)

Lemma append_nil_r s : s ++ "" = s.
Proof. induction s as [|c s IH]; simpl; [reflexivity | rewrite IH; reflexivity]. Qed.

Lemma append_assoc s t u : (s ++ t) ++ u = s ++ t ++ u.
Proof. induction s as [|c s IH]; simpl; [reflexivity | rewrite IH; reflexivity]. Qed.

Lemma length_append s t :
  String.length (s ++ t) = (String.length s + String.length t)%nat.
Proof. induction s as [|c s IH]; simpl; [reflexivity | rewrite IH; reflexivity]. Qed.

Lemma all_chars_append p s t :
  all_chars p (s ++ t) = all_chars p s && all_chars p t.
Proof.
  induction s as [|c s IH]; simpl; [reflexivity|].
  rewrite IH. apply andb_assoc.
Qed.

Lemma ch_append s t : s <> "" -> ch (s ++ t) = ch s.
Proof. destruct s; [congruence | reflexivity]. Qed.

Lemma all_chars_ch p s : s <> "" -> all_chars p s = true -> p (ch s) = true.
Proof.
  destruct s as [|c s]; [congruence|]. simpl. intros _ H.
  apply andb_true_iff in H. apply H.
Qed.

(** ** The character classes *)

Lemma digit_not_dot c : is_digit c = true -> Ascii.eqb c "." = false.
Proof.
  intros H. destruct (Ascii.eqb c ".") eqn:E; [|reflexivity].
  apply Ascii.eqb_eq in E. subst c. discriminate H.
Qed.

Lemma digit_not_minus c : is_digit c = true -> Ascii.eqb "-" c = false.
Proof.
  intros H. destruct (Ascii.eqb "-" c) eqn:E; [|reflexivity].
  apply Ascii.eqb_eq in E. subst c. discriminate H.
Qed.

Lemma space_not_digit c : is_space c = true -> is_digit c = false.
Proof.
  unfold is_space, is_digit, in_range. intros H.
  apply orb_true_iff in H.
  repeat rewrite andb_true_iff in H. repeat rewrite Z.leb_le in H.
  apply andb_false_iff. repeat rewrite Z.leb_gt. lia.
Qed.

(** ** The matcher on a line of the expected form *)

Section Matching.
Variables (p : ascii -> bool) (k : string -> option (list string)).

Lemma take_one_hit c s :
  p c = true -> take_one p k (String c s) = push (String c "") (k s).
Proof. intros H. simpl. rewrite H. reflexivity. Qed.

Lemma take_one_miss c s : p c = false -> take_one p k (String c s) = None.
Proof. intros H. simpl. rewrite H. reflexivity. Qed.

(** A run of the class that nothing of the class follows is taken whole. *)
Lemma plus_greedy w : forall s ms,
  w <> "" -> all_chars p w = true ->
  (s = "" \/ p (ch s) = false) ->
  k s = Some ms ->
  plus p k (w ++ s) = Some (w :: ms).
Proof.
  induction w as [|c w IH]; intros s ms Hne Hall Hstop Hk; [congruence|].
  simpl in Hall. apply andb_true_iff in Hall. destruct Hall as [Hc Hw].
  simpl. rewrite Hc. destruct w as [|d w].
  - simpl. assert (Hnone : plus p k s = None).
    { destruct s as [|e s]; [reflexivity|]. simpl.
      destruct Hstop as [Hs|Hs]; [discriminate|]. simpl in Hs.
      rewrite Hs. reflexivity. }
    rewrite Hnone, Hk. reflexivity.
  - rewrite (IH s ms); auto. discriminate.
Qed.

End Matching.

(** The shape [-?digits.digits blanks token] of a measurement line, with
    whatever follows the token. *)
Record measurement : Type := Measurement {
  m_sign : string;
  m_int : string;
  m_frac : string;
  m_blank : string;
  m_unit : string;
  m_rest : string
}.

Definition text (m : measurement) : string :=
  m_sign m ++ m_int m ++ "." ++ m_frac m ++ m_blank m ++ m_unit m ++ m_rest m.

Definition literal (m : measurement) : string :=
  m_sign m ++ m_int m ++ "." ++ m_frac m.

Definition well_formed (m : measurement) : Prop :=
  (m_sign m = "" \/ m_sign m = "-")
  /\ m_int m <> "" /\ all_chars is_digit (m_int m) = true
  /\ m_frac m <> "" /\ all_chars is_digit (m_frac m) = true
  /\ m_blank m <> "" /\ all_chars class_s (m_blank m) = true
  /\ m_unit m <> "" /\ all_chars class_S (m_unit m) = true
  /\ (m_rest m = "" \/ class_s (ch (m_rest m)) = true).

(** The float nearest to the decimal that the literal writes. *)
Definition literal_value (m : measurement) : float :=
  round_ratio (String.eqb (m_sign m) "-")
    (digits_value 0 (m_int m ++ m_frac m))
    (10 ^ Z.of_nat (String.length (m_frac m))).

Lemma match_items_cons it r s :
  match_items (it :: r) s =
  match rep it with
  | One => take_one (cls it) (match_items r) s
  | Opt =>
    match take_one (cls it) (match_items r) s with
    | Some m => Some m
    | None => push "" (match_items r s)
    end
  | Plus => plus (cls it) (match_items r) s
  end.
Proof. reflexivity. Qed.

Lemma match_measurement m :
  well_formed m ->
  match_items INDICATOR_RE (text m) =
    Some [m_sign m; m_int m; "."; m_frac m; m_blank m; m_unit m].
Proof.
  destruct m as [sg ip fp ws tok rest]. unfold well_formed, text.
  cbn [m_sign m_int m_frac m_blank m_unit m_rest].
  intros (Hsg & Hip & Hipd & Hfp & Hfpd & Hws & Hwss & Htok & Htoks & Hrest).
  unfold INDICATOR_RE.
  (* from the token backwards *)
  set (r6 := [Item class_S Plus (Some "unit")]).
  set (r5 := Item class_s Plus None :: r6).
  set (r4 := Item class_d Plus (Some "number") :: r5).
  set (r3 := Item (lit ".") One (Some "number") :: r4).
  set (r2 := Item class_d Plus (Some "number") :: r3).
  assert (H6 : match_items r6 (tok ++ rest) = Some [tok]).
  { subst r6. rewrite match_items_cons. cbn [rep cls].
    apply plus_greedy; auto.
    destruct Hrest as [Hr|Hr]; [left; exact Hr|right].
    unfold class_S. unfold class_s in Hr. rewrite Hr. reflexivity. }
  assert (H5 : match_items r5 (ws ++ tok ++ rest) = Some [ws; tok]).
  { subst r5. rewrite match_items_cons. cbn [rep cls].
    apply plus_greedy; auto. right. rewrite ch_append by exact Htok.
    pose proof (all_chars_ch _ _ Htok Htoks) as H. unfold class_S in H.
    unfold class_s. destruct (is_space (ch tok)); [discriminate|reflexivity]. }
  assert (H4 : match_items r4 (fp ++ ws ++ tok ++ rest)
               = Some [fp; ws; tok]).
  { subst r4. rewrite match_items_cons. cbn [rep cls].
    apply plus_greedy; auto. right. rewrite ch_append by exact Hws.
    apply space_not_digit. exact (all_chars_ch _ _ Hws Hwss). }
  assert (H3 : match_items r3 ("." ++ fp ++ ws ++ tok ++ rest)
               = Some ["."; fp; ws; tok]).
  { subst r3. rewrite match_items_cons. cbn [rep cls].
    change ("." ++ fp ++ ws ++ tok ++ rest)
      with (String "." (fp ++ ws ++ tok ++ rest)).
    rewrite take_one_hit by reflexivity. rewrite H4. reflexivity. }
  assert (H2 : match_items r2 (ip ++ "." ++ fp ++ ws ++ tok ++ rest)
               = Some [ip; "."; fp; ws; tok]).
  { subst r2. rewrite match_items_cons. cbn [rep cls].
    apply plus_greedy; auto. }
  rewrite match_items_cons. cbn [rep cls]. destruct Hsg as [-> | ->].
  - change ("" ++ ip ++ "." ++ fp ++ ws ++ tok ++ rest)
      with (ip ++ "." ++ fp ++ ws ++ tok ++ rest).
    rewrite H2.
    destruct ip as [|d ip]; [congruence|]. simpl in Hipd.
    apply andb_true_iff in Hipd. destruct Hipd as [Hd _].
    change (String d ip ++ "." ++ fp ++ ws ++ tok ++ rest)
      with (String d (ip ++ "." ++ fp ++ ws ++ tok ++ rest)).
    rewrite (take_one_miss (lit "-") (match_items r2) d _
               (digit_not_minus d Hd)).
    reflexivity.
  - change ("-" ++ ip ++ "." ++ fp ++ ws ++ tok ++ rest)
      with (String "-" (ip ++ "." ++ fp ++ ws ++ tok ++ rest)).
    rewrite take_one_hit by reflexivity. rewrite H2. reflexivity.
Qed.

Lemma groups_measurement m :
  well_formed m ->
  exists mo,
    re_match INDICATOR_RE (text m) = Some mo
    /\ group mo "number" = literal m /\ group mo "unit" = m_unit m.
Proof.
  intros Hm. unfold re_match. rewrite (match_measurement m Hm).
  eexists. split; [reflexivity|]. unfold group, literal. simpl.
  repeat rewrite append_nil_r. split; reflexivity.
Qed.

(** ** [float] on the literals that the pattern captures *)

Lemma split_at_digits ip fp :
  all_chars is_digit ip = true ->
  split_at "." (ip ++ "." ++ fp) = Some (ip, fp).
Proof.
  induction ip as [|c ip IH]; simpl; intros H; [reflexivity|].
  apply andb_true_iff in H. destruct H as [Hc Hip].
  simpl in IH. rewrite (digit_not_dot c Hc), (IH Hip). reflexivity.
Qed.

Section Literal.
Variables ip fp : string.
Hypotheses (Hip : ip <> "") (Hipd : all_chars is_digit ip = true)
           (Hfp : fp <> "") (Hfpd : all_chars is_digit fp = true).

Let body_ok :
  (negb (String.length ip =? 0)%nat && negb (String.length fp =? 0)%nat
   && all_chars is_digit ip && all_chars is_digit fp) = true.
Proof.
  rewrite Hipd, Hfpd. destruct ip; [congruence|]. destruct fp; [congruence|].
  reflexivity.
Qed.

Lemma float_of_unsigned :
  float_of_str (ip ++ "." ++ fp)
  = Ok (round_ratio false (digits_value 0 (ip ++ fp))
          (10 ^ Z.of_nat (String.length fp))).
Proof.
  unfold float_of_str.
  assert (Hsign :
    match ip ++ "." ++ fp with
    | String c r =>
      if Ascii.eqb c "-" then (true, r) else (false, ip ++ "." ++ fp)
    | EmptyString => (false, ip ++ "." ++ fp)
    end = (false, ip ++ "." ++ fp)).
  { clear body_ok. destruct ip as [|d ip']; [congruence|].
    simpl in Hipd. apply andb_true_iff in Hipd. destruct Hipd as [Hd _].
    change (String d ip' ++ "." ++ fp)
      with (String d (ip' ++ "." ++ fp)).
    cbv iota. rewrite Ascii.eqb_sym, (digit_not_minus d Hd).
    reflexivity. }
  rewrite Hsign. rewrite (split_at_digits ip fp Hipd), body_ok. reflexivity.
Qed.

Lemma float_of_signed :
  float_of_str ("-" ++ ip ++ "." ++ fp)
  = Ok (round_ratio true (digits_value 0 (ip ++ fp))
          (10 ^ Z.of_nat (String.length fp))).
Proof.
  unfold float_of_str.
  change ("-" ++ ip ++ "." ++ fp) with (String "-" (ip ++ "." ++ fp)).
  cbv iota. change (Ascii.eqb "-" "-") with true. cbv iota.
  rewrite (split_at_digits ip fp Hipd), body_ok. reflexivity.
Qed.

End Literal.

Lemma float_of_literal m :
  well_formed m -> float_of_str (literal m) = Ok (literal_value m).
Proof.
  destruct m as [sg ip fp ws tok rest]. unfold well_formed, literal,
    literal_value. cbn [m_sign m_int m_frac m_blank m_unit m_rest].
  intros (Hsg & Hip & Hipd & Hfp & Hfpd & _).
  destruct Hsg as [-> | ->].
  - apply float_of_unsigned; assumption.
  - apply float_of_signed; assumption.
Qed.

(** ** [display_number] *)

Definition unit_of (token : string) : string :=
  if String.eqb token "mm" then "mm" else "in".

Lemma display_number_eq line self :
  display_number line self =
  match re_match INDICATOR_RE line with
  | None => update_page (set_reading (PyStr "9.999") "xx" self)
  | Some mo =>
    match float_of_str (group mo "number") with
    | Ok f =>
      update_page (set_reading (PyFloat f) (unit_of (group mo "unit")) self)
    | Raise e => (Raise e, self)
    end
  end.
Proof.
  unfold display_number, bind, lift, modify, unit_of.
  destruct (re_match INDICATOR_RE line) as [mo|]; [|reflexivity].
  destruct (float_of_str (group mo "number")); reflexivity.
Qed.

Lemma display_number_match r c line mo f self :
  re_match INDICATOR_RE line = Some mo ->
  float_of_str (group mo "number") = Ok f ->
  sized r c (stdscr self) ->
  let res := display_number line self in
  number (snd res) = PyFloat f
  /\ unit (snd res) = unit_of (group mo "unit")
  /\ sized r c (stdscr (snd res))
  /\ char_set (snd res) = char_set self
  /\ base_char (snd res) = base_char self
  /\ fst res <> Raise curses_error
  /\ (has_glyphs (char_set self) -> fst res = Ok tt).
Proof.
  intros Hm Hf Hs res. subst res. rewrite display_number_eq, Hm, Hf.
  set (s1 := set_reading (PyFloat f) (unit_of (group mo "unit")) self).
  pose proof (update_page_spec r c s1 Hs) as H.
  destruct (update_page s1) as [[[]|e] s]; simpl.
  - destruct H as (neg & _ & (_ & _ & Hcs & Hb & Hn & Hu) & _ & Hs').
    split; [exact Hn|]. split; [exact Hu|]. split; [exact Hs'|].
    split; [exact Hcs|]. split; [exact Hb|]. split; [discriminate|].
    reflexivity.
  - destruct H as (He & (_ & _ & Hcs & Hb & Hn & Hu) & Hs' & Hno).
    split; [exact Hn|]. split; [exact Hu|]. split; [exact Hs'|].
    split; [exact Hcs|]. split; [exact Hb|]. split; [congruence|].
    intros Hg. exfalso. apply Hno. split; [exact I|exact Hg].
Qed.

Lemma display_number_no_match line self :
  re_match INDICATOR_RE line = None ->
  display_number line self
  = (Raise TypeError, set_reading (PyStr "9.999") "xx" self).
Proof.
  intros Hm. rewrite display_number_eq, Hm.
  apply update_page_str with (x := "9.999"). reflexivity.
Qed.

(** ** Claims on the parser *)

(** C1 (the code departs from it): on an ASCII line that the pattern does
    not match, [display_number] stores the sentinel -- the string ['9.999'] and
    the unit ['xx'] -- and the repaint that follows raises [TypeError] at
    [n < 0]: the placeholder is never displayed. *)
Theorem C1_failure_sentinel_raises line self :
  is_ascii line = true ->
  re_match INDICATOR_RE line = None ->
  display_number line self
  = (Raise TypeError, set_reading (PyStr "9.999") "xx" self).
Proof. intros _. apply display_number_no_match. Qed.

Lemma C1_witness :
  is_ascii ("hello" ++ LF) = true
  /\ re_match INDICATOR_RE ("hello" ++ LF) = None
  /\ display_number ("hello" ++ LF) (init terminal)
     = (Raise TypeError, set_reading (PyStr "9.999") "xx" (init terminal)).
Proof.
  assert (H : re_match INDICATOR_RE ("hello" ++ LF) = None)
    by (vm_compute; reflexivity).
  split; [reflexivity|]. split; [exact H|].
  exact (C1_failure_sentinel_raises ("hello" ++ LF) (init terminal)
           eq_refl H).
Defined.

(** C2: a line made of an optional minus, digits, a dot, digits, blanks
    and a token of non-blanks (followed by nothing or by a blank) is
    parsed: the number stored is the float nearest to the decimal written,
    the unit stored is ["mm"] for the token ["mm"] and ["in"] for any
    other, and the failure sentinel is not stored. *)
Theorem C2_matching_line_is_parsed r c m self :
  well_formed m -> is_ascii (text m) = true ->
  sized r c (stdscr self) ->
  let res := display_number (text m) self in
  float_of_str (literal m) = Ok (literal_value m)
  /\ number (snd res) = PyFloat (literal_value m)
  /\ unit (snd res) = (if String.eqb (m_unit m) "mm" then "mm" else "in")
  /\ number (snd res) <> PyStr "9.999" /\ unit (snd res) <> "xx"
  /\ (has_glyphs (char_set self) -> fst res = Ok tt).
Proof.
  intros Hm _ Hs res.
  destruct (groups_measurement m Hm) as (mo & Hmo & Hnum & Hunit).
  pose proof (float_of_literal m Hm) as Hf.
  assert (Hf' : float_of_str (group mo "number") = Ok (literal_value m))
    by (rewrite Hnum; exact Hf).
  destruct (display_number_match r c (text m) mo _ self Hmo Hf' Hs)
    as (Hn & Hu & _ & _ & _ & _ & Hok).
  fold res in Hn, Hu, Hok. rewrite Hunit in Hu. unfold unit_of in Hu.
  split; [exact Hf|]. split; [exact Hn|]. split; [exact Hu|].
  split; [rewrite Hn; discriminate|]. split; [|exact Hok].
  rewrite Hu. destruct (String.eqb (m_unit m) "mm"); discriminate.
Qed.

Definition reading_12_34_mm : measurement :=
  Measurement "" "12" "34" " " "mm" LF.

Lemma reading_12_34_mm_well_formed : well_formed reading_12_34_mm.
Proof.
  unfold well_formed; simpl.
  repeat split; try discriminate; auto.
Qed.

Lemma C2_witness :
  well_formed reading_12_34_mm
  /\ is_ascii (text reading_12_34_mm) = true
  /\ sized 24 80 (stdscr (init terminal))
  /\ let res := display_number (text reading_12_34_mm) (init terminal) in
     float_of_str (literal reading_12_34_mm)
     = Ok (literal_value reading_12_34_mm)
     /\ number (snd res) = PyFloat (literal_value reading_12_34_mm)
     /\ unit (snd res)
        = (if String.eqb (m_unit reading_12_34_mm) "mm" then "mm" else "in")
     /\ number (snd res) <> PyStr "9.999" /\ unit (snd res) <> "xx"
     /\ (has_glyphs (char_set (init terminal)) -> fst res = Ok tt).
Proof.
  assert (Hm : well_formed reading_12_34_mm).
  { unfold well_formed; simpl. repeat split; try discriminate; auto. }
  assert (Ha : is_ascii (text reading_12_34_mm) = true) by reflexivity.
  assert (Hs : sized 24 80 (stdscr (init terminal))).
  { unfold sized, Curses.wf; simpl; lia. }
  split; [exact Hm|]. split; [exact Ha|]. split; [exact Hs|].
  exact (C2_matching_line_is_parsed 24 80 reading_12_34_mm (init terminal)
           Hm Ha Hs).
Defined.

(** ** Claims on the glyph catalog *)

Lemma required_glyphs_exist :
  Forall (fun cs => Forall (fun k => lookup cs k <> None) required) CHAR_SETS.
Proof.
  repeat constructor; vm_compute; discriminate.
Qed.

(** C5 (the code departs from it): the glyph of ['i'] in the third font is
    not a rectangle: its first row is two columns wide, the nine others
    three.  (It is so in the fourth font too; the glyphs of the digits, of
    ['-'], ['.'] and ['?'] exist in every font.) *)
Theorem C5_i_glyph_is_not_rectangular :
  option_map (map String.length) (lookup CHAR_SET3 "i")
  = Some [2; 3; 3; 3; 3; 3; 3; 3; 3; 3]%nat
  /\ option_map (map String.length) (lookup CHAR_SET4 "i")
     = Some [2; 3; 3; 3; 3; 3; 3; 3; 3; 3; 3]%nat
  /\ (exists g, lookup CHAR_SET3 "i" = Some g /\ ~ rectangular g)
  /\ (exists g, lookup CHAR_SET4 "i" = Some g /\ ~ rectangular g).
Proof.
  split; [vm_compute; reflexivity|]. split; [vm_compute; reflexivity|].
  split.
  - exists (nth 10 (map snd CHAR_SET3) []). split; [vm_compute; reflexivity|].
    intros [w Hw]. unfold width_is in Hw. vm_compute in Hw.
    inversion Hw as [|? ? H1 Hw1]; subst.
    inversion Hw1 as [|? ? H2 _]; subst. discriminate.
  - exists (nth 10 (map snd CHAR_SET4) []). split; [vm_compute; reflexivity|].
    intros [w Hw]. unfold width_is in Hw. vm_compute in Hw.
    inversion Hw as [|? ? H1 Hw1]; subst.
    inversion Hw1 as [|? ? H2 _]; subst. discriminate.
Qed.

(** C10: in every font the glyph of the blank and the glyph of the minus
    sign exist and all their rows have one and the same width. *)
Theorem C10_blank_and_minus_have_the_same_width :
  Forall (fun cs =>
            exists blank minus w,
              lookup cs " " = Some blank /\ lookup cs "-" = Some minus
              /\ width_is w blank /\ width_is w minus)
         CHAR_SETS.
Proof.
  unfold CHAR_SETS.
  repeat constructor.
  - exists (nth 14 (map snd CHAR_SET1) []), (nth 13 (map snd CHAR_SET1) []),
      4%nat.
    repeat split; try (vm_compute; reflexivity);
      unfold width_is; vm_compute; repeat constructor.
  - exists (nth 14 (map snd CHAR_SET2) []), (nth 13 (map snd CHAR_SET2) []),
      5%nat.
    repeat split; try (vm_compute; reflexivity);
      unfold width_is; vm_compute; repeat constructor.
  - exists (nth 14 (map snd CHAR_SET3) []), (nth 13 (map snd CHAR_SET3) []),
      5%nat.
    repeat split; try (vm_compute; reflexivity);
      unfold width_is; vm_compute; repeat constructor.
  - exists (nth 14 (map snd CHAR_SET4) []), (nth 13 (map snd CHAR_SET4) []),
      5%nat.
    repeat split; try (vm_compute; reflexivity);
      unfold width_is; vm_compute; repeat constructor.
Qed.

(** ** Claims on the event loop *)

Lemma turn_serial chars txt s :
  decode_utf8 chars = Ok txt ->
  Reader.turn (Reader.SerialReady chars) s =
  let buffer := Reader.line s ++ txt in
  if endswith buffer LF then
    match display_number buffer (Reader.id s) with
    | (Ok _, d) => (Ok false, Reader.Loop "" d (Reader.calls s ++ [buffer]))
    | (Raise e, d) =>
      (Raise e, Reader.Loop buffer d (Reader.calls s ++ [buffer]))
    end
  else (Ok false, Reader.set_line buffer s).
Proof.
  intros Hd. destruct s as [l d cs]. unfold Reader.turn.
  assert (Hpre :
    (match chars with
     | [] => ret tt
     | _ :: _ =>
       text <- lift (decode_utf8 chars) ;;
       modify (fun s => Reader.set_line (Reader.line s ++ text) s)
     end) (Reader.Loop l d cs)
    = (Ok tt, Reader.Loop (l ++ txt) d cs)).
  { destruct chars as [|b chars].
    - vm_compute in Hd. inversion Hd; subst txt.
      rewrite append_nil_r. reflexivity.
    - unfold bind, lift. rewrite Hd. reflexivity. }
  unfold bind at 1. rewrite Hpre. unfold bind at 1. unfold get at 1.
  cbv zeta. cbn [Reader.line Reader.id Reader.calls].
  fold LF. destruct (endswith (l ++ txt) LF); [|reflexivity].
  unfold bind at 1. unfold modify at 1. unfold bind at 1.
  unfold Reader.on_id, zoom. unfold Reader.called.
  cbn [Reader.line Reader.id Reader.calls].
  destruct (display_number (l ++ txt) d) as [[[]|e] d']; reflexivity.
Qed.

Definition serial (s : string) : list ascii := list_ascii_of_string s.

Lemma reading_12_34_mm_displays r c w :
  sized r c w -> fst (display_number (text reading_12_34_mm) (init w)) = Ok tt.
Proof.
  intros Hw.
  destruct (groups_measurement _ reading_12_34_mm_well_formed)
    as (mo & Hmo & Hnum & _).
  pose proof (float_of_literal _ reading_12_34_mm_well_formed) as Hf.
  rewrite <- Hnum in Hf.
  destruct (display_number_match r c _ mo _ (init w) Hmo Hf Hw)
    as (_ & _ & _ & _ & _ & _ & Hok).
  apply Hok. split; vm_compute; discriminate.
Qed.

(** As the claim has it the line would reach [display_number] without its
    terminator; it reaches it with it. *)
Lemma C3_counterexample :
  Reader.calls
    (snd (Reader.turn (Reader.SerialReady (serial ("12.34 mm" ++ LF)))
            (Reader.Loop "" (init terminal) [])))
  <> ["12.34 mm"].
Proof. vm_compute. discriminate. Qed.

(** C3, amended: when the buffer comes to end with the terminator, the
    whole buffer, terminator included, is passed to [display_number]
    exactly once, and the buffer is empty once that call has returned;
    otherwise nothing is called and the partial line is kept.  The bytes
    of ["12.34 mm\n"] give one call, with ["12.34 mm\n"], and an empty
    buffer; the bytes of ["12.3"] give no call and the buffer ["12.3"]. *)
Theorem C3_terminated_line_is_passed_whole chars txt s :
  decode_utf8 chars = Ok txt ->
  let buffer := Reader.line s ++ txt in
  let after := Reader.turn (Reader.SerialReady chars) s in
  (endswith buffer LF = true ->
     Reader.calls (snd after) = (Reader.calls s ++ [buffer])%list
     /\ (fst (display_number buffer (Reader.id s)) = Ok tt ->
         fst after = Ok false /\ Reader.line (snd after) = ""))
  /\ (endswith buffer LF = false ->
     after = (Ok false, Reader.set_line buffer s))
  /\ (forall r c w, sized r c w ->
      let fed := Reader.turn (Reader.SerialReady (serial ("12.34 mm" ++ LF)))
                   (Reader.Loop "" (init w) []) in
      fst fed = Ok false
      /\ Reader.calls (snd fed) = ["12.34 mm" ++ LF]
      /\ Reader.line (snd fed) = "")
  /\ (forall d,
      Reader.turn (Reader.SerialReady (serial "12.3")) (Reader.Loop "" d [])
      = (Ok false, Reader.Loop "12.3" d [])).
Proof.
  intros Hd buffer after. subst after.
  rewrite (turn_serial chars txt s Hd). fold buffer. cbv zeta.
  split; [|split; [|split]].
  - intros He. rewrite He.
    destruct (display_number buffer (Reader.id s)) as [[[]|e] d]; simpl.
    + split; [reflexivity|]. intros _. split; reflexivity.
    + split; [reflexivity|]. intros H. discriminate H.
  - intros He. rewrite He. reflexivity.
  - intros r c w Hw.
    rewrite (turn_serial (serial ("12.34 mm" ++ LF)) ("12.34 mm" ++ LF) _
               eq_refl).
    cbn [Reader.line Reader.id Reader.calls]. cbv zeta.
    change (endswith ("" ++ "12.34 mm" ++ LF) LF) with true. cbv iota.
    change ("" ++ "12.34 mm" ++ LF) with (text reading_12_34_mm).
    pose proof (reading_12_34_mm_displays r c w Hw) as Hret.
    destruct (display_number (text reading_12_34_mm) (init w))
      as [[[]|e] d]; simpl in Hret; [|discriminate Hret].
    simpl. repeat split.
  - intros d. rewrite (turn_serial (serial "12.3") "12.3" _ eq_refl).
    reflexivity.
Qed.

Lemma C3_witness :
  let s := Reader.Loop "12.34" (init terminal) [] in
  let chars := serial (" mm" ++ LF) in
  decode_utf8 chars = Ok (" mm" ++ LF)
  /\ Reader.calls (snd (Reader.turn (Reader.SerialReady chars) s))
     = ["12.34 mm" ++ LF].
Proof.
  intros s chars.
  assert (Hd : decode_utf8 chars = Ok (" mm" ++ LF)) by reflexivity.
  split; [exact Hd|].
  destruct (C3_terminated_line_is_passed_whole chars (" mm" ++ LF) s Hd)
    as [H _].
  exact (proj1 (H eq_refl)).
Defined.

(** ** Claims on the start of the process *)

(** The line that [GetPort] prints for a candidate. *)
Definition listing (p : Reader.port_info) : Reader.effect :=
  let '(port, desc, hwid) := p in
  Reader.Print (("port=" ++ port ++ ", desc=" ++ desc ++ ", hwid=" ++ hwid)
                ++ Reader.newline).

Lemma print_listing (l : list Reader.port_info) : forall p0,
  for_each l (fun p =>
    let '(port, desc, hwid) := p in
    Reader.print ("port=" ++ port ++ ", desc=" ++ desc ++ ", hwid=" ++ hwid))
    p0
  = (Ok tt, (p0 ++ map listing l)%list).
Proof.
  induction l as [|[[port desc] hwid] l IH]; intros p0; simpl.
  - rewrite app_nil_r. reflexivity.
  - unfold bind at 1. unfold Reader.print at 1, Reader.emit, modify.
    rewrite IH. rewrite <- app_assoc. reflexivity.
Qed.

(** Discovery runs when the ports are to be listed or none is selected. *)
Definition discovers (args : Reader.arguments) : Prop :=
  Reader.list_ports args = true
  \/ Reader.port args = None \/ Reader.port args = Some "".

Lemma main_discovers E args :
  discovers args ->
  Reader.main E args =
  (p <- Reader.GetPort E (Reader.list_ports args) ;;
   Reader.select_loop E p (Reader.baudrate args)).
Proof.
  unfold discovers, Reader.main. destruct args as [lp [p|] b]; simpl.
  - intros [-> | [H | H]]; [reflexivity|discriminate|].
    inversion H; subst. rewrite orb_true_r. reflexivity.
  - reflexivity.
Qed.

(** C9: when no serial port is found, a notice is printed and the process
    exits with status 0; when several are found and none is selected, all
    are listed and the process exits with status 0; when opening the port
    fails, the error is reported and the process exits with a status other
    than 0, the screen not having been initialised. *)
Theorem C9_startup_exit_statuses E args p0 :
  discovers args ->
  (Reader.comports E = [] ->
     Reader.main E args p0
     = (Raise (SystemExit 0),
        (p0 ++ [Reader.Print ("No ports found" ++ Reader.newline)])%list)
     /\ Reader.exit_status (fst (Reader.main E args p0)) = Some 0)
  /\ ((1 < List.length (Reader.comports E))%nat ->
     Reader.main E args p0
     = (Raise (SystemExit 0), (p0 ++ map listing (Reader.comports E))%list)
     /\ Reader.exit_status (fst (Reader.main E args p0)) = Some 0)
  /\ (forall port baudrate msg,
     Reader.serial_Serial E port baudrate = Raise (IOError msg) ->
     Reader.select_loop E port baudrate p0
     = (Raise (SystemExit (-1)),
        (p0 ++ [Reader.OpenSerial port baudrate;
                Reader.Print ("Problem opening monitor:  " ++ msg
                              ++ Reader.newline)])%list)
     /\ Reader.exit_status
          (fst (Reader.select_loop E port baudrate p0)) = Some 255
     /\ (~ In Reader.InitScr p0 ->
         ~ In Reader.InitScr (snd (Reader.select_loop E port baudrate p0)))).
Proof.
  intros Hd. rewrite (main_discovers E args Hd).
  split; [|split].
  - intros Hnone.
    assert (H : (p <- Reader.GetPort E (Reader.list_ports args) ;;
                 Reader.select_loop E p (Reader.baudrate args)) p0
                = (Raise (SystemExit 0),
                   (p0 ++ [Reader.Print ("No ports found" ++ Reader.newline)])
                   %list)).
    { unfold bind at 1. unfold Reader.GetPort. rewrite Hnone. reflexivity. }
    rewrite H. split; reflexivity.
  - intros Hmany.
    assert (H : (p <- Reader.GetPort E (Reader.list_ports args) ;;
                 Reader.select_loop E p (Reader.baudrate args)) p0
                = (Raise (SystemExit 0),
                   (p0 ++ map listing (Reader.comports E))%list)).
    { unfold bind at 1. unfold Reader.GetPort.
      destruct (Reader.comports E) as [|first rest] eqn:Hports;
        [simpl in Hmany; lia|].
      assert (Hlt : (1 <? List.length (first :: rest))%nat = true)
        by (apply Nat.ltb_lt; exact Hmany).
      rewrite Hlt, orb_true_r. unfold bind at 1.
      rewrite print_listing. reflexivity. }
    rewrite H. split; reflexivity.
  - intros port baudrate msg Hfail.
    assert (H : Reader.select_loop E port baudrate p0
                = (Raise (SystemExit (-1)),
                   (p0 ++ [Reader.OpenSerial port baudrate;
                           Reader.Print ("Problem opening monitor:  " ++ msg
                                         ++ Reader.newline)])%list)).
    { unfold Reader.select_loop, Reader.on_IOError.
      unfold bind at 1. unfold Reader.emit at 1, modify.
      unfold bind at 1. unfold lift at 1. rewrite Hfail.
      unfold bind, Reader.print, Reader.emit, modify, raise.
      rewrite <- app_assoc. reflexivity. }
    rewrite H. split; [reflexivity|]. split; [reflexivity|].
    simpl. intros Hno Hin. apply in_app_or in Hin.
    destruct Hin as [Hin|[Hin|[Hin|[]]]];
      [exact (Hno Hin)|discriminate|discriminate].
Qed.

Definition no_args : Reader.arguments := Reader.Args false None 115200.

Definition two_ports : Reader.env :=
  Reader.Env [("/dev/ttyUSB0", "a", "b"); ("/dev/ttyUSB1", "c", "d")]
             (fun _ _ => Raise (IOError "could not open port"))
             terminal (Ok tt) [].

Lemma C9_witness :
  discovers no_args
  /\ (1 < List.length (Reader.comports two_ports))%nat
  /\ Reader.main two_ports no_args []
     = (Raise (SystemExit 0), map listing (Reader.comports two_ports))
  /\ Reader.exit_status
       (fst (Reader.select_loop two_ports "/dev/ttyUSB0" 115200 []))
     = Some 255.
Proof.
  assert (Hd : discovers no_args) by (right; left; reflexivity).
  assert (Hm : (1 < List.length (Reader.comports two_ports))%nat)
    by (simpl; lia).
  destruct (C9_startup_exit_statuses two_ports no_args [] Hd)
    as (_ & Hmany & Hopen).
  split; [exact Hd|]. split; [exact Hm|].
  split; [exact (proj1 (Hmany Hm))|].
  exact (proj1 (proj2 (Hopen "/dev/ttyUSB0" 115200 "could not open port"
                         eq_refl))).
Defined.

(** ** The fixed-point format *)

Lemma digits_of_uint u : all_chars is_digit (NilEmpty.string_of_uint u) = true.
Proof. induction u; simpl; auto. Qed.

Lemma digits_of_nonneg z : all_chars is_digit (string_of_nonneg z) = true.
Proof.
  unfold string_of_nonneg, NilZero.string_of_uint.
  destruct (N.to_uint (Z.to_N z)); try reflexivity;
    apply (digits_of_uint (_ u)) || apply digits_of_uint.
Qed.

Lemma nonneg_not_empty z : string_of_nonneg z <> "".
Proof.
  unfold string_of_nonneg, NilZero.string_of_uint.
  destruct (N.to_uint (Z.to_N z)); simpl; discriminate.
Qed.

Lemma length_zeros n : String.length (zeros n) = n.
Proof. induction n; simpl; congruence. Qed.

Lemma digits_zeros n : all_chars is_digit (zeros n) = true.
Proof. induction n; simpl; auto. Qed.

Lemma length_substring s : forall n m,
  (n + m <= String.length s)%nat -> String.length (substring n m s) = m.
Proof.
  induction s as [|c s IH]; intros n m H; simpl in H.
  - assert (n = 0%nat /\ m = 0%nat) as [-> ->] by lia. reflexivity.
  - destruct n as [|n]; destruct m as [|m]; simpl; try reflexivity.
    + rewrite IH by lia. reflexivity.
    + apply IH. lia.
    + apply IH. lia.
Qed.

Lemma all_chars_substring p s : forall n m,
  all_chars p s = true -> all_chars p (substring n m s) = true.
Proof.
  induction s as [|c s IH]; intros n m H.
  - destruct n, m; reflexivity.
  - simpl in H. apply andb_true_iff in H. destruct H as [Hc Hs].
    destruct n as [|n]; destruct m as [|m]; simpl; auto.
    rewrite Hc. simpl. apply IH. exact Hs.
Qed.

(** A count of units of [10^-d] is written as digits, a dot and [d]
    digits. *)
Lemma fixed_of_scaled_shape d q :
  (0 < d)%nat -> fixed_point d (fixed_of_scaled d q).
Proof.
  intros Hd. unfold fixed_of_scaled.
  set (s := zeros (S d - String.length (string_of_nonneg q))
            ++ string_of_nonneg q).
  assert (Hlen : (S d <= String.length s)%nat).
  { subst s. rewrite length_append, length_zeros. lia. }
  assert (Hdig : all_chars is_digit s = true).
  { subst s. rewrite all_chars_append, digits_zeros, digits_of_nonneg.
    reflexivity. }
  destruct d as [|d']; [lia|].
  set (d := S d') in *. set (k := (String.length s - d)%nat).
  exists (substring 0 k s), (substring k d s).
  split; [reflexivity|]. split.
  - intros Hempty.
    assert (Hk : String.length (substring 0 k s) = k)
      by (apply length_substring; subst k; lia).
    rewrite Hempty in Hk. simpl in Hk. subst k. lia.
  - split; [apply all_chars_substring; exact Hdig|]. split.
    + apply length_substring. subst k. lia.
    + apply all_chars_substring. exact Hdig.
Qed.

Lemma decimals_pos u : (0 < decimals u)%nat.
Proof. unfold decimals. destruct (String.eqb u "mm"); lia. Qed.

Lemma format_finite d f :
  (0 < d)%nat -> is_finite f -> fixed_point d (format_float d (SFabs f)).
Proof.
  intros Hd Hf. destruct f as [s|s| |s m e]; simpl in Hf; try contradiction;
    simpl; apply fixed_of_scaled_shape; exact Hd.
Qed.

(** The formatting of [update_page] is [num_str]. *)
Lemma update_page_num_str s :
  update_page s =
  match lt_zero (number s), num_str (number s) (unit s) with
  | Ok neg, Ok str => paint str (set_color_pair (pair_for neg s) s)
  | Ok neg, Raise e => (Raise e, set_color_pair (pair_for neg s) s)
  | Raise e, _ => (Raise e, s)
  end.
Proof.
  rewrite update_page_eq. unfold num_str.
  destruct (lt_zero (number s)) as [neg|e]; [|reflexivity]. simpl.
  destruct (abs (number s)) as [a|e]; [|reflexivity]. simpl.
  destruct (format_f (decimals (unit s)) a); reflexivity.
Qed.

(** ** Claims on the format *)

Definition twelve_point_three : float :=
  S754_finite false 6924284427082138 (-49).

(** The line that overflows the floats: a one, four hundred zeros, [.0]. *)
Definition huge_line : string := "1" ++ zeros 400 ++ ".0 mm" ++ LF.

(** As the claim has it every stored value would be written with a
    fixed-precision magnitude; a reading beyond the floats is stored as
    infinity and written [inf]. *)
Lemma C6_counterexample :
  let s := snd (display_number huge_line (init terminal)) in
  number s = PyFloat (S754_infinity false) /\ unit s = "mm"
  /\ num_str (number s) (unit s) = Ok " inf mm"
  /\ update_page s = paint " inf mm" (set_color_pair (pair_positive s) s)
  /\ ~ (exists mag, fixed_point 2 mag /\ " inf mm" = " " ++ mag ++ " mm").
Proof.
  split; [vm_compute; reflexivity|]. split; [vm_compute; reflexivity|].
  split; [vm_compute; reflexivity|]. split; [vm_compute; reflexivity|].
  intros (mag & (ip & fp & Hmag & Hne & Hd & _) & Heq).
  subst mag. destruct ip as [|c ip]; [congruence|].
  simpl in Heq. inversion Heq; subst c. simpl in Hd. discriminate Hd.
Qed.


(** ** The digits that are written *)

Lemma digits_value_acc u : forall acc,
  digits_value (Z.pos acc) (NilEmpty.string_of_uint u)
  = Z.pos (Pos.of_uint_acc u acc).
Proof.
  induction u as [|u IH|u IH|u IH|u IH|u IH|u IH|u IH|u IH|u IH|u IH];
    intros acc; [reflexivity|..];
    cbn [NilEmpty.string_of_uint digits_value Pos.of_uint_acc];
    rewrite <- IH; f_equal; unfold code; simpl Z.of_N; lia.
Qed.

Lemma digits_value_uint u :
  digits_value 0 (NilEmpty.string_of_uint u) = Z.of_N (Pos.of_uint u).
Proof.
  induction u as [|u IH|u IH|u IH|u IH|u IH|u IH|u IH|u IH|u IH|u IH];
    [reflexivity|exact IH|..];
    cbn [NilEmpty.string_of_uint digits_value Pos.of_uint];
    cbn [Z.of_N]; rewrite <- digits_value_acc; f_equal.
Qed.

(** Reading back the digits of a number gives the number. *)
Lemma digits_value_nonneg z :
  0 <= z -> digits_value 0 (string_of_nonneg z) = z.
Proof.
  intros Hz. unfold string_of_nonneg.
  assert (H : digits_value 0 (NilZero.string_of_uint (N.to_uint (Z.to_N z)))
              = Z.of_N (N.of_uint (N.to_uint (Z.to_N z)))).
  { unfold NilZero.string_of_uint, N.of_uint.
    destruct (N.to_uint (Z.to_N z)) eqn:E; try reflexivity;
      rewrite <- digits_value_uint; reflexivity. }
  rewrite H, DecimalN.Unsigned.of_to. apply Z2N.id. exact Hz.
Qed.

Lemma digits_value_append s : forall acc t,
  digits_value acc (s ++ t) = digits_value (digits_value acc s) t.
Proof. induction s as [|c s IH]; intros acc t; simpl; auto. Qed.

Lemma digits_value_zeros n : digits_value 0 (zeros n) = 0.
Proof. induction n; simpl; auto. Qed.

Lemma substring_split s : forall k,
  (k <= String.length s)%nat ->
  substring 0 k s ++ substring k (String.length s - k) s = s.
Proof.
  induction s as [|c s IH]; intros k Hk; simpl in Hk.
  - assert (k = 0%nat) by lia. subst k. reflexivity.
  - destruct k as [|k].
    + simpl. f_equal. specialize (IH 0%nat (Nat.le_0_l _)).
      rewrite Nat.sub_0_r in IH.
      destruct s; simpl in *; [reflexivity|]. exact IH.
    + simpl. f_equal. apply IH. lia.
Qed.

(** Rounding to the nearest integer is off by half a unit at most, and on a
    tie the even neighbour is taken. *)
Lemma round_half_even_near n den :
  0 < den ->
  Z.abs (2 * (round_half_even n den * den - n)) <= den
  /\ (2 * (n mod den) = den -> Z.even (round_half_even n den) = true).
Proof.
  intros Hden. unfold round_half_even.
  pose proof (Z.div_mod n den ltac:(lia)) as Hdm.
  pose proof (Z.mod_pos_bound n den Hden) as Hr.
  destruct (2 * (n mod den) ?= den) eqn:Hc.
  - apply Z.compare_eq in Hc. destruct (Z.even (n / den)) eqn:He.
    + split; [nia|intros _; exact He].
    + split; [nia|]. intros _. rewrite Z.even_add, He. reflexivity.
  - rewrite Z.compare_lt_iff in Hc. split; [nia|lia].
  - rewrite Z.compare_gt_iff in Hc. split; [nia|lia].
Qed.

Lemma round_half_even_nonneg n den :
  0 <= n -> 0 < den -> 0 <= round_half_even n den.
Proof.
  intros Hn Hden. unfold round_half_even.
  assert (0 <= n / den) by (apply Z.div_pos; lia).
  destruct (2 * (n mod den) ?= den); [destruct (Z.even (n / den))| |]; lia.
Qed.

Lemma scaled_nonneg d m e : 0 <= scaled d m e.
Proof.
  unfold scaled.
  assert (0 < 10 ^ Z.of_nat d) by (apply Z.pow_pos_nonneg; lia).
  destruct (0 <=? e) eqn:He.
  - apply Z.leb_le in He.
    assert (0 < 2 ^ e) by (apply Z.pow_pos_nonneg; lia). nia.
  - apply Z.leb_gt in He. apply round_half_even_nonneg; [nia|].
    apply Z.pow_pos_nonneg; lia.
Qed.

(** A number is written without a zero in front, [0] itself apart. *)
Lemma nonneg_no_leading_zero z :
  string_of_nonneg z = "0" \/ ch (string_of_nonneg z) <> "0"%char.
Proof.
  unfold string_of_nonneg.
  assert (Hnorm : Decimal.unorm (N.to_uint (Z.to_N z)) = N.to_uint (Z.to_N z)).
  { rewrite <- (DecimalN.Unsigned.of_to (Z.to_N z)) at 2.
    rewrite DecimalN.Unsigned.to_of. reflexivity. }
  destruct (N.to_uint (Z.to_N z)) as [|u|u|u|u|u|u|u|u|u|u] eqn:E;
    try (right; simpl; discriminate).
  rewrite DecimalFacts.unorm_D0 in Hnorm. unfold Decimal.unorm in Hnorm.
  destruct (Decimal.nzhead u) as [|u0|u0|u0|u0|u0|u0|u0|u0|u0|u0] eqn:Hu;
    try discriminate Hnorm.
  - inversion Hnorm; subst. left. reflexivity.
  - exfalso. exact (DecimalFacts.nzhead_nonzero u u0 Hu).
Qed.

Lemma ch_substring s k :
  (0 < k)%nat -> ch (substring 0 k s) = ch s.
Proof. destruct s as [|c s]; destruct k; simpl; try reflexivity; lia. Qed.

Lemma substring_all s : substring 0 (String.length s) s = s.
Proof. induction s as [|c s IH]; simpl; [reflexivity|rewrite IH; reflexivity]. Qed.

(** The decimal writing of [q * 10^-d] with [d] decimals: digits without a
    superfluous zero in front, a dot and [d] digits, which read back as
    [q]. *)
Definition decimal_text (d : nat) (q : Z) (s : string) : Prop :=
  exists ip fp,
    s = ip ++ "." ++ fp
    /\ ip <> "" /\ all_chars is_digit ip = true
    /\ (ip = "0" \/ ch ip <> "0"%char)
    /\ String.length fp = d /\ all_chars is_digit fp = true
    /\ digits_value 0 (ip ++ fp) = q.

(** The count [q] of units of [10^-d] nearest to the magnitude of a stored
    number: the magnitude itself in these units when that is an integer,
    and otherwise off by half a unit at most, the even count on a tie. *)
Definition nearest_count (d : nat) (v : value) (q : Z) : Prop :=
  match v with
  | PyInt z => q = Z.abs z * 10 ^ Z.of_nat d
  | PyFloat (S754_zero _) => q = 0
  | PyFloat (S754_finite _ m e) =>
    (0 <= e -> q = Z.pos m * 10 ^ Z.of_nat d * 2 ^ e)
    /\ (e < 0 ->
        Z.abs (2 * (q * 2 ^ (- e) - Z.pos m * 10 ^ Z.of_nat d)) <= 2 ^ (- e)
        /\ (2 * ((Z.pos m * 10 ^ Z.of_nat d) mod 2 ^ (- e)) = 2 ^ (- e) ->
            Z.even q = true))
  | _ => False
  end.

Lemma fixed_of_scaled_text d q :
  (0 < d)%nat -> 0 <= q -> decimal_text d q (fixed_of_scaled d q).
Proof.
  intros Hd Hq. unfold fixed_of_scaled.
  set (t := string_of_nonneg q).
  set (s := zeros (S d - String.length t) ++ t).
  assert (Hlen : (S d <= String.length s)%nat).
  { subst s. rewrite length_append, length_zeros. lia. }
  assert (Hdig : all_chars is_digit s = true).
  { subst s t. rewrite all_chars_append, digits_zeros, digits_of_nonneg.
    reflexivity. }
  assert (Hval : digits_value 0 s = q).
  { subst s t. rewrite digits_value_append, digits_value_zeros.
    apply digits_value_nonneg. exact Hq. }
  assert (Hzero : (String.length s = S d /\ ch s = "0"%char)
                  \/ ch s <> "0"%char).
  { subst s. destruct (S d - String.length t)%nat as [|n] eqn:Hpad.
    - right. simpl. destruct (nonneg_no_leading_zero q) as [H0|H0];
        [|exact H0].
      fold t in H0. rewrite H0 in Hpad. simpl in Hpad. lia.
    - left. split; [|reflexivity].
      rewrite length_append, length_zeros. lia. }
  destruct d as [|d']; [lia|].
  set (d := S d') in *. set (k := (String.length s - d)%nat).
  assert (Hk : (0 < k)%nat) by (subst k; lia).
  exists (substring 0 k s), (substring k d s).
  split; [reflexivity|]. split.
  { intros Hempty.
    assert (Hl : String.length (substring 0 k s) = k)
      by (apply length_substring; lia).
    rewrite Hempty in Hl. simpl in Hl. lia. }
  split; [apply all_chars_substring; exact Hdig|]. split.
  { destruct Hzero as [[Hl H0]|H0].
    - left. assert (Hk1 : k = 1%nat) by (subst k; lia). rewrite Hk1.
      destruct s as [|c s']; [simpl in Hl; lia|]. simpl in H0. subst c.
      simpl. destruct s'; reflexivity.
    - right. rewrite ch_substring by exact Hk. exact H0. }
  split; [apply length_substring; subst k; lia|].
  split; [apply all_chars_substring; exact Hdig|].
  replace d with (String.length s - k)%nat at 1 by (subst k; lia).
  rewrite substring_split by (subst k; lia). exact Hval.
Qed.

Lemma decimal_text_fixed_point d q s : decimal_text d q s -> fixed_point d s.
Proof.
  intros (ip & fp & Hs & Hne & Hd & _ & Hl & Hf & _).
  exists ip, fp. auto.
Qed.

(** What [update_page] formats for the initial [0] and for a finite
    float. *)
Lemma num_str_finite v u :
  (v = PyInt 0 \/ exists f, v = PyFloat f /\ is_finite f) ->
  exists neg q mag,
    lt_zero v = Ok neg
    /\ nearest_count (decimals u) v q
    /\ decimal_text (decimals u) q mag
    /\ num_str v u = Ok (sign_of neg ++ mag ++ " " ++ u).
Proof.
  pose proof (decimals_pos u) as Hd.
  intros [-> | (f & -> & Hf)].
  - exists false, 0, (fixed_of_scaled (decimals u) 0).
    split; [reflexivity|]. split; [reflexivity|].
    split; [apply fixed_of_scaled_text; [exact Hd|lia]|reflexivity].
  - destruct f as [s|s| |s m e]; simpl in Hf; try contradiction.
    + exists false, 0, (fixed_of_scaled (decimals u) 0).
      split; [destruct s; reflexivity|]. split; [reflexivity|].
      split; [apply fixed_of_scaled_text; [exact Hd|lia]|].
      destruct s; reflexivity.
    + exists s, (scaled (decimals u) m e),
        (fixed_of_scaled (decimals u) (scaled (decimals u) m e)).
      split; [destruct s; reflexivity|]. split.
      * unfold nearest_count, scaled. split.
        -- intros He. apply Z.leb_le in He. rewrite He. reflexivity.
        -- intros He.
           assert (H : (0 <=? e) = false) by (apply Z.leb_gt; exact He).
           rewrite H. apply round_half_even_near.
           apply Z.pow_pos_nonneg; lia.
      * split; [apply fixed_of_scaled_text; [exact Hd|apply scaled_nonneg]|].
        destruct s; reflexivity.
Qed.

(** C6, amended: a finite stored number (the initial 0 or a finite float)
    is written as its sign character (['-'] below zero, a blank otherwise),
    its magnitude in fixed point, a blank and the unit, and [update_page]
    paints that text.  The magnitude is the decimal writing, with 2
    decimals for the unit ["mm"] and 4 for ["in"] and without a superfluous
    zero in front, of the count of units of [10^-d] nearest to the
    magnitude of the number, the even count on a tie.  12.3 with ["mm"]
    gives [" 12.30 mm"], -0.5 with ["in"] gives ["-0.5000 in"]. *)
Theorem C6_finite_reading_in_fixed_point s :
  (number s = PyInt 0 \/ exists f, number s = PyFloat f /\ is_finite f) ->
  (exists neg q mag,
     lt_zero (number s) = Ok neg
     /\ nearest_count (decimals (unit s)) (number s) q
     /\ decimal_text (decimals (unit s)) q mag
     /\ fixed_point (decimals (unit s)) mag
     /\ num_str (number s) (unit s) = Ok (sign_of neg ++ mag ++ " " ++ unit s)
     /\ update_page s
        = paint (sign_of neg ++ mag ++ " " ++ unit s)
                (set_color_pair (pair_for neg s) s))
  /\ decimals "mm" = 2%nat /\ decimals "in" = 4%nat
  /\ float_of_str "12.3" = Ok twelve_point_three
  /\ num_str (PyFloat twelve_point_three) "mm" = Ok " 12.30 mm"
  /\ float_of_str "-0.5" = Ok minus_half
  /\ num_str (PyFloat minus_half) "in" = Ok "-0.5000 in".
Proof.
  intros Hv.
  split; [|repeat split; vm_compute; reflexivity].
  destruct (num_str_finite (number s) (unit s) Hv)
    as (neg & q & mag & Hneg & Hq & Hmag & Hstr).
  exists neg, q, mag. split; [exact Hneg|]. split; [exact Hq|].
  split; [exact Hmag|].
  split; [exact (decimal_text_fixed_point _ _ _ Hmag)|].
  split; [exact Hstr|].
  rewrite update_page_num_str, Hneg, Hstr. reflexivity.
Qed.

Definition half_inch_below : IndicatorDisplay :=
  set_reading (PyFloat minus_half) "in" (init terminal).

Lemma C6_witness :
  (number half_inch_below = PyInt 0
   \/ exists f, number half_inch_below = PyFloat f /\ is_finite f)
  /\ exists neg q mag,
     lt_zero (number half_inch_below) = Ok neg
     /\ nearest_count (decimals (unit half_inch_below))
          (number half_inch_below) q
     /\ decimal_text (decimals (unit half_inch_below)) q mag
     /\ fixed_point (decimals (unit half_inch_below)) mag
     /\ num_str (number half_inch_below) (unit half_inch_below)
        = Ok (sign_of neg ++ mag ++ " " ++ unit half_inch_below)
     /\ update_page half_inch_below
        = paint (sign_of neg ++ mag ++ " " ++ unit half_inch_below)
                (set_color_pair (pair_for neg half_inch_below)
                                half_inch_below).
Proof.
  assert (H : number half_inch_below = PyInt 0
              \/ exists f, number half_inch_below = PyFloat f
                           /\ is_finite f).
  { right. exists minus_half. split; [reflexivity|exact I]. }
  split; [exact H|].
  exact (proj1 (C6_finite_reading_in_fixed_point half_inch_below H)).
Defined.

(* ================================================================== *)
(** * Further properties *)
(* ================================================================== *)

(** ** What the pattern accepts *)

Section Soundness.
Variables (p : ascii -> bool) (k : string -> option (list string)).

Lemma take_one_sound s ws :
  take_one p k s = Some ws ->
  exists c rest ws',
    s = String c rest /\ p c = true /\ ws = String c "" :: ws'
    /\ k rest = Some ws'.
Proof.
  destruct s as [|c s]; simpl; [discriminate|].
  destruct (p c) eqn:Hc; [|discriminate].
  destruct (k s) as [ws'|] eqn:Hk; simpl; [|discriminate].
  intros H. inversion H; subst. exists c, s, ws'. auto.
Qed.

(** Whatever [plus] answers, it consumed a run of the class and the rest of
    the pattern accepted what follows. *)
Lemma plus_sound s : forall ws,
  plus p k s = Some ws ->
  exists w rest ws',
    ws = w :: ws' /\ s = w ++ rest /\ w <> "" /\ all_chars p w = true
    /\ k rest = Some ws'.
Proof.
  induction s as [|c s IH]; intros ws; simpl; [discriminate|].
  destruct (p c) eqn:Hc; [|discriminate].
  destruct (plus p k s) as [[|w ws0]|] eqn:Hp.
  - destruct (IH _ eq_refl) as (w & rest & ws' & Hws & _). discriminate Hws.
  - intros H. inversion H; subst ws.
    destruct (IH _ eq_refl) as (w' & rest & ws' & Hws & Hs & Hne & Hall & Hk).
    inversion Hws; subst w' ws'. exists (String c w), rest, ws0.
    split; [reflexivity|]. split; [simpl; rewrite Hs; reflexivity|].
    split; [discriminate|]. split; [simpl; rewrite Hc; exact Hall|exact Hk].
  - destruct (k s) as [ws'|] eqn:Hk; simpl; [|discriminate].
    intros H. inversion H; subst ws. exists (String c ""), s, ws'.
    split; [reflexivity|]. split; [reflexivity|]. split; [discriminate|].
    split; [simpl; rewrite Hc; reflexivity|exact Hk].
Qed.

End Soundness.

(** The longest prefix of [s] in the class [p], and what follows it. *)
Fixpoint span (p : ascii -> bool) (s : string) : string * string :=
  match s with
  | String c s' =>
    if p c then let '(w, rest) := span p s' in (String c w, rest)
    else (EmptyString, s)
  | EmptyString => (EmptyString, EmptyString)
  end.

Lemma span_spec p s :
  s = fst (span p s) ++ snd (span p s)
  /\ all_chars p (fst (span p s)) = true
  /\ (snd (span p s) = "" \/ p (ch (snd (span p s))) = false).
Proof.
  induction s as [|c s (IH1 & IH2 & IH3)]; simpl; [auto|].
  destruct (p c) eqn:Hc.
  - destruct (span p s) as [w rest]; simpl in *.
    split; [congruence|]. split; [rewrite Hc; exact IH2|exact IH3].
  - simpl. split; [reflexivity|]. split; [reflexivity|]. right. exact Hc.
Qed.

Lemma lit_eq c d : lit c d = true -> d = c.
Proof. unfold lit. intros H. apply Ascii.eqb_eq in H. congruence. Qed.

(** A line that [INDICATOR_RE] matches begins with a measurement. *)
Lemma match_items_sound line ws :
  match_items INDICATOR_RE line = Some ws ->
  exists m, well_formed m /\ line = text m.
Proof.
  unfold INDICATOR_RE. rewrite match_items_cons. cbn [rep cls].
  set (r2 := Item class_d Plus (Some "number")
             :: Item (lit ".") One (Some "number")
             :: Item class_d Plus (Some "number")
             :: Item class_s Plus None
             :: [Item class_S Plus (Some "unit")]).
  assert (Hbody : forall s ws2,
    match_items r2 s = Some ws2 ->
    exists ip fp bl tok rest,
      s = ip ++ "." ++ fp ++ bl ++ tok ++ rest
      /\ ip <> "" /\ all_chars is_digit ip = true
      /\ fp <> "" /\ all_chars is_digit fp = true
      /\ bl <> "" /\ all_chars class_s bl = true
      /\ tok <> "" /\ all_chars class_S tok = true).
  { intros s ws2 H. subst r2.
    rewrite match_items_cons in H. cbn [rep cls] in H.
    apply plus_sound in H.
    destruct H as (ip & s1 & ws3 & _ & Hs & Hip & Hipd & H).
    rewrite match_items_cons in H. cbn [rep cls] in H.
    apply take_one_sound in H.
    destruct H as (dot & s2 & ws4 & Hs1 & Hdot & _ & H).
    apply lit_eq in Hdot. subst dot.
    rewrite match_items_cons in H. cbn [rep cls] in H.
    apply plus_sound in H.
    destruct H as (fp & s3 & ws5 & _ & Hs2 & Hfp & Hfpd & H).
    rewrite match_items_cons in H. cbn [rep cls] in H.
    apply plus_sound in H.
    destruct H as (bl & s4 & ws6 & _ & Hs3 & Hbl & Hbls & H).
    rewrite match_items_cons in H. cbn [rep cls] in H.
    apply plus_sound in H.
    destruct H as (tok & rest & ws7 & _ & Hs4 & Htok & Htoks & _).
    exists ip, fp, bl, tok, rest. subst s s1 s2 s3 s4.
    split; [reflexivity|]. auto 10. }
  assert (Hwhole : forall sg s ws2,
    (sg = "" \/ sg = "-") -> match_items r2 s = Some ws2 ->
    exists m, well_formed m /\ sg ++ s = text m).
  { intros sg s ws2 Hsg H.
    destruct (Hbody s ws2 H)
      as (ip & fp & bl & tok & rest & Hs & Hip & Hipd & Hfp & Hfpd & Hbl
          & Hbls & Htok & Htoks).
    destruct (span_spec class_S rest) as (Hrest & Hall & Hstop).
    exists (Measurement sg ip fp bl (tok ++ fst (span class_S rest))
                        (snd (span class_S rest))).
    split.
    - unfold well_formed. cbn [m_sign m_int m_frac m_blank m_unit m_rest].
      split; [exact Hsg|]. split; [exact Hip|]. split; [exact Hipd|].
      split; [exact Hfp|]. split; [exact Hfpd|]. split; [exact Hbl|].
      split; [exact Hbls|].
      split; [destruct tok; [congruence|discriminate]|].
      split; [rewrite all_chars_append, Htoks, Hall; reflexivity|].
      destruct Hstop as [H0|H0]; [left; exact H0|right].
      apply negb_false_iff. exact H0.
    - unfold text. cbn [m_sign m_int m_frac m_blank m_unit m_rest].
      rewrite Hs. rewrite (append_assoc tok). rewrite <- Hrest.
      reflexivity. }
  destruct (take_one (lit "-") (match_items r2) line) as [ws1|] eqn:H1.
  - intros _. apply take_one_sound in H1.
    destruct H1 as (c & s & ws2 & Hline & Hc & _ & H).
    apply lit_eq in Hc. subst c line.
    apply (Hwhole "-" s ws2); auto.
  - destruct (match_items r2 line) as [ws2|] eqn:H2; simpl; [|discriminate].
    intros _. apply (Hwhole "" line ws2); auto.
Qed.

Lemma re_match_sound line mo :
  re_match INDICATOR_RE line = Some mo ->
  exists m, well_formed m /\ line = text m.
Proof.
  unfold re_match. destruct (match_items INDICATOR_RE line) as [ws|] eqn:H;
    [|discriminate].
  intros _. exact (match_items_sound line ws H).
Qed.

(** X1: [INDICATOR_RE.match] accepts exactly the lines that begin with a
    measurement: an optional minus, digits, a dot, digits, blanks and a token
    of non-blanks, followed by nothing or by a blank. *)
Theorem X1_pattern_accepts_exactly_measurements line :
  is_ascii line = true ->
  ((exists mo, re_match INDICATOR_RE line = Some mo)
   <-> (exists m, well_formed m /\ line = text m)).
Proof.
  intros _. split.
  - intros [mo H]. exact (re_match_sound line mo H).
  - intros (m & Hm & ->). destruct (groups_measurement m Hm) as (mo & H & _).
    exists mo. exact H.
Qed.

Lemma X1_witness :
  is_ascii ("12.34 mm" ++ LF) = true
  /\ ((exists mo, re_match INDICATOR_RE ("12.34 mm" ++ LF) = Some mo)
      <-> (exists m, well_formed m /\ "12.34 mm" ++ LF = text m)).
Proof.
  assert (H : is_ascii ("12.34 mm" ++ LF) = true) by reflexivity.
  split; [exact H|].
  exact (X1_pattern_accepts_exactly_measurements ("12.34 mm" ++ LF) H).
Defined.

(** X2: [display_number] has two outcomes only.  On a line that begins with
    a measurement it stores the float of the literal and the unit and
    returns; on any other line it stores the sentinel and raises
    [TypeError].  No line makes [float] raise [ValueError], and no line
    lets a [curses.error] out. *)
Theorem X2_display_number_has_two_outcomes r c line self :
  is_ascii line = true ->
  sized r c (stdscr self) -> has_glyphs (char_set self) ->
  (exists m s',
     well_formed m /\ line = text m
     /\ display_number line self = (Ok tt, s')
     /\ number s' = PyFloat (literal_value m)
     /\ unit s' = unit_of (m_unit m))
  \/ ((~ exists m, well_formed m /\ line = text m)
      /\ display_number line self
         = (Raise TypeError, set_reading (PyStr "9.999") "xx" self)).
Proof.
  intros _ Hs Hg. destruct (re_match INDICATOR_RE line) as [mo|] eqn:Hm.
  - left. destruct (re_match_sound line mo Hm) as (m & Hwf & Hline).
    subst line.
    destruct (groups_measurement m Hwf) as (mo' & Hmo' & Hnum & Hunit).
    rewrite Hm in Hmo'. inversion Hmo'; subst mo'.
    pose proof (float_of_literal m Hwf) as Hf. rewrite <- Hnum in Hf.
    destruct (display_number_match r c (text m) mo _ self Hm Hf Hs)
      as (Hn & Hu & _ & _ & _ & _ & Hok).
    specialize (Hok Hg).
    destruct (display_number (text m) self) as [o s'] eqn:Hd.
    simpl in *. subst o. exists m, s'. rewrite Hunit in Hu. auto.
  - right. split.
    + intros (m & Hwf & ->).
      destruct (groups_measurement m Hwf) as (mo & Hmo & _). congruence.
    + apply display_number_no_match. exact Hm.
Qed.

Lemma X2_witness :
  is_ascii "-0.5 in" = true
  /\ sized 24 80 (stdscr (init terminal))
  /\ has_glyphs (char_set (init terminal))
  /\ ((exists m s',
         well_formed m /\ "-0.5 in" = text m
         /\ display_number "-0.5 in" (init terminal) = (Ok tt, s')
         /\ number s' = PyFloat (literal_value m)
         /\ unit s' = unit_of (m_unit m))
      \/ ((~ exists m, well_formed m /\ "-0.5 in" = text m)
          /\ display_number "-0.5 in" (init terminal)
             = (Raise TypeError,
                set_reading (PyStr "9.999") "xx" (init terminal)))).
Proof.
  assert (Hs : sized 24 80 (stdscr (init terminal))).
  { unfold sized, Curses.wf; simpl; lia. }
  assert (Hg : has_glyphs (char_set (init terminal))).
  { split; vm_compute; discriminate. }
  split; [reflexivity|]. split; [exact Hs|]. split; [exact Hg|].
  exact (X2_display_number_has_two_outcomes 24 80 "-0.5 in" (init terminal)
           eq_refl Hs Hg).
Defined.

(** ** The sign that is shown *)

(** Rounding keeps the sign it is given. *)
Lemma round_ratio_sign neg n d :
  match round_ratio neg n d with
  | S754_zero s | S754_infinity s | S754_finite s _ _ => s = neg
  | S754_nan => True
  end.
Proof.
  unfold round_ratio. destruct (n <=? 0); [reflexivity|].
  destruct (SFdiv_core_binary prec emax n 0 d 0) as [[mz ez] lz].
  unfold binary_round_aux.
  destruct (shr_fexp prec emax mz ez lz) as [mrs' e'].
  destruct (shr_fexp prec emax _ e' loc_Exact) as [mrs'' e''].
  destruct (shr_m mrs''); [reflexivity| |exact I].
  destruct (e'' <=? emax - prec); reflexivity.
Qed.

Lemma round_ratio_unsigned n d : SFltb (round_ratio false n d) fzero = false.
Proof.
  pose proof (round_ratio_sign false n d) as H.
  destruct (round_ratio false n d) as [s|s| |s m e]; try subst s; reflexivity.
Qed.

Lemma round_ratio_zero neg d : round_ratio neg 0 d = S754_zero neg.
Proof. reflexivity. Qed.





(** ** The digits that are shown *)

(** X4: the text of a finite float [(-1)^s * m * 2^e] is the sign
    character, digits, a dot, as many digits as the unit asks for, a blank
    and the unit, and the digits read back as the count [q] of units of
    [10^-d] nearest to the magnitude: [q = m * 2^e * 10^d] when that is an
    integer, and [|q * 2^-e - m * 10^d| <= 2^-e / 2] otherwise, the even
    count on a tie. *)
Theorem X4_digits_denote_the_nearest_count s m e u :
  exists ip fp,
    num_str (PyFloat (S754_finite s m e)) u
    = Ok (sign_of s ++ (ip ++ "." ++ fp) ++ " " ++ u)
    /\ String.length fp = decimals u
    /\ (let q := digits_value 0 (ip ++ fp) in
        let d := Z.of_nat (decimals u) in
        (0 <= e -> q = Z.pos m * 10 ^ d * 2 ^ e)
        /\ (e < 0 ->
            Z.abs (2 * (q * 2 ^ (- e) - Z.pos m * 10 ^ d)) <= 2 ^ (- e)
            /\ (2 * ((Z.pos m * 10 ^ d) mod 2 ^ (- e)) = 2 ^ (- e) ->
                Z.even q = true)))
    /\ ip <> "" /\ all_chars is_digit ip = true
    /\ all_chars is_digit fp = true.
Proof.
  destruct (fixed_of_scaled_text (decimals u) (scaled (decimals u) m e)
              (decimals_pos u) (scaled_nonneg _ m e))
    as (ip & fp & Htext & Hne & Hipd & _ & Hlen & Hfpd & Hval).
  exists ip, fp. split; [|split; [exact Hlen|split; [|auto]]].
  - unfold num_str. simpl. rewrite Htext.
    destruct s; reflexivity.
  - cbv zeta. rewrite Hval. unfold scaled. split.
    + intros He. apply Z.leb_le in He. rewrite He. reflexivity.
    + intros He. assert (H : (0 <=? e) = false) by (apply Z.leb_gt; exact He).
      rewrite H. apply round_half_even_near. apply Z.pow_pos_nonneg; lia.
Qed.

(** ** Decoding what the serial port delivers *)

Lemma in_range_out lo hi c :
  code c < lo \/ hi < code c -> in_range lo hi c = false.
Proof.
  unfold in_range. intros H. apply andb_false_iff.
  rewrite !Z.leb_gt. lia.
Qed.

Lemma in_range_in lo hi c : in_range lo hi c = true -> lo <= code c <= hi.
Proof.
  unfold in_range. intros H. apply andb_true_iff in H.
  rewrite !Z.leb_le in H. exact H.
Qed.

Lemma ascii_in_range c : is_ascii_char c = true -> in_range 0 127 c = true.
Proof.
  unfold is_ascii_char, in_range, code. intros H. apply Z.ltb_lt in H.
  apply andb_true_iff. rewrite !Z.leb_le. lia.
Qed.

(** ASCII bytes are one character each: validation goes on behind them. *)
Lemma utf8_valid_ascii_prefix pre : forall tail fuel,
  is_ascii pre = true ->
  utf8_valid (String.length pre + fuel) (list_ascii_of_string pre ++ tail)
  = utf8_valid fuel tail.
Proof.
  induction pre as [|c pre IH]; intros tail fuel H; [reflexivity|].
  simpl in H. apply andb_true_iff in H. destruct H as [Hc Hpre].
  cbn [String.length Nat.add list_ascii_of_string app utf8_valid].
  rewrite (ascii_in_range c Hc). apply IH. exact Hpre.
Qed.

Lemma length_list_ascii s :
  List.length (list_ascii_of_string s) = String.length s.
Proof. induction s as [|c s IH]; simpl; congruence. Qed.

Lemma string_of_list_ascii_app s : forall tail,
  string_of_list_ascii (list_ascii_of_string s ++ tail)
  = s ++ string_of_list_ascii tail.
Proof. induction s as [|c s IH]; intros tail; simpl; congruence. Qed.

Lemma decode_behind_ascii pre tail :
  is_ascii pre = true ->
  decode_utf8 (list_ascii_of_string pre ++ tail)
  = if utf8_valid (List.length tail) tail
    then Ok (pre ++ string_of_list_ascii tail)
    else Raise UnicodeDecodeError.
Proof.
  intros H. unfold decode_utf8.
  rewrite length_app, length_list_ascii, (utf8_valid_ascii_prefix pre _ _ H).
  rewrite string_of_list_ascii_app. reflexivity.
Qed.

(** ASCII text decodes to itself. *)
Lemma decode_ascii s : is_ascii s = true -> decode_utf8 (serial s) = Ok s.
Proof.
  intros H. unfold serial.
  rewrite <- (app_nil_r (list_ascii_of_string s)).
  rewrite (decode_behind_ascii s [] H). simpl. rewrite append_nil_r.
  reflexivity.
Qed.

Lemma turn_decode_error chars e s :
  decode_utf8 chars = Raise e ->
  Reader.turn (Reader.SerialReady chars) s = (Raise e, s).
Proof.
  intros H. destruct chars as [|c chars]; [vm_compute in H; discriminate|].
  unfold Reader.turn. unfold bind at 1. unfold bind at 1. unfold lift.
  rewrite H. reflexivity.
Qed.

(** X5: a reading that arrives in two pieces is handled as if it had
    arrived in one: the first piece, which does not end the line, is kept
    in the buffer, and the second completes it. *)
Theorem X5_split_line_is_reassembled a b s :
  is_ascii a = true -> is_ascii b = true ->
  endswith (Reader.line s ++ a) LF = false ->
  Reader.turns [Reader.SerialReady (serial a); Reader.SerialReady (serial b)] s
  = Reader.turns [Reader.SerialReady (serial (a ++ b))] s.
Proof.
  intros Ha Hb Hend.
  assert (Hab : is_ascii (a ++ b) = true).
  { clear Hend. induction a as [|c a IH]; simpl in *; [exact Hb|].
    apply andb_true_iff in Ha. destruct Ha as [Hc Ha].
    rewrite Hc. apply IH. exact Ha. }
  cbn [Reader.turns]. unfold bind at 1.
  rewrite (turn_serial _ a s (decode_ascii a Ha)). cbv zeta. rewrite Hend.
  cbv iota beta. unfold bind.
  rewrite (turn_serial _ b _ (decode_ascii b Hb)).
  rewrite (turn_serial _ (a ++ b) s (decode_ascii (a ++ b) Hab)).
  destruct s as [l d cs]. cbn [Reader.line Reader.id Reader.calls
                               Reader.set_line].
  rewrite append_assoc. reflexivity.
Qed.

Lemma X5_witness :
  let s := Reader.Loop "" (init terminal) [] in
  is_ascii "12.3" = true /\ is_ascii ("4 mm" ++ LF) = true
  /\ endswith (Reader.line s ++ "12.3") LF = false
  /\ Reader.turns [Reader.SerialReady (serial "12.3");
                   Reader.SerialReady (serial ("4 mm" ++ LF))] s
     = Reader.turns [Reader.SerialReady (serial ("12.3" ++ "4 mm" ++ LF))] s.
Proof.
  intros s. split; [reflexivity|]. split; [reflexivity|].
  split; [reflexivity|].
  exact (X5_split_line_is_reassembled "12.3" ("4 mm" ++ LF) s
           eq_refl eq_refl eq_refl).
Defined.

(** X6: the bytes are decoded piece by piece.  A piece that ends between
    the two bytes of a character makes the turn raise [UnicodeDecodeError]
    and leaves the buffer and the display as they were, although the same
    bytes followed by the second byte of the character decode. *)
Theorem X6_piece_ending_inside_a_character pre c0 c1 s :
  is_ascii pre = true -> in_range 194 223 c0 = true -> cont c1 = true ->
  decode_utf8 (serial pre ++ [c0; c1])
  = Ok (pre ++ String c0 (String c1 ""))
  /\ Reader.turn (Reader.SerialReady (serial pre ++ [c0])) s
     = (Raise UnicodeDecodeError, s).
Proof.
  intros Hpre H0 H1.
  assert (Hlow : in_range 0 127 c0 = false).
  { apply in_range_out. apply in_range_in in H0. lia. }
  split.
  - unfold serial. rewrite (decode_behind_ascii pre _ Hpre).
    cbn [List.length utf8_valid]. rewrite Hlow, H0, H1. reflexivity.
  - apply turn_decode_error. unfold serial.
    rewrite (decode_behind_ascii pre _ Hpre).
    cbn [List.length utf8_valid]. rewrite Hlow, H0. reflexivity.
Qed.

Lemma X6_witness :
  let c0 := ascii_of_nat 194 in
  let c1 := ascii_of_nat 176 in
  is_ascii "21.5 " = true /\ in_range 194 223 c0 = true /\ cont c1 = true
  /\ Reader.turn (Reader.SerialReady (serial "21.5 " ++ [c0]))
       (Reader.Loop "" (init terminal) [])
     = (Raise UnicodeDecodeError, Reader.Loop "" (init terminal) []).
Proof.
  intros c0 c1. split; [reflexivity|]. split; [reflexivity|].
  split; [reflexivity|].
  exact (proj2 (X6_piece_ending_inside_a_character "21.5 " c0 c1
                  (Reader.Loop "" (init terminal) [])
                  eq_refl eq_refl eq_refl)).
Defined.

(** ** The keys *)

Lemma turn_serial_goes_on chars s :
  fst (Reader.turn (Reader.SerialReady chars) s) <> Ok true.
Proof.
  destruct (decode_utf8 chars) as [txt|e] eqn:Hd.
  - rewrite (turn_serial chars txt s Hd). cbv zeta.
    destruct (endswith (Reader.line s ++ txt) LF); [|discriminate].
    destruct (display_number _ _) as [[[]|e] d]; discriminate.
  - rewrite (turn_decode_error chars e s Hd). discriminate.
Qed.

Lemma quit_key c :
  (code c <? 32) && ((code c =? Curses.ESC) || (code c =? Curses.EOT)) = true
  <-> code c = 27 \/ code c = 4.
Proof.
  unfold Curses.ESC, Curses.EOT.
  rewrite andb_true_iff, orb_true_iff, Z.ltb_lt, !Z.eqb_eq. lia.
Qed.

Lemma get_input_stops w self :
  fst (get_input w self) = Ok true
  <-> exists c, w = WChar c /\ (code c = 27 \/ code c = 4).
Proof.
  destruct w as [|c|k].
  - simpl. split; [discriminate|intros (c & H & _); discriminate].
  - cbn [get_input].
    destruct ((code c <? 32)
              && ((code c =? Curses.ESC) || (code c =? Curses.EOT))) eqn:Hq.
    + apply quit_key in Hq. split; [|reflexivity].
      intros _. exists c. auto.
    + split; [discriminate|]. intros (c' & H & Hc). inversion H; subst c'.
      apply quit_key in Hc. congruence.
  - split; [|intros (c & H & _); discriminate].
    intros H. exfalso. revert H.
    destruct k as [|p|p]; cbn [get_input]; [discriminate| |];
      unfold bind;
      match goal with
      | |- context [?m self] =>
        lazymatch m with
        | ret _ => fail
        | _ => destruct (m self) as [[[]|e] s']; discriminate
        end
      end.
Qed.

(** X7: how a turn leaves the loop.  It leaves it by [break] exactly when
    [get_wch] delivered the escape character (27) or the end-of-transmission
    character (4): no other key, and nothing that the serial port delivers,
    makes it break.  What the serial port delivers leaves the loop by an
    exception or not at all: a read that fails raises [IOError]; bytes
    that do not decode raise [UnicodeDecodeError]; bytes that complete a
    line raise what [display_number] raises on that line, which is
    [TypeError] for an ASCII line that the pattern does not match, and
    answer [False] when it returns; bytes that do not complete a line answer
    [False]. *)
Theorem X7_how_a_turn_leaves_the_loop s :
  (forall e,
     fst (Reader.turn e s) = Ok true
     <-> exists c, e = Reader.InputReady (WChar c)
                   /\ (code c = 27 \/ code c = 4))
  /\ (forall msg,
      Reader.turn (Reader.SerialFails msg) s = (Raise (IOError msg), s))
  /\ (forall chars x,
      decode_utf8 chars = Raise x ->
      Reader.turn (Reader.SerialReady chars) s = (Raise x, s))
  /\ (forall chars txt,
      decode_utf8 chars = Ok txt ->
      let buffer := Reader.line s ++ txt in
      fst (Reader.turn (Reader.SerialReady chars) s)
      = if endswith buffer LF
        then match fst (display_number buffer (Reader.id s)) with
             | Ok _ => Ok false
             | Raise x => Raise x
             end
        else Ok false)
  /\ (forall chars txt,
      decode_utf8 chars = Ok txt ->
      is_ascii (Reader.line s ++ txt) = true ->
      endswith (Reader.line s ++ txt) LF = true ->
      re_match INDICATOR_RE (Reader.line s ++ txt) = None ->
      fst (Reader.turn (Reader.SerialReady chars) s) = Raise TypeError).
Proof.
  split; [|split; [|split; [|split]]].
  - intros e. destruct e as [chars|msg|w].
    + split; [|intros (c & H & _); discriminate].
      intros H. exfalso. exact (turn_serial_goes_on chars s H).
    + split; [discriminate|intros (c & H & _); discriminate].
    + cbn [Reader.turn]. unfold Reader.on_id, zoom.
      assert (Hfst : fst (let '(o, t) := get_input w (Reader.id s) in
                          (o, Reader.set_id t s))
                     = fst (get_input w (Reader.id s))).
      { destruct (get_input w (Reader.id s)); reflexivity. }
      rewrite Hfst, get_input_stops. split.
      * intros (c & -> & Hc). exists c. auto.
      * intros (c & H & Hc). inversion H; subst w. exists c. auto.
  - intros msg. reflexivity.
  - intros chars x Hd. exact (turn_decode_error chars x s Hd).
  - intros chars txt Hd buffer. subst buffer.
    rewrite (turn_serial chars txt s Hd). cbv zeta.
    destruct (endswith (Reader.line s ++ txt) LF); [|reflexivity].
    destruct (display_number _ _) as [[[]|x] d]; reflexivity.
  - intros chars txt Hd _ Hend Hno.
    rewrite (turn_serial chars txt s Hd). cbv zeta. rewrite Hend.
    rewrite (display_number_no_match _ _ Hno). reflexivity.
Qed.

(** The display as the loop keeps it: a screen with the cursor inside, a
    reading, a font and a fill symbol of the module. *)
Definition ready (r c : Z) (s : IndicatorDisplay) : Prop :=
  sized r c (stdscr s) /\ is_reading (number s)
  /\ In (char_set s) CHAR_SETS /\ In (base_char s) BASE_CHARACTERS.

Lemma get_input_ready r c w s :
  ready r c s ->
  exists b s',
    get_input w s = (Ok b, s') /\ ready r c s'
    /\ number s' = number s /\ unit s' = unit s.
Proof.
  intros (Hs & Hn & Hcs & Hb).
  assert (Hg : has_glyphs (char_set s))
    by (apply char_sets_have_glyphs; exact Hcs).
  destruct w as [|ch|k].
  - exists false, s. unfold ready. auto 10.
  - cbn [get_input].
    destruct ((code ch <? 32) && _); [exists true|exists false]; exists s;
      unfold ready; auto 10.
  - destruct k as [|p|p]; cbn [get_input];
      [exists false, s; unfold ready; auto 10| |].
    + unfold bind at 1.
      destruct (Z.pos p =? Curses.KEY_RESIZE);
        [|destruct (Z.pos p =? Curses.KEY_F1);
          [|destruct (Z.pos p =? Curses.KEY_F2)]].
      * destruct (update_page_returns r c s Hs Hn Hg)
          as (neg & s' & Hup & _ & Hfr & _ & Hs').
        rewrite Hup. exists false, s'. split; [reflexivity|].
        destruct Hfr as (_ & _ & H3 & H4 & H5 & H6).
        unfold ready. rewrite H3, H4, H5. auto 10.
      * destruct (In_nth_error_lt _ _ Hcs) as (i & Hi & Hnth).
        destruct (handle_f1_step r c s i Hs Hn Hi Hnth)
          as (s' & Hrun & Hnth' & Hs' & Hn' & Hu' & Hb' & _).
        rewrite Hrun. exists false, s'. split; [reflexivity|].
        unfold ready. rewrite Hn', Hb'.
        apply nth_error_In in Hnth'. auto 10.
      * destruct (In_nth_error_lt _ _ Hb) as (i & Hi & Hnth).
        destruct (handle_f2_step r c s i Hs Hn Hg Hi Hnth)
          as (s' & Hrun & Hnth' & _ & Hs' & Hn' & Hu' & Hc').
        rewrite Hrun. exists false, s'. split; [reflexivity|].
        unfold ready. rewrite Hn', Hc'.
        apply nth_error_In in Hnth'. auto 10.
      * exists false, s. unfold ready. auto 10.
    + exists false, s. unfold ready. auto 10.
Qed.

(** X8: whatever [get_wch] answers, [get_input] returns without raising,
    leaves the reading and its unit as they are, and leaves a display that
    the next event finds in order: a window of the same size with the
    cursor inside, a font of [CHAR_SETS] and a fill symbol of
    [BASE_CHARACTERS]. *)
Theorem X8_keys_never_fail_nor_change_the_reading r c w s :
  ready r c s ->
  exists b s',
    get_input w s = (Ok b, s') /\ ready r c s'
    /\ number s' = number s /\ unit s' = unit s.
Proof. apply get_input_ready. Qed.

Lemma ready_init r c w : sized r c w -> ready r c (init w).
Proof.
  intros H. unfold ready. split; [exact H|]. split; [reflexivity|].
  split; [left; reflexivity|]. do 4 right. left. reflexivity.
Qed.

Lemma X8_witness :
  ready 24 80 (init terminal)
  /\ exists b s',
    get_input (WKey Curses.KEY_F2) (init terminal) = (Ok b, s')
    /\ ready 24 80 s'
    /\ number s' = number (init terminal) /\ unit s' = unit (init terminal).
Proof.
  assert (H : ready 24 80 (init terminal)).
  { unfold ready, sized, Curses.wf. simpl.
    split; [lia|]. split; [reflexivity|]. split; [left; reflexivity|].
    do 4 right. left. reflexivity. }
  split; [exact H|].
  exact (X8_keys_never_fail_nor_change_the_reading 24 80
           (WKey Curses.KEY_F2) (init terminal) H).
Defined.

(** ** A session *)

(** What a session leaves behind once the display is built, in order. *)
Definition started (port : string) (baudrate : Z) (monitor : string)
  : list Reader.effect :=
  [Reader.OpenSerial port baudrate; Reader.InitScr;
   Reader.Print "Connected to: "; Reader.Print (monitor ++ Reader.newline)].

(** What it leaves behind once the loop has ended. *)
Definition session (port : string) (baudrate : Z) (monitor : string)
  : list Reader.effect :=
  (started port baudrate monitor ++ [Reader.EndWin; Reader.CloseSerial])%list.

(** How the loop of the session stands when the events are used up. *)
Definition loop_outcome (E : Reader.env) : outcome bool :=
  fst (Reader.turns (Reader.arrivals E)
         (Reader.Loop "" (init (Reader.initscr E)) [])).

Lemma select_loop_opened E port baudrate monitor p0 :
  Reader.serial_Serial E port baudrate = Ok monitor ->
  Reader.select_loop E port baudrate p0 =
  match Reader.setup E with
  | Raise (IOError msg) =>
    (Raise (SystemExit (-1)),
     (p0 ++ [Reader.OpenSerial port baudrate; Reader.InitScr;
             Reader.CloseSerial;
             Reader.Print ("Problem opening monitor:  " ++ msg
                           ++ Reader.newline)])%list)
  | Raise e =>
    (Raise e,
     (p0 ++ [Reader.OpenSerial port baudrate; Reader.InitScr;
             Reader.CloseSerial])%list)
  | Ok _ =>
    match loop_outcome E with
    | Ok true => (Ok Reader.Returns, (p0 ++ session port baudrate monitor)%list)
    | Ok false => (Ok Reader.Waits, (p0 ++ started port baudrate monitor)%list)
    | Raise (IOError msg) =>
      (Raise (SystemExit (-1)),
       (p0 ++ session port baudrate monitor
           ++ [Reader.Print ("Problem opening monitor:  " ++ msg
                             ++ Reader.newline)])%list)
    | Raise e => (Raise e, (p0 ++ session port baudrate monitor)%list)
    end
  end.
Proof.
  intros Hopen. unfold Reader.select_loop, Reader.on_IOError, loop_outcome.
  unfold bind at 1. unfold Reader.emit at 1, modify at 1.
  unfold bind at 1. unfold lift at 1. rewrite Hopen.
  unfold bind at 1. unfold Reader.emit at 1, modify at 1.
  destruct (Reader.setup E) as [[]|e].
  - unfold bind at 1. unfold Reader.emit at 1, modify at 1.
    unfold bind at 1. unfold Reader.print at 1, Reader.emit at 1, modify at 1.
    destruct (Reader.turns (Reader.arrivals E)
                (Reader.Loop "" (init (Reader.initscr E)) [])) as [o l].
    unfold session, started. cbn [fst].
    destruct o as [[|]|e];
      unfold bind, Reader.emit, modify, ret, raise;
      repeat rewrite <- app_assoc; cbn [app]; try reflexivity.
    destruct e; try reflexivity.
    unfold Reader.print, Reader.emit, modify, bind, raise.
    repeat rewrite <- app_assoc. reflexivity.
  - unfold bind, Reader.emit, modify, raise.
    repeat rewrite <- app_assoc. cbn [app].
    destruct e; try reflexivity.
    unfold Reader.print, Reader.emit, modify, bind, raise.
    repeat rewrite <- app_assoc. reflexivity.
Qed.

(** X9: the port being open, what becomes of the terminal.  When the calls
    of [__init__] succeed and the loop ends, by [break] or by an exception,
    [curses.endwin()] and the closing of the port each happen exactly once,
    in this order, after the start of the screen; the process then ends
    with status 0 after a [break], with status 255 and the message of the
    error when a read raised [IOError], and with the exception of the loop
    otherwise.  When [__init__] raises after [initscr()], the port is closed
    and the exception leaves [select_loop], but [curses.endwin()] is not
    called.  While the loop waits for an event nothing is restored or
    closed, and the process has no exit status. *)
Theorem X9_terminal_is_restored_when_the_loop_ends
    E port baudrate monitor p0 :
  Reader.serial_Serial E port baudrate = Ok monitor ->
  let res := Reader.select_loop E port baudrate p0 in
  (Reader.setup E = Ok tt -> loop_outcome E <> Ok false ->
     (exists tail,
        snd res = (p0 ++ session port baudrate monitor ++ tail)%list
        /\ ~ In Reader.InitScr tail /\ ~ In Reader.EndWin tail
        /\ ~ In Reader.CloseSerial tail)
     /\ (loop_outcome E = Ok true ->
         fst res = Ok Reader.Returns
         /\ Reader.exit_status (fst res) = Some 0)
     /\ (forall msg, loop_outcome E = Raise (IOError msg) ->
         Reader.exit_status (fst res) = Some 255
         /\ snd res
            = (p0 ++ session port baudrate monitor
                  ++ [Reader.Print ("Problem opening monitor:  " ++ msg
                                    ++ Reader.newline)])%list)
     /\ (forall e, loop_outcome E = Raise e ->
         (forall msg, e <> IOError msg) -> fst res = Raise e))
  /\ (Reader.setup E = Ok tt -> loop_outcome E = Ok false ->
      res = (Ok Reader.Waits, (p0 ++ started port baudrate monitor)%list)
      /\ Reader.exit_status (fst res) = None)
  /\ (forall e, Reader.setup E = Raise e -> (forall msg, e <> IOError msg) ->
      res = (Raise e,
             (p0 ++ [Reader.OpenSerial port baudrate; Reader.InitScr;
                     Reader.CloseSerial])%list)
      /\ ~ In Reader.EndWin
             [Reader.OpenSerial port baudrate; Reader.InitScr;
              Reader.CloseSerial]).
Proof.
  intros Hopen res. subst res.
  rewrite (select_loop_opened E port baudrate monitor p0 Hopen).
  split; [|split].
  - intros Hsetup Hends. rewrite Hsetup.
    split; [|split; [|split]].
    + destruct (loop_outcome E) as [[|]|e].
      * exists []. rewrite app_nil_r. simpl. tauto.
      * congruence.
      * destruct e;
          try (exists []; rewrite app_nil_r; simpl; tauto).
        eexists. split; [reflexivity|]. simpl.
        repeat split; intros [H|[]]; discriminate.
    + intros H. rewrite H. split; reflexivity.
    + intros msg H. rewrite H. split; reflexivity.
    + intros e H Hno. rewrite H. destruct e; try reflexivity.
      exfalso. exact (Hno msg eq_refl).
  - intros Hsetup Hwaits. rewrite Hsetup, Hwaits. split; reflexivity.
  - intros e Hsetup Hno. rewrite Hsetup. split.
    + destruct e; try reflexivity. exfalso. exact (Hno msg eq_refl).
    + simpl. intros [H|[H|[H|[]]]]; discriminate.
Qed.

(** One byte at a time, as the port delivers them. *)
Definition byte_by_byte (s : string) : list Reader.event :=
  map (fun c => Reader.SerialReady [c]) (list_ascii_of_string s).

Definition bytes_then_escape : Reader.env :=
  Reader.Env [("/dev/ttyUSB0", "a", "b")]
             (fun _ _ => Ok "Serial<id=0x1, open=True>")
             terminal (Ok tt)
             (byte_by_byte ("12.34 mm" ++ LF)
              ++ [Reader.InputReady (WChar (ascii_of_nat 27))]).

Definition colourless_terminal : Reader.env :=
  Reader.Env [("/dev/ttyUSB0", "a", "b")]
             (fun _ _ => Ok "Serial<id=0x1, open=True>")
             terminal (Raise curses_error) [].

Lemma X9_witness :
  Reader.serial_Serial bytes_then_escape "/dev/ttyUSB0" 115200
  = Ok "Serial<id=0x1, open=True>"
  /\ Reader.setup bytes_then_escape = Ok tt
  /\ loop_outcome bytes_then_escape = Ok true
  /\ fst (Reader.select_loop bytes_then_escape "/dev/ttyUSB0" 115200 [])
     = Ok Reader.Returns
  /\ Reader.setup colourless_terminal = Raise curses_error
  /\ Reader.select_loop colourless_terminal "/dev/ttyUSB0" 115200 []
     = (Raise curses_error,
        [Reader.OpenSerial "/dev/ttyUSB0" 115200; Reader.InitScr;
         Reader.CloseSerial]).
Proof.
  assert (H : Reader.serial_Serial bytes_then_escape "/dev/ttyUSB0" 115200
              = Ok "Serial<id=0x1, open=True>") by reflexivity.
  assert (Hs : Reader.setup bytes_then_escape = Ok tt) by reflexivity.
  assert (Hl : loop_outcome bytes_then_escape = Ok true)
    by (vm_compute; reflexivity).
  assert (Hne : loop_outcome bytes_then_escape <> Ok false)
    by (rewrite Hl; discriminate).
  split; [exact H|]. split; [exact Hs|]. split; [exact Hl|].
  destruct (X9_terminal_is_restored_when_the_loop_ends bytes_then_escape
              "/dev/ttyUSB0" 115200 _ [] H) as (Hends & _ & _).
  destruct (Hends Hs Hne) as (_ & Hok & _).
  split; [exact (proj1 (Hok Hl))|]. split; [reflexivity|].
  destruct (X9_terminal_is_restored_when_the_loop_ends colourless_terminal
              "/dev/ttyUSB0" 115200 "Serial<id=0x1, open=True>" []
              eq_refl) as (_ & _ & Hfails).
  refine (proj1 (Hfails curses_error eq_refl _)).
  intros msg. discriminate.
Defined.

(** The events of an orderly session, from the buffer [buf]: keys, and
    pieces of ASCII text that either leave the line unfinished or complete
    a line that begins with a measurement. *)
Inductive orderly : string -> list Reader.event -> Prop :=
| orderly_nil buf : orderly buf []
| orderly_key buf w es :
    orderly buf es -> orderly buf (Reader.InputReady w :: es)
| orderly_piece buf a es :
    is_ascii a = true -> endswith (buf ++ a) LF = false ->
    orderly (buf ++ a) es ->
    orderly buf (Reader.SerialReady (serial a) :: es)
| orderly_line buf a m es :
    is_ascii a = true -> endswith (buf ++ a) LF = true ->
    well_formed m -> buf ++ a = text m ->
    orderly "" es ->
    orderly buf (Reader.SerialReady (serial a) :: es).

Lemma turns_orderly r c ch rest buf es :
  orderly buf es -> code ch = 27 \/ code ch = 4 ->
  forall s,
    Reader.line s = buf -> ready r c (Reader.id s) ->
    exists s',
      Reader.turns (es ++ Reader.InputReady (WChar ch) :: rest) s
      = (Ok true, s').
Proof.
  intros Hes Hch.
  induction Hes as [buf|buf w es Hes IH|buf a es Ha Hend Hes IH
                    |buf a m es Ha Hend Hm Htext Hes IH];
    intros s Hline Hr.
  - exists s. cbn [app Reader.turns Reader.turn]. unfold bind at 1.
    unfold Reader.on_id, zoom. cbn [get_input].
    apply quit_key in Hch. rewrite Hch. destruct s; reflexivity.
  - destruct (get_input_ready r c w (Reader.id s) Hr)
      as (b & d & Hrun & Hd & _).
    cbn [app Reader.turns Reader.turn]. unfold bind at 1.
    unfold Reader.on_id, zoom. rewrite Hrun.
    destruct b; [exists (Reader.set_id d s); reflexivity|].
    apply IH; destruct s; simpl in *; assumption.
  - cbn [app Reader.turns]. unfold bind at 1.
    rewrite (turn_serial _ a s (decode_ascii a Ha)). cbv zeta.
    rewrite Hline, Hend. apply IH; destruct s; simpl in *; auto.
  - cbn [app Reader.turns]. unfold bind at 1.
    rewrite (turn_serial _ a s (decode_ascii a Ha)). cbv zeta.
    rewrite Hline, Hend, Htext.
    destruct Hr as (Hs & Hn & Hcs & Hb).
    destruct (groups_measurement m Hm) as (mo & Hmo & Hnum & _).
    pose proof (float_of_literal m Hm) as Hf. rewrite <- Hnum in Hf.
    destruct (display_number_match r c (text m) mo _ (Reader.id s) Hmo Hf Hs)
      as (Hn' & _ & Hs' & Hcs' & Hb' & _ & Hok).
    specialize (Hok (char_sets_have_glyphs _ Hcs)).
    destruct (display_number (text m) (Reader.id s)) as [o d].
    simpl in Hn', Hs', Hcs', Hb', Hok. subst o.
    apply IH; [reflexivity|].
    cbn [Reader.id]. unfold ready. rewrite Hn', Hcs', Hb'. simpl. auto.
Qed.

(** X10: a session in which the text that arrives from the serial port, in
    pieces of any length (one byte at a time, as the port is read, or
    more), is made of lines that begin with a measurement never fails,
    whatever keys are pressed and on a terminal of any size on which
    [__init__] succeeds: when the escape or end-of-transmission key comes,
    the loop is left, the terminal is restored, the port is closed and the
    process ends with status 0; what arrives after that key is not read. *)
Theorem X10_orderly_session_ends_well r c E port baudrate monitor p0
    es ch rest :
  Reader.serial_Serial E port baudrate = Ok monitor ->
  Reader.setup E = Ok tt ->
  sized r c (Reader.initscr E) -> orderly "" es ->
  code ch = 27 \/ code ch = 4 ->
  Reader.arrivals E = (es ++ Reader.InputReady (WChar ch) :: rest)%list ->
  loop_outcome E = Ok true
  /\ Reader.select_loop E port baudrate p0
     = (Ok Reader.Returns, (p0 ++ session port baudrate monitor)%list)
  /\ Reader.exit_status (fst (Reader.select_loop E port baudrate p0))
     = Some 0.
Proof.
  intros Hopen Hsetup Hs Hes Hch Harr.
  rewrite (select_loop_opened E port baudrate monitor p0 Hopen), Hsetup.
  unfold loop_outcome. rewrite Harr.
  destruct (turns_orderly r c ch rest "" es Hes Hch
              (Reader.Loop "" (init (Reader.initscr E)) []) eq_refl
              (ready_init r c _ Hs)) as (s' & Hrun).
  rewrite Hrun. repeat split.
Qed.

Lemma byte_by_byte_orderly : orderly "" (byte_by_byte ("12.34 mm" ++ LF)).
Proof.
  unfold byte_by_byte. simpl.
  apply (orderly_piece _ "1"); [reflexivity|reflexivity|].
  apply (orderly_piece _ "2"); [reflexivity|reflexivity|].
  apply (orderly_piece _ "."); [reflexivity|reflexivity|].
  apply (orderly_piece _ "3"); [reflexivity|reflexivity|].
  apply (orderly_piece _ "4"); [reflexivity|reflexivity|].
  apply (orderly_piece _ " "); [reflexivity|reflexivity|].
  apply (orderly_piece _ "m"); [reflexivity|reflexivity|].
  apply (orderly_piece _ "m"); [reflexivity|reflexivity|].
  apply (orderly_line _ LF reading_12_34_mm);
    [reflexivity|reflexivity|exact reading_12_34_mm_well_formed
    |reflexivity|apply orderly_nil].
Qed.

Lemma X10_witness :
  Reader.serial_Serial bytes_then_escape "/dev/ttyUSB0" 115200
  = Ok "Serial<id=0x1, open=True>"
  /\ Reader.setup bytes_then_escape = Ok tt
  /\ sized 24 80 (Reader.initscr bytes_then_escape)
  /\ orderly "" (byte_by_byte ("12.34 mm" ++ LF))
  /\ Reader.exit_status
       (fst (Reader.select_loop bytes_then_escape "/dev/ttyUSB0" 115200 []))
     = Some 0.
Proof.
  assert (H : Reader.serial_Serial bytes_then_escape "/dev/ttyUSB0" 115200
              = Ok "Serial<id=0x1, open=True>") by reflexivity.
  assert (Hs : sized 24 80 (Reader.initscr bytes_then_escape)).
  { unfold sized, Curses.wf; simpl; lia. }
  split; [exact H|]. split; [reflexivity|]. split; [exact Hs|].
  split; [exact byte_by_byte_orderly|].
  exact (proj2 (proj2 (X10_orderly_session_ends_well 24 80
                  bytes_then_escape "/dev/ttyUSB0" 115200 _ []
                  _ (ascii_of_nat 27) [] H eq_refl Hs byte_by_byte_orderly
                  (or_introl eq_refl) eq_refl))).
Defined.

(** ** The choice of the port *)

Lemma GetPort_lists E p0 :
  Reader.GetPort E true p0
  = (Raise (SystemExit 0),
     (p0 ++ match Reader.comports E with
            | [] => [Reader.Print ("No ports found" ++ Reader.newline)]
            | l => map listing l
            end)%list).
Proof.
  unfold Reader.GetPort. destruct (Reader.comports E) as [|first l] eqn:H.
  - reflexivity.
  - cbn [orb]. unfold bind at 1. rewrite print_listing. reflexivity.
Qed.

(** X11: with [--list_ports] the process lists every port that was found,
    or says that none was, and exits with status 0, whether or not a port
    was given: the serial port is not opened and the screen is not
    started. *)
Theorem X11_list_flag_only_lists E args p0 :
  Reader.list_ports args = true ->
  Reader.main E args p0
  = (Raise (SystemExit 0),
     (p0 ++ match Reader.comports E with
            | [] => [Reader.Print ("No ports found" ++ Reader.newline)]
            | l => map listing l
            end)%list)
  /\ Reader.exit_status (fst (Reader.main E args p0)) = Some 0
  /\ (forall port baudrate,
      In (Reader.OpenSerial port baudrate) (snd (Reader.main E args p0)) ->
      In (Reader.OpenSerial port baudrate) p0)
  /\ (In Reader.InitScr (snd (Reader.main E args p0)) ->
      In Reader.InitScr p0).
Proof.
  intros Hl.
  assert (Hmain : Reader.main E args p0
    = (Raise (SystemExit 0),
       (p0 ++ match Reader.comports E with
              | [] => [Reader.Print ("No ports found" ++ Reader.newline)]
              | l => map listing l
              end)%list)).
  { unfold Reader.main. rewrite Hl.
    destruct (Reader.port args) as [p|]; cbn [orb]; unfold bind at 1;
      rewrite GetPort_lists; reflexivity. }
  rewrite Hmain. cbn [fst snd].
  assert (Hout : forall e,
    (forall s, e <> Reader.Print s) ->
    In e (p0 ++ match Reader.comports E with
                | [] => [Reader.Print ("No ports found" ++ Reader.newline)]
                | l => map listing l
                end)%list -> In e p0).
  { intros e He Hin. apply in_app_or in Hin. destruct Hin as [Hin|Hin];
      [exact Hin|exfalso].
    destruct (Reader.comports E) as [|first l].
    - destruct Hin as [Hin|[]]. exact (He _ (eq_sym Hin)).
    - apply in_map_iff in Hin. destruct Hin as ([[po de] hw] & Hp & _).
      exact (He _ (eq_sym Hp)). }
  split; [reflexivity|]. split; [reflexivity|]. split.
  - intros port baudrate. apply Hout. discriminate.
  - apply Hout. discriminate.
Qed.

Lemma X11_witness :
  Reader.list_ports (Reader.Args true (Some "/dev/ttyUSB1") 9600) = true
  /\ Reader.main two_ports (Reader.Args true (Some "/dev/ttyUSB1") 9600) []
     = (Raise (SystemExit 0), map listing (Reader.comports two_ports)).
Proof.
  split; [reflexivity|].
  exact (proj1 (X11_list_flag_only_lists two_ports
                  (Reader.Args true (Some "/dev/ttyUSB1") 9600) []
                  eq_refl)).
Defined.

(** X12: without [--list_ports], a port given on the command line is used
    as it is and the ports are not scanned; when none is given and the
    scan finds exactly one port, that one is used without a word; in both
    cases the session starts with the baud rate of the command line. *)
Theorem X12_port_that_is_used E args p0 :
  Reader.list_ports args = false ->
  (forall p, Reader.port args = Some p -> p <> "" ->
     Reader.main E args p0
     = Reader.select_loop E p (Reader.baudrate args) p0)
  /\ (forall device desc hwid,
      Reader.port args = None \/ Reader.port args = Some "" ->
      Reader.comports E = [(device, desc, hwid)] ->
      Reader.main E args p0
      = Reader.select_loop E device (Reader.baudrate args) p0).
Proof.
  intros Hl. split.
  - intros p Hp Hne. unfold Reader.main. rewrite Hl, Hp. cbn [orb].
    destruct (String.eqb p "") eqn:He;
      [apply String.eqb_eq in He; contradiction|].
    reflexivity.
  - intros device desc hwid Hp Hports.
    assert (Hget : Reader.GetPort E false p0 = (Ok device, p0)).
    { unfold Reader.GetPort. rewrite Hports. reflexivity. }
    unfold Reader.main. rewrite Hl.
    destruct Hp as [Hp|Hp]; rewrite Hp; cbn [orb String.eqb];
      unfold bind at 1; rewrite Hget; reflexivity.
Qed.

Lemma X12_witness :
  Reader.list_ports no_args = false
  /\ Reader.main bytes_then_escape no_args []
     = Reader.select_loop bytes_then_escape "/dev/ttyUSB0" 115200 [].
Proof.
  split; [reflexivity|].
  exact (proj2 (X12_port_that_is_used bytes_then_escape no_args []
                  eq_refl)
           "/dev/ttyUSB0" "a" "b" (or_introl eq_refl) eq_refl).
Defined.

(** ** Where a character leaves the cursor *)

(** The window has [r] rows and [c] columns, the cursor is at row [y] and
    column [x], and the fields of the display are those of [s0]. *)
Definition placed (r c y x : Z) (s0 s : IndicatorDisplay) : Prop :=
  Curses.rows (stdscr s) = r /\ Curses.cols (stdscr s) = c
  /\ Curses.cury (stdscr s) = y /\ Curses.curx (stdscr s) = x
  /\ fields s = fields s0.

Section Advance.
Variables (r c : Z) (s0 : IndicatorDisplay).

Lemma move_placed y x y0 x0 s :
  0 <= y < r -> 0 <= x < c -> placed r c y0 x0 s0 s ->
  exists s', scr (Curses.move y x) s = (Ok tt, s') /\ placed r c y x s0 s'.
Proof.
  intros Hy Hx (Hr & Hc & _ & _ & Hf).
  unfold scr, zoom, Curses.move. rewrite Hr, Hc.
  replace ((0 <=? y) && (y <? r) && (0 <=? x) && (x <? c)) with true.
  - eexists. split; [reflexivity|]. unfold placed. simpl. auto.
  - symmetry. rewrite !andb_true_iff, !Z.leb_le, !Z.ltb_lt. lia.
Qed.

Lemma draw_cell_placed d y x s :
  x + 1 < c -> placed r c y x s0 s ->
  exists s', draw_cell d s = (Ok tt, s') /\ placed r c y (x + 1) s0 s'.
Proof.
  intros Hx (Hr & Hc & Hy & Hcx & Hf).
  assert (Hroom : (Curses.curx (stdscr s) + 1 <? Curses.cols (stdscr s))
                  = true).
  { rewrite Hcx, Hc. apply Z.ltb_lt. exact Hx. }
  unfold draw_cell. unfold bind at 1. unfold get at 1. unfold bind at 1.
  destruct (negb (Ascii.eqb d " "));
    unfold scr at 1, zoom, Curses.addch; rewrite Hroom;
    unfold scr, zoom, Curses.clrtoeol;
    (eexists; split; [reflexivity|]); unfold placed; simpl;
    rewrite !fields_set_stdscr; repeat split; auto; lia.
Qed.

Lemma draw_line_placed line : forall y x s,
  x + Z.of_nat (String.length line) < c -> placed r c y x s0 s ->
  exists s',
    for_each (list_ascii_of_string line) draw_cell s = (Ok tt, s')
    /\ placed r c y (x + Z.of_nat (String.length line)) s0 s'.
Proof.
  induction line as [|d line IH]; intros y x s Hx Hs.
  - exists s. simpl. rewrite Z.add_0_r. auto.
  - cbn [String.length] in *. rewrite Nat2Z.inj_succ in *.
    destruct (draw_cell_placed d y x s ltac:(lia) Hs) as (s1 & H1 & Hs1).
    destruct (IH y (x + 1) s1 ltac:(lia) Hs1) as (s' & H' & Hs').
    exists s'. cbn [list_ascii_of_string for_each]. unfold bind at 1.
    rewrite H1, H'. split; [reflexivity|].
    replace (x + Z.succ (Z.of_nat (String.length line)))
      with (x + 1 + Z.of_nat (String.length line)) by lia.
    exact Hs'.
Qed.

Lemma draw_rows_placed g col : forall row y0 x0 s,
  g <> [] -> 0 <= row -> row + Z.of_nat (List.length g) <= r -> 0 <= col ->
  (forall line, In line g -> col + Z.of_nat (String.length line) < c) ->
  placed r c y0 x0 s0 s ->
  exists s',
    draw_rows g row col s = (Ok tt, s')
    /\ placed r c (row + Z.of_nat (List.length g) - 1)
         (col + Z.of_nat (String.length (last g ""))) s0 s'.
Proof.
  induction g as [|line g IH]; intros row y0 x0 s Hne Hrow Hfit Hcol Hw Hs;
    [congruence|].
  cbn [List.length] in Hfit. rewrite Nat2Z.inj_succ in Hfit.
  pose proof (Hw line (or_introl eq_refl)) as Hline.
  destruct (move_placed row col y0 x0 s ltac:(lia) ltac:(lia) Hs)
    as (s1 & H1 & Hs1).
  destruct (draw_line_placed line row col s1 Hline Hs1) as (s2 & H2 & Hs2).
  assert (Htry :
    try_curses (scr (Curses.move row col) ;;
                for_each (list_ascii_of_string line) draw_cell) s
    = (Ok tt, s2)).
  { unfold try_curses, bind. rewrite H1, H2. reflexivity. }
  cbn [draw_rows]. unfold bind at 1. rewrite Htry.
  destruct g as [|line' g'].
  - exists s2. split; [reflexivity|]. cbn [List.length last].
    replace (row + Z.of_nat 1 - 1) with row by lia. exact Hs2.
  - destruct (IH (row + 1) _ _ s2 ltac:(discriminate) ltac:(lia) ltac:(lia)
                Hcol (fun l Hl => Hw l (or_intror Hl)) Hs2)
      as (s' & H' & Hs').
    exists s'. split; [exact H'|].
    replace (row + Z.of_nat (List.length (line :: line' :: g')) - 1)
      with (row + 1 + Z.of_nat (List.length (line' :: g')) - 1)
      by (cbn [List.length]; lia).
    exact Hs'.
Qed.

Lemma _display_char_placed ch y x s g fallback :
  lookup (char_set s0) "?" = Some fallback ->
  g = match lookup (char_set s0) ch with Some g => g | None => fallback end ->
  g <> [] -> 0 <= y -> 0 <= x -> y + Z.of_nat (List.length g) <= r ->
  (forall line, In line g -> x + Z.of_nat (String.length line) < c) ->
  placed r c y x s0 s ->
  exists s',
    _display_char ch s = (Ok tt, s')
    /\ placed r c y (x + Z.of_nat (String.length (last g ""))) s0 s'.
Proof.
  intros Hq Hg Hne Hy Hx Hfit Hw Hs.
  assert (Hcs : char_set s = char_set s0).
  { destruct Hs as (_ & _ & _ & _ & Hf). unfold fields in Hf. congruence. }
  destruct (draw_rows_placed g x y y x s Hne Hy Hfit Hx Hw Hs)
    as (s1 & H1 & Hs1).
  assert (Hlen : (0 < List.length g)%nat)
    by (destruct g; [congruence|simpl; lia]).
  assert (Hlast : In (last g "") g).
  { clear -Hne. induction g as [|a [|b g] IH]; [congruence|left; reflexivity|].
    right. apply IH. discriminate. }
  destruct (move_placed y (x + Z.of_nat (String.length (last g ""))) _ _ s1
              ltac:(lia) ltac:(specialize (Hw _ Hlast); lia) Hs1)
    as (s' & H' & Hs').
  exists s'. split; [|exact Hs'].
  unfold _display_char. unfold bind at 1. unfold scr at 1, zoom at 1.
  unfold Curses.getyx at 1. cbv beta iota zeta. cbn [fst snd].
  assert (Hset : set_stdscr (stdscr s) s = s) by (destruct s; reflexivity).
  rewrite Hset. unfold bind at 1. unfold get at 1.
  unfold bind at 1. unfold lift at 1, getitem. rewrite Hcs, Hq.
  rewrite <- Hg.
  destruct Hs as (_ & _ & Hcy & Hcx & _). rewrite Hcy, Hcx.
  unfold bind at 1. rewrite H1.
  unfold bind at 1. unfold scr at 1, zoom at 1. unfold Curses.getyx at 1.
  cbv beta iota zeta. cbn [fst snd].
  assert (Hset1 : set_stdscr (stdscr s1) s1 = s1) by (destruct s1; reflexivity).
  rewrite Hset1.
  destruct Hs1 as (_ & _ & _ & Hcx1 & _). rewrite Hcx1. exact H'.
Qed.

End Advance.

(** X13: on a window with room for the glyph, [_display_char] returns with
    the cursor back on the row where it started and advanced by the width
    of the last row of the glyph, whatever the widths of the rows above;
    the size of the window and the fields of the display are unchanged.
    The glyph is that of the character, or that of ['?'] when the font
    has none. *)
Theorem X13_cursor_advances_by_the_last_row ch s g fallback :
  lookup (char_set s) "?" = Some fallback ->
  g = match lookup (char_set s) ch with Some g => g | None => fallback end ->
  g <> [] ->
  0 <= Curses.cury (stdscr s) -> 0 <= Curses.curx (stdscr s) ->
  Curses.cury (stdscr s) + Z.of_nat (List.length g) <= Curses.rows (stdscr s) ->
  (forall line, In line g ->
     Curses.curx (stdscr s) + Z.of_nat (String.length line)
     < Curses.cols (stdscr s)) ->
  exists s',
    _display_char ch s = (Ok tt, s')
    /\ Curses.cury (stdscr s') = Curses.cury (stdscr s)
    /\ Curses.curx (stdscr s')
       = Curses.curx (stdscr s) + Z.of_nat (String.length (last g ""))
    /\ Curses.rows (stdscr s') = Curses.rows (stdscr s)
    /\ Curses.cols (stdscr s') = Curses.cols (stdscr s)
    /\ fields s' = fields s.
Proof.
  intros Hq Hg Hne Hy Hx Hfit Hw.
  destruct (_display_char_placed _ _ s ch _ _ s g fallback Hq Hg Hne Hy Hx
              Hfit Hw) as (s' & Hrun & Hr & Hc & Hcy & Hcx & Hf).
  - unfold placed. auto.
  - exists s'. auto 10.
Qed.

Definition third_font_on_terminal : IndicatorDisplay :=
  set_char_set CHAR_SET3 (init terminal).

Lemma X13_witness :
  exists s',
    _display_char "i" third_font_on_terminal = (Ok tt, s')
    /\ Curses.cury (stdscr s') = 0 /\ Curses.curx (stdscr s') = 3.
Proof.
  destruct (X13_cursor_advances_by_the_last_row "i" third_font_on_terminal
              (nth 10 (map snd CHAR_SET3) []) (nth 16 (map snd CHAR_SET3) []))
    as (s' & Hrun & Hy & Hx & _).
  - vm_compute. reflexivity.
  - vm_compute. reflexivity.
  - vm_compute. discriminate.
  - simpl. lia.
  - simpl. lia.
  - vm_compute. discriminate.
  - intros line Hin. vm_compute in Hin.
    repeat (destruct Hin as [<-|Hin]; [vm_compute; reflexivity|]).
    destruct Hin.
  - exists s'. split; [exact Hrun|]. split; [exact Hy|]. exact Hx.
Defined.

(** ** The fonts *)

Lemma lookup_In (d : dict) k g : lookup d k = Some g -> In (k, g) d.
Proof.
  induction d as [|[k' g'] d IH]; simpl; [discriminate|].
  destruct (Ascii.eqb k k') eqn:E.
  - apply Ascii.eqb_eq in E. intros H. inversion H; subst. left. reflexivity.
  - intros H. right. apply IH. exact H.
Qed.

(** All rows are as wide as the first. *)
Definition rectangular_b (g : glyph) : bool :=
  match g with
  | [] => true
  | row :: rows =>
    forallb (fun r => (String.length r =? String.length row)%nat) rows
  end.

Lemma rectangular_b_sound g : rectangular_b g = true -> rectangular g.
Proof.
  destruct g as [|row rows]; intros H.
  - exists 0%nat. constructor.
  - exists (String.length row). constructor; [reflexivity|].
    simpl in H. rewrite forallb_forall in H. apply Forall_forall.
    intros r Hr. apply Nat.eqb_eq. apply H. exact Hr.
Qed.

Lemma forallb_lookup (f : ascii * glyph -> bool) (d : dict) k g :
  forallb f d = true -> lookup d k = Some g -> f (k, g) = true.
Proof.
  intros H Hl. rewrite forallb_forall in H. apply H, lookup_In. exact Hl.
Qed.

(** X14: every glyph of every font is a rectangle, the glyph of ['i'] in
    the third and in the fourth font excepted. *)
Theorem X14_glyphs_are_rectangles_but_i cs k g :
  In cs CHAR_SETS -> lookup cs k = Some g ->
  rectangular g \/ (k = "i"%char /\ (cs = CHAR_SET3 \/ cs = CHAR_SET4)).
Proof.
  unfold CHAR_SETS. simpl. intros [<-|[<-|[<-|[<-|[]]]]] Hl.
  - left. apply rectangular_b_sound.
    apply (forallb_lookup (fun kg => rectangular_b (snd kg)) CHAR_SET1 k g);
      [vm_compute; reflexivity|exact Hl].
  - left. apply rectangular_b_sound.
    apply (forallb_lookup (fun kg => rectangular_b (snd kg)) CHAR_SET2 k g);
      [vm_compute; reflexivity|exact Hl].
  - pose proof (forallb_lookup
        (fun kg => rectangular_b (snd kg) || Ascii.eqb (fst kg) "i")
        CHAR_SET3 k g ltac:(vm_compute; reflexivity) Hl) as H.
    cbn [fst snd] in H. apply orb_true_iff in H. destruct H as [H|H].
    + left. apply rectangular_b_sound. exact H.
    + right. apply Ascii.eqb_eq in H. auto.
  - pose proof (forallb_lookup
        (fun kg => rectangular_b (snd kg) || Ascii.eqb (fst kg) "i")
        CHAR_SET4 k g ltac:(vm_compute; reflexivity) Hl) as H.
    cbn [fst snd] in H. apply orb_true_iff in H. destruct H as [H|H].
    + left. apply rectangular_b_sound. exact H.
    + right. apply Ascii.eqb_eq in H. auto.
Qed.

Lemma X14_witness :
  In CHAR_SET4 CHAR_SETS
  /\ lookup CHAR_SET4 "8" = Some (nth 8 (map snd CHAR_SET4) [])
  /\ rectangular (nth 8 (map snd CHAR_SET4) []).
Proof.
  assert (Hin : In CHAR_SET4 CHAR_SETS) by (do 3 right; left; reflexivity).
  assert (Hl : lookup CHAR_SET4 "8" = Some (nth 8 (map snd CHAR_SET4) []))
    by (vm_compute; reflexivity).
  split; [exact Hin|]. split; [exact Hl|].
  destruct (X14_glyphs_are_rectangles_but_i CHAR_SET4 "8" _ Hin Hl)
    as [H|[H _]]; [exact H|discriminate H].
Defined.

(** The height of the glyphs of a font: that of ['0'], below which
    [update_page] clears the screen. *)
Definition height (cs : dict) : nat :=
  match lookup cs "0" with
  | Some zero => List.length zero
  | None => 0
  end.

(** X15: in every font all glyphs have the height of the glyph of ['0'],
    which is at least one row: the clearing that [update_page] does below
    that height never erases a row of a character just drawn. *)
Theorem X15_glyphs_of_a_font_have_one_height cs k g :
  In cs CHAR_SETS -> lookup cs k = Some g ->
  List.length g = height cs /\ (0 < height cs)%nat.
Proof.
  unfold CHAR_SETS. simpl. intros [<-|[<-|[<-|[<-|[]]]]] Hl.
  - pose proof (forallb_lookup
        (fun kg => (List.length (snd kg) =? height CHAR_SET1)%nat)
        CHAR_SET1 k g ltac:(vm_compute; reflexivity) Hl) as H.
    apply Nat.eqb_eq in H. split; [exact H|vm_compute; lia].
  - pose proof (forallb_lookup
        (fun kg => (List.length (snd kg) =? height CHAR_SET2)%nat)
        CHAR_SET2 k g ltac:(vm_compute; reflexivity) Hl) as H.
    apply Nat.eqb_eq in H. split; [exact H|vm_compute; lia].
  - pose proof (forallb_lookup
        (fun kg => (List.length (snd kg) =? height CHAR_SET3)%nat)
        CHAR_SET3 k g ltac:(vm_compute; reflexivity) Hl) as H.
    apply Nat.eqb_eq in H. split; [exact H|vm_compute; lia].
  - pose proof (forallb_lookup
        (fun kg => (List.length (snd kg) =? height CHAR_SET4)%nat)
        CHAR_SET4 k g ltac:(vm_compute; reflexivity) Hl) as H.
    apply Nat.eqb_eq in H. split; [exact H|vm_compute; lia].
Qed.

Lemma X15_witness :
  In CHAR_SET3 CHAR_SETS
  /\ lookup CHAR_SET3 "m" = Some (nth 12 (map snd CHAR_SET3) [])
  /\ List.length (nth 12 (map snd CHAR_SET3) []) = height CHAR_SET3.
Proof.
  assert (Hin : In CHAR_SET3 CHAR_SETS) by (do 2 right; left; reflexivity).
  assert (Hl : lookup CHAR_SET3 "m" = Some (nth 12 (map snd CHAR_SET3) []))
    by (vm_compute; reflexivity).
  split; [exact Hin|]. split; [exact Hl|].
  exact (proj1 (X15_glyphs_of_a_font_have_one_height CHAR_SET3 "m" _ Hin Hl)).
Defined.

(** ** The sign column *)

Lemma width_is_last w g :
  g <> [] -> width_is w g -> String.length (last g "") = w.
Proof.
  intros Hne Hw. unfold width_is in Hw. rewrite Forall_forall in Hw.
  apply Hw. clear Hw. induction g as [|a [|b g] IH];
    [congruence|left; reflexivity|].
  right. apply IH. discriminate.
Qed.

Lemma width_is_fits w g x c :
  width_is w g -> x + Z.of_nat w < c ->
  forall line, In line g -> x + Z.of_nat (String.length line) < c.
Proof.
  intros Hw Hx line Hin. unfold width_is in Hw. rewrite Forall_forall in Hw.
  rewrite (Hw line Hin). exact Hx.
Qed.

Lemma sign_glyphs cs :
  In cs CHAR_SETS ->
  exists blank minus fallback w,
    lookup cs " " = Some blank /\ lookup cs "-" = Some minus
    /\ lookup cs "?" = Some fallback
    /\ width_is w blank /\ width_is w minus /\ (0 < w <= 5)%nat
    /\ (0 < List.length blank <= 11)%nat
    /\ (0 < List.length minus <= 11)%nat.
Proof.
  unfold CHAR_SETS. simpl. intros [<-|[<-|[<-|[<-|[]]]]].
  - exists (nth 14 (map snd CHAR_SET1) []), (nth 13 (map snd CHAR_SET1) []),
      (nth 16 (map snd CHAR_SET1) []), 4%nat.
    repeat split; try (vm_compute; reflexivity); try (vm_compute; lia);
      unfold width_is; vm_compute; repeat constructor.
  - exists (nth 14 (map snd CHAR_SET2) []), (nth 13 (map snd CHAR_SET2) []),
      (nth 16 (map snd CHAR_SET2) []), 5%nat.
    repeat split; try (vm_compute; reflexivity); try (vm_compute; lia);
      unfold width_is; vm_compute; repeat constructor.
  - exists (nth 14 (map snd CHAR_SET3) []), (nth 13 (map snd CHAR_SET3) []),
      (nth 16 (map snd CHAR_SET3) []), 5%nat.
    repeat split; try (vm_compute; reflexivity); try (vm_compute; lia);
      unfold width_is; vm_compute; repeat constructor.
  - exists (nth 14 (map snd CHAR_SET4) []), (nth 13 (map snd CHAR_SET4) []),
      (nth 16 (map snd CHAR_SET4) []), 5%nat.
    repeat split; try (vm_compute; reflexivity); try (vm_compute; lia);
      unfold width_is; vm_compute; repeat constructor.
Qed.

(** X16: in every font of the module, on a window with room for 11 rows
    and 5 columns from the cursor, drawing the blank and drawing the minus
    sign leave the cursor on the same row and in the same column: the digits
    of a reading start in the same column whether it is negative or not. *)
Theorem X16_sign_keeps_the_digits_aligned s :
  In (char_set s) CHAR_SETS ->
  0 <= Curses.cury (stdscr s) -> 0 <= Curses.curx (stdscr s) ->
  Curses.cury (stdscr s) + 11 <= Curses.rows (stdscr s) ->
  Curses.curx (stdscr s) + 5 < Curses.cols (stdscr s) ->
  exists s1 s2,
    _display_char " " s = (Ok tt, s1) /\ _display_char "-" s = (Ok tt, s2)
    /\ Curses.cury (stdscr s1) = Curses.cury (stdscr s)
    /\ Curses.cury (stdscr s2) = Curses.cury (stdscr s)
    /\ Curses.curx (stdscr s1) = Curses.curx (stdscr s2)
    /\ Curses.curx (stdscr s) < Curses.curx (stdscr s1).
Proof.
  intros Hcs Hy Hx Hrows Hcols.
  destruct (sign_glyphs _ Hcs)
    as (blank & minus & fallback & w & Hb & Hm & Hq & Hwb & Hwm & Hw & Hlb
        & Hlm).
  assert (Hplaced : placed (Curses.rows (stdscr s)) (Curses.cols (stdscr s))
                      (Curses.cury (stdscr s)) (Curses.curx (stdscr s)) s s)
    by (unfold placed; auto).
  assert (Hbne : blank <> []) by (destruct blank; [simpl in Hlb; lia|discriminate]).
  assert (Hmne : minus <> []) by (destruct minus; [simpl in Hlm; lia|discriminate]).
  assert (Hfb : Curses.cury (stdscr s) + Z.of_nat (List.length blank)
                <= Curses.rows (stdscr s)) by lia.
  assert (Hfm : Curses.cury (stdscr s) + Z.of_nat (List.length minus)
                <= Curses.rows (stdscr s)) by lia.
  assert (Hfw : Curses.curx (stdscr s) + Z.of_nat w
                < Curses.cols (stdscr s)) by lia.
  destruct (_display_char_placed (Curses.rows (stdscr s))
              (Curses.cols (stdscr s)) s " " _ _ s blank fallback Hq
              ltac:(rewrite Hb; reflexivity) Hbne Hy Hx Hfb
              (width_is_fits w blank _ _ Hwb Hfw) Hplaced)
    as (s1 & H1 & _ & _ & Hy1 & Hx1 & _).
  destruct (_display_char_placed (Curses.rows (stdscr s))
              (Curses.cols (stdscr s)) s "-" _ _ s minus fallback Hq
              ltac:(rewrite Hm; reflexivity) Hmne Hy Hx Hfm
              (width_is_fits w minus _ _ Hwm Hfw) Hplaced)
    as (s2 & H2 & _ & _ & Hy2 & Hx2 & _).
  rewrite (width_is_last w blank Hbne Hwb) in Hx1.
  rewrite (width_is_last w minus Hmne Hwm) in Hx2.
  exists s1, s2. repeat split; auto; lia.
Qed.

Lemma X16_witness :
  exists s1 s2,
    _display_char " " (init terminal) = (Ok tt, s1)
    /\ _display_char "-" (init terminal) = (Ok tt, s2)
    /\ Curses.curx (stdscr s1) = Curses.curx (stdscr s2).
Proof.
  destruct (X16_sign_keeps_the_digits_aligned (init terminal))
    as (s1 & s2 & H1 & H2 & _ & _ & Hx & _).
  - left. reflexivity.
  - simpl. lia.
  - simpl. lia.
  - simpl. lia.
  - simpl. lia.
  - exists s1, s2. auto.
Defined.

(** ** The foot note *)

(** X17: on a window of fewer than two rows the foot note is not drawn:
    the first line would go above the window, [curses.error] is absorbed,
    and the second line, for which there is a row, is skipped with it. *)
Theorem X17_no_foot_note_on_a_short_window s :
  Curses.rows (stdscr s) < 2 -> _foot_note s = (Ok tt, s).
Proof.
  intros Hrows. unfold _foot_note. unfold bind at 1.
  unfold scr at 1, zoom at 1, Curses.getmaxyx at 1. cbv beta iota zeta.
  cbn [fst].
  assert (Hset : set_stdscr (stdscr s) s = s) by (destruct s; reflexivity).
  rewrite Hset. unfold try_curses. unfold bind at 1.
  unfold scr at 1, zoom at 1, Curses.addstr at 1. unfold bind at 1.
  unfold Curses.move at 1.
  replace (0 <=? Curses.rows (stdscr s) - 2) with false
    by (symmetry; apply Z.leb_gt; lia).
  cbn [andb]. rewrite Hset. reflexivity.
Qed.

Lemma X17_witness :
  Curses.rows (stdscr (init (Curses.Window 1 80 0 0 []))) < 2
  /\ _foot_note (init (Curses.Window 1 80 0 0 []))
     = (Ok tt, init (Curses.Window 1 80 0 0 [])).
Proof.
  assert (H : Curses.rows (stdscr (init (Curses.Window 1 80 0 0 []))) < 2)
    by (simpl; lia).
  split; [exact H|].
  exact (X17_no_foot_note_on_a_short_window _ H).
Defined.

(** ** What a repaint writes *)


Section Keeping.
Context {S : Type}.
Variable I : S -> Prop.







End Keeping.

Section Styled.
Variables (r c : Z) (s0 : IndicatorDisplay) (before : list Curses.op).



















End Styled.



(** ** Each press moves on by one *)

Lemma position_CHAR_SETS i j cs :
  nth_error CHAR_SETS i = Some cs -> nth_error CHAR_SETS j = Some cs -> i = j.
Proof.
  intros Hi Hj. apply index_CHAR_SETS in Hi. apply index_CHAR_SETS in Hj.
  rewrite Hi in Hj. inversion Hj. lia.
Qed.

Lemma position_BASE_CHARACTERS i j b :
  nth_error BASE_CHARACTERS i = Some b ->
  nth_error BASE_CHARACTERS j = Some b -> i = j.
Proof.
  intros Hi Hj. apply index_BASE_CHARACTERS in Hi.
  apply index_BASE_CHARACTERS in Hj.
  rewrite Hi in Hj. inversion Hj. lia.
Qed.

(** X19: the fonts are pairwise different and so are the fill symbols, so
    that [index] finds the current one: [n] presses of F1 from the font at
    position [i] lead to the font at position [(i + n) mod 4], which is the
    font of the start exactly when [n] is a multiple of 4; and [n] presses
    of F2, [n] at least 1, lead to the fill symbol at position
    [(i + n) mod 8], which is that of the start exactly when [n] is a
    multiple of 8.  No press fails. *)
Theorem X19_presses_have_periods_4_and_8 r c self n :
  sized r c (stdscr self) -> is_reading (number self) ->
  In (char_set self) CHAR_SETS -> In (base_char self) BASE_CHARACTERS ->
  (exists i s',
     nth_error CHAR_SETS i = Some (char_set self)
     /\ times n handle_f1 self = (Ok tt, s')
     /\ nth_error CHAR_SETS ((i + n) mod 4) = Some (char_set s')
     /\ (char_set s' = char_set self <-> (n mod 4 = 0)%nat))
  /\ (exists i s',
     nth_error BASE_CHARACTERS i = Some (base_char self)
     /\ times (S n) handle_f2 self = (Ok tt, s')
     /\ nth_error BASE_CHARACTERS ((i + S n) mod 8) = Some (base_char s')
     /\ (base_char s' = base_char self <-> (S n mod 8 = 0)%nat)).
Proof.
  intros Hs Hn Hcs Hb. split.
  - destruct (In_nth_error_lt _ _ Hcs) as (i & Hi & Hnth).
    change (List.length CHAR_SETS) with 4%nat in Hi.
    destruct (handle_f1_times r c n self i Hs Hn Hi Hnth)
      as (s' & Hrun & Hnth' & _).
    exists i, s'. split; [exact Hnth|]. split; [exact Hrun|].
    split; [exact Hnth'|]. split.
    + intros Heq. rewrite Heq in Hnth'.
      pose proof (position_CHAR_SETS _ _ _ Hnth' Hnth) as H.
      pose proof (Nat.Div0.add_mod i n 4) as Hm.
      rewrite (Nat.mod_small i 4 Hi) in Hm.
      pose proof (Nat.mod_upper_bound n 4 ltac:(lia)) as Hlt.
      rewrite H in Hm.
      destruct (Nat.lt_ge_cases (i + n mod 4) 4) as [Hsm|Hbig].
      * rewrite (Nat.mod_small _ _ Hsm) in Hm. lia.
      * assert (Hsub : ((i + n mod 4) mod 4 = i + n mod 4 - 4)%nat).
        { rewrite <- (Nat.mod_small (i + n mod 4 - 4) 4) by lia.
          replace (i + n mod 4)%nat with ((i + n mod 4 - 4) + 1 * 4)%nat
            at 1 by lia.
          apply Nat.Div0.mod_add. }
        lia.
    + intros Hz. rewrite Nat.Div0.add_mod, Hz, Nat.add_0_r,
        Nat.Div0.mod_mod, (Nat.mod_small i 4 Hi) in Hnth'.
      congruence.
  - destruct (In_nth_error_lt _ _ Hb) as (i & Hi & Hnth).
    change (List.length BASE_CHARACTERS) with 8%nat in Hi.
    assert (Hg : has_glyphs (char_set self))
      by (apply char_sets_have_glyphs; exact Hcs).
    destruct (handle_f2_times r c n self i Hs Hn Hg Hi Hnth)
      as (s' & Hrun & Hnth' & _).
    exists i, s'. split; [exact Hnth|]. split; [exact Hrun|].
    split; [exact Hnth'|]. split.
    + intros Heq. rewrite Heq in Hnth'.
      pose proof (position_BASE_CHARACTERS _ _ _ Hnth' Hnth) as H.
      pose proof (Nat.Div0.add_mod i (S n) 8) as Hm.
      rewrite (Nat.mod_small i 8 Hi) in Hm.
      pose proof (Nat.mod_upper_bound (S n) 8 ltac:(lia)) as Hlt.
      rewrite H in Hm.
      destruct (Nat.lt_ge_cases (i + S n mod 8) 8) as [Hsm|Hbig].
      * rewrite (Nat.mod_small _ _ Hsm) in Hm. lia.
      * assert (Hsub : ((i + S n mod 8) mod 8 = i + S n mod 8 - 8)%nat).
        { rewrite <- (Nat.mod_small (i + S n mod 8 - 8) 8) by lia.
          replace (i + S n mod 8)%nat with ((i + S n mod 8 - 8) + 1 * 8)%nat
            at 1 by lia.
          apply Nat.Div0.mod_add. }
        lia.
    + intros Hz. rewrite Nat.Div0.add_mod, Hz, Nat.add_0_r,
        Nat.Div0.mod_mod, (Nat.mod_small i 8 Hi) in Hnth'.
      congruence.
Qed.

Lemma X19_witness :
  sized 24 80 (stdscr (init terminal)) /\ is_reading (number (init terminal))
  /\ In (char_set (init terminal)) CHAR_SETS
  /\ In (base_char (init terminal)) BASE_CHARACTERS
  /\ exists i s',
     nth_error CHAR_SETS i = Some (char_set (init terminal))
     /\ times 6 handle_f1 (init terminal) = (Ok tt, s')
     /\ nth_error CHAR_SETS ((i + 6) mod 4) = Some (char_set s')
     /\ (char_set s' = char_set (init terminal) <-> (6 mod 4 = 0)%nat).
Proof.
  assert (Hs : sized 24 80 (stdscr (init terminal))).
  { unfold sized, Curses.wf; simpl; lia. }
  assert (Hn : is_reading (number (init terminal))) by reflexivity.
  assert (Hcs : In (char_set (init terminal)) CHAR_SETS)
    by (left; reflexivity).
  assert (Hb : In (base_char (init terminal)) BASE_CHARACTERS).
  { do 4 right. left. reflexivity. }
  split; [exact Hs|]. split; [exact Hn|]. split; [exact Hcs|].
  split; [exact Hb|].
  exact (proj1 (X19_presses_have_periods_4_and_8 24 80 (init terminal) 6
                  Hs Hn Hcs Hb)).
Defined.

(** ** A reading and its opposite *)

Lemma round_ratio_abs n d :
  SFabs (round_ratio true n d) = SFabs (round_ratio false n d).
Proof.
  unfold round_ratio. destruct (n <=? 0); [reflexivity|].
  destruct (SFdiv_core_binary prec emax n 0 d 0) as [[mz ez] lz].
  unfold binary_round_aux.
  destruct (shr_fexp prec emax mz ez lz) as [mrs' e'].
  destruct (shr_fexp prec emax _ e' loc_Exact) as [mrs'' e''].
  destruct (shr_m mrs''); [reflexivity| |reflexivity].
  destruct (e'' <=? emax - prec); reflexivity.
Qed.

Lemma num_str_float f u :
  num_str (PyFloat f) u
  = Ok (sign_of (SFltb f fzero) ++ format_float (decimals u) (SFabs f)
        ++ " " ++ u).
Proof. reflexivity. Qed.

(** X20: a literal and the same literal with a minus sign are shown with
    the same digits: the two texts differ by the sign character at most
    (they are equal when the value rounds to zero). *)
Theorem X20_opposite_readings_show_the_same_digits m1 m2 u :
  well_formed m1 -> well_formed m2 ->
  m_sign m1 = "" -> m_sign m2 = "-" ->
  m_int m2 = m_int m1 -> m_frac m2 = m_frac m1 ->
  exists mag sg,
    num_str (PyFloat (literal_value m1)) u = Ok (" " ++ mag ++ " " ++ u)
    /\ num_str (PyFloat (literal_value m2)) u = Ok (sg ++ mag ++ " " ++ u)
    /\ (sg = "-" \/ sg = " ").
Proof.
  intros _ _ H1 H2 Hi Hf. unfold literal_value. rewrite H1, H2, Hi, Hf.
  change (String.eqb "" "-") with false.
  change (String.eqb "-" "-") with true.
  set (n := digits_value 0 (m_int m1 ++ m_frac m1)).
  set (d := 10 ^ Z.of_nat (String.length (m_frac m1))).
  exists (format_float (decimals u) (SFabs (round_ratio false n d))),
    (sign_of (SFltb (round_ratio true n d) fzero)).
  rewrite !num_str_float, round_ratio_unsigned, round_ratio_abs.
  split; [reflexivity|]. split; [reflexivity|].
  destruct (SFltb (round_ratio true n d) fzero); auto.
Qed.

Definition reading_minus_12_34_mm : measurement :=
  Measurement "-" "12" "34" " " "mm" LF.

Lemma X20_witness :
  well_formed reading_12_34_mm /\ well_formed reading_minus_12_34_mm
  /\ exists mag sg,
    num_str (PyFloat (literal_value reading_12_34_mm)) "mm"
    = Ok (" " ++ mag ++ " " ++ "mm")
    /\ num_str (PyFloat (literal_value reading_minus_12_34_mm)) "mm"
       = Ok (sg ++ mag ++ " " ++ "mm")
    /\ (sg = "-" \/ sg = " ").
Proof.
  assert (H2 : well_formed reading_minus_12_34_mm).
  { unfold well_formed; simpl. repeat split; try discriminate; auto. }
  split; [exact reading_12_34_mm_well_formed|]. split; [exact H2|].
  exact (X20_opposite_readings_show_the_same_digits reading_12_34_mm
           reading_minus_12_34_mm "mm" reading_12_34_mm_well_formed H2
           eq_refl eq_refl eq_refl eq_refl).
Defined.
